(** * xsqlite: the page codec of sqlite3crypt.c

    A shallow embedding of the codec that sqlite3crypt.c installs beneath
    the SQLite pager: cipher contexts, crypto blocks, the page callback,
    the attach protocol and the rekey protocol, together with the
    properties the specification states about them.  The callers of the
    codec are embedded over the same state: the key and rekey methods
    and the prepared statements of the wrapper SQLiteWrapper.h, and the
    tool sqlitenc_cli.

    Memory is one heap of objects addressed by locations; a C pointer is
    an optional location ([None] is NULL).  Operations that would read or
    write outside an object, or through a dangling pointer, have no
    result ([None] of the option monad). *)

From Stdlib Require Import ZArith List Lia.
From stdpp Require Import base option list gmap strings.

Local Open Scope Z_scope.

(** * Cryptographic primitives (mbedtls)

    The cipher and the hash are called through crypto/mbedtls/arc4.h and
    crypto/mbedtls/sha1.h, which are not under src/; they are modelled
    here as ARC4 and SHA-1 and checked against published test vectors
    below. *)

Module Arc4.

(** The S-box is an array of 256 bytes; reads and writes by index. *)
Definition get (m : list Z) (i : Z) : Z := nth (Z.to_nat i) m 0.
Definition set (m : list Z) (i v : Z) : list Z := <[Z.to_nat i := v]> m.

Record mbedtls_arc4_context := mk_context { x : Z; y : Z; m : list Z }.

(** One round of the key schedule; the loop state is (m, j, k). *)
Definition setup_round (key : list Z) (keylen : Z)
    (st : list Z * Z * Z) (i : Z) : list Z * Z * Z :=
  let '(m, j, k) := st in
  let k := if Z.geb k keylen then 0 else k in
  let a := get m i in
  let j := Z.land (j + a + get key k) 255 in
  let m := set m i (get m j) in
  let m := set m j a in
  (m, j, k + 1).

(** Modelled from the spec: mbedtls_arc4_setup (crypto/mbedtls/arc4.h,
    not under src/), the key schedule of the stream cipher the codec
    calls; the standard ARC4 schedule. *)
Definition mbedtls_arc4_setup (key : list Z) (keylen : Z)
    : mbedtls_arc4_context :=
  let idx := map Z.of_nat (seq 0 256) in
  let '(m, _, _) := fold_left (setup_round key keylen) idx (idx, 0, 0) in
  {| x := 0; y := 0; m := m |}.

(** The byte loop of mbedtls_arc4_crypt: output[i] = input[i] ^ m[a+b]. *)
Fixpoint crypt_loop (x y : Z) (m : list Z) (input : list Z) : list Z :=
  match input with
  | [] => []
  | c :: rest =>
      let x := Z.land (x + 1) 255 in
      let a := get m x in
      let y := Z.land (y + a) 255 in
      let b := get m y in
      let m := set (set m x b) y a in
      Z.lxor c (get m (Z.land (a + b) 255)) :: crypt_loop x y m rest
  end.

(** Modelled from the spec: mbedtls_arc4_crypt (crypto/mbedtls/arc4.h,
    not under src/), the symmetric stream transform; the updated
    context is dropped because every caller uses a fresh local one. *)
Definition mbedtls_arc4_crypt (ctx : mbedtls_arc4_context)
    (input : list Z) : list Z :=
  crypt_loop (x ctx) (y ctx) (m ctx) input.

End Arc4.

Module Sha1.

Definition w32 (v : Z) : Z := v mod 2 ^ 32.
Definition rotl (n v : Z) : Z :=
  Z.lor (w32 (Z.shiftl v n)) (Z.shiftr v (32 - n)).

Definition be32 (v : Z) : list Z :=
  [Z.shiftr v 24 mod 256; Z.shiftr v 16 mod 256; Z.shiftr v 8 mod 256;
   v mod 256].
Definition be64 (v : Z) : list Z := be32 (Z.shiftr v 32) ++ be32 (w32 v).

Definition word_of (bs : list Z) : Z :=
  fold_left (fun acc b => acc * 256 + b) bs 0.

Fixpoint chunks {A} (size count : nat) (l : list A) : list (list A) :=
  match count with
  | O => []
  | S count => take size l :: chunks size count (drop size l)
  end.

Definition pad (msg : list Z) : list Z :=
  let len := length msg in
  msg ++ [128] ++ repeat 0 ((119 - len mod 64) mod 64)%nat
      ++ be64 (8 * Z.of_nat len).

Fixpoint expand (rounds : nat) (w : list Z) : list Z :=
  match rounds with
  | O => w
  | S rounds =>
      let t := length w in
      let at_ k := nth (t - k) w 0 in
      expand rounds
        (w ++ [rotl 1 (Z.lxor (Z.lxor (at_ 3%nat) (at_ 8%nat))
                              (Z.lxor (at_ 14%nat) (at_ 16%nat)))])
  end.

Definition state : Type := Z * Z * Z * Z * Z.

Definition round (st : state) (tw : nat * Z) : state :=
  let '(a, b, c, d, e) := st in
  let '(t, w) := tw in
  let '(f, k) :=
    if (t <? 20)%nat then
      (Z.lor (Z.land b c) (Z.land (Z.lxor b 0xFFFFFFFF) d), 0x5A827999)
    else if (t <? 40)%nat then
      (Z.lxor (Z.lxor b c) d, 0x6ED9EBA1)
    else if (t <? 60)%nat then
      (Z.lor (Z.lor (Z.land b c) (Z.land b d)) (Z.land c d), 0x8F1BBCDC)
    else
      (Z.lxor (Z.lxor b c) d, 0xCA62C1D6) in
  (w32 (rotl 5 a + f + e + k + w), a, rotl 30 b, c, d).

Definition process (st : state) (block : list Z) : state :=
  let w := expand 64 (map word_of (chunks 4 16 block)) in
  let '(a, b, c, d, e) := fold_left round (zip (seq 0 80) w) st in
  let '(h0, h1, h2, h3, h4) := st in
  (w32 (h0 + a), w32 (h1 + b), w32 (h2 + c), w32 (h3 + d), w32 (h4 + e)).

(** Modelled from the spec: the fixed-output hash
    (mbedtls_sha1_starts/update/finish, crypto/mbedtls/sha1.h, not under
    src/): SHA-1, 20 bytes of digest for any byte sequence. *)
Definition sha1 (msg : list Z) : list Z :=
  let padded := pad msg in
  let init : state :=
    (0x67452301, 0xEFCDAB89, 0x98BADCFE, 0x10325476, 0xC3D2E1F0) in
  let '(h0, h1, h2, h3, h4) :=
    fold_left process (chunks 64 (length padded / 64) padded) init in
  be32 h0 ++ be32 h1 ++ be32 h2 ++ be32 h3 ++ be32 h4.

End Sha1.

(** * Memory *)

Definition loc := positive.

(** A C pointer: [None] is NULL. *)
Definition ptr := option loc.
Definition NULL : ptr := None.

(** Crypto block associating with each sqlite Pager.  The pager is named
    by its index in the connection's database array. *)
Record CodecCryptBlock := mkBlock {
  pager : nat;
  pageSize : Z;
  readCtx : ptr;
  writeCtx : ptr;
  cryptBuffer : ptr
}.

Definition set_pager (v : nat) (b : CodecCryptBlock) :=
  mkBlock v (pageSize b) (readCtx b) (writeCtx b) (cryptBuffer b).
Definition set_pageSize (v : Z) (b : CodecCryptBlock) :=
  mkBlock (pager b) v (readCtx b) (writeCtx b) (cryptBuffer b).
Definition set_readCtx (v : ptr) (b : CodecCryptBlock) :=
  mkBlock (pager b) (pageSize b) v (writeCtx b) (cryptBuffer b).
Definition set_writeCtx (v : ptr) (b : CodecCryptBlock) :=
  mkBlock (pager b) (pageSize b) (readCtx b) v (cryptBuffer b).
Definition set_cryptBuffer (v : ptr) (b : CodecCryptBlock) :=
  mkBlock (pager b) (pageSize b) (readCtx b) (writeCtx b) v.

(** What a location holds: a cipher context (the 8 key bytes of the
    key/num union), a crypto block, or an array of bytes. *)
Inductive object :=
  | SQLiteCipherContext (key : list Z)
  | CryptBlock (b : CodecCryptBlock)
  | Bytes (data : list Z).

Definition KEYSIZE : Z := 8.

(** The [num] member of the union: the 8 key bytes read as one uint64_t. *)
Definition num (key : list Z) : Z :=
  fold_right (fun b acc => b + 256 * acc) 0 key.

(** Modelled from the spec: the Pager of the host engine (sqlite3.c, not
    under src/), reduced to what the codec touches: its page size and
    the codec argument registered with it. *)
Record Pager := mkPager { pager_pageSize : Z; pCodec : ptr }.

(** The heap, the connection's database array (db->aDb[i], one pager per
    database, index 0 the primary) and the outcomes of the coming
    sqlite3_malloc calls ([false]: the call returns NULL; when the list
    is used up every call succeeds). *)
Record State := mkState {
  heap : gmap loc object;
  aDb : list Pager;
  malloc_ok : list bool
}.

Definition set_heap (h : gmap loc object) (st : State) : State :=
  mkState h (aDb st) (malloc_ok st).
Definition set_aDb (d : list Pager) (st : State) : State :=
  mkState (heap st) d (malloc_ok st).

Definition load_ctx (h : gmap loc object) (p : ptr) : option (list Z) :=
  l ← p;
  match h !! l with Some (SQLiteCipherContext key) => Some key | _ => None end.

Definition load_block (h : gmap loc object) (p : ptr)
    : option CodecCryptBlock :=
  l ← p;
  match h !! l with Some (CryptBlock b) => Some b | _ => None end.

Definition store_block (h : gmap loc object) (l : loc) (b : CodecCryptBlock)
    : gmap loc object :=
  <[l := CryptBlock b]> h.

(** Read [n] bytes from the start of the array at [p]. *)
Definition load_bytes (h : gmap loc object) (p : ptr) (n : Z)
    : option (list Z) :=
  l ← p;
  match h !! l with
  | Some (Bytes data) =>
      if (0 <=? n) && (n <=? Z.of_nat (length data))
      then Some (take (Z.to_nat n) data) else None
  | _ => None
  end.

(** Write [bs] over the start of the array at [p]. *)
Definition store_bytes (h : gmap loc object) (p : ptr) (bs : list Z)
    : option (gmap loc object) :=
  l ← p;
  match h !! l with
  | Some (Bytes data) =>
      if (length bs <=? length data)%nat
      then Some (<[l := Bytes (bs ++ drop (length bs) data)]> h) else None
  | _ => None
  end.

(** Modelled from the spec: sqlite3_malloc(n) of the host engine
    (sqlite3.c, not under src/): NULL when n <= 0 or when memory is out,
    else a location not in use, here already holding [init] (the content
    of fresh memory is not determined; every caller but the one of the
    scratch array writes it at once). *)
Definition sqlite3_malloc (n : Z) (init : object) (st : State)
    : State * ptr :=
  if n <=? 0 then (st, NULL) else
  match malloc_ok st with
  | false :: rest => (mkState (heap st) (aDb st) rest, NULL)
  | ok =>
      let l := fresh (dom (heap st)) in
      (mkState (<[l := init]> (heap st)) (aDb st) (tail ok), Some l)
  end.

(** Modelled from the spec: sqlite3_free(p) of the host engine
    (sqlite3.c, not under src/): p is NULL or a live allocation. *)
Definition sqlite3_free (p : ptr) (h : gmap loc object)
    : option (gmap loc object) :=
  match p with
  | None => Some h
  | Some l => match h !! l with Some _ => Some (delete l h) | None => None end
  end.

Definition sizeof_SQLiteCipherContext : Z := 8.
Definition sizeof_CodecCryptBlock : Z := 40.

(** Modelled from the spec: the result codes of the host engine
    (sqlite3.h, not under src/). *)
Definition SQLITE_OK : Z := 0.
Definition SQLITE_ERROR : Z := 1.
Definition SQLITE_NOMEM : Z := 7.
Definition SQLITE_IOERR : Z := 10.

(** * Cipher contexts *)

(** Data encryption: nothing is read or written when [num] is zero. *)
Definition SQLiteEncrypt (ctx : ptr) (in_ out : ptr) (size : Z)
    (h : gmap loc object) : option (gmap loc object) :=
  key ← load_ctx h ctx;
  if num key =? 0 then Some h else
  let cryptCtx := Arc4.mbedtls_arc4_setup key KEYSIZE in
  input ← load_bytes h in_ size;
  store_bytes h out (Arc4.mbedtls_arc4_crypt cryptCtx input).

(** Data decryption *)
Definition SQLiteDecrypt (ctx : ptr) (in_ out : ptr) (size : Z)
    (h : gmap loc object) : option (gmap loc object) :=
  SQLiteEncrypt ctx in_ out size h.

(** Create new cipher context.  The passphrase is NULL or an array of
    bytes, of which [length] are hashed; the key is the first KEYSIZE
    bytes of the digest. *)
Definition CipherContextNew (passphrase : option (list Z)) (length : Z)
    (st : State) : option (State * ptr) :=
  if bool_decide (passphrase = None) || (length <=? 0) then Some (st, NULL)
  else
    let '(st, ctx) :=
      sqlite3_malloc sizeof_SQLiteCipherContext
        (SQLiteCipherContext (repeat 0 8)) st in
    match ctx with
    | None => Some (st, NULL)
    | Some l =>
        if negb (bool_decide (passphrase = None)) && (0 <? length) then
          bytes ← passphrase;
          if Z.of_nat (List.length bytes) <? length then None else
          let hash := Sha1.sha1 (take (Z.to_nat length) bytes) in
          Some (set_heap
                  (<[l := SQLiteCipherContext (take (Z.to_nat KEYSIZE) hash)]>
                     (heap st)) st, Some l)
        else
          Some (set_heap (<[l := SQLiteCipherContext (repeat 0 8)]> (heap st))
                  st, Some l)
    end.

(** Duplicate a cipher context *)
Definition CipherContextClone (org : ptr) (st : State)
    : option (State * ptr) :=
  let '(st, ctx) :=
    sqlite3_malloc sizeof_SQLiteCipherContext
      (SQLiteCipherContext (repeat 0 8)) st in
  match ctx with
  | None => Some (st, NULL)
  | Some l =>
      key ← load_ctx (heap st) org;
      Some (set_heap (<[l := SQLiteCipherContext key]> (heap st)) st, Some l)
  end.

(** * Crypto blocks *)

(** Create or update existing crypto block.  [newSize] is the pageSize
    argument; -1 asks for the pager's own page size.  The scratch array
    comes from sqlite3_malloc and is not written here: the zeros it
    holds stand for whatever the fresh memory holds. *)
Definition CreateCodeCryptBlock (ctx : ptr) (pager : nat) (newSize : Z)
    (existing : ptr) (st : State) : option (State * ptr) :=
  let '(st, block) :=
    match existing with
    | None =>
        sqlite3_malloc sizeof_CodecCryptBlock
          (CryptBlock (mkBlock pager 0 ctx ctx NULL)) st
    | Some _ => (st, existing)
    end in
  match block with
  | None => Some (st, NULL)
  | Some b =>
      newSize ← (if newSize =? -1
                 then pager_pageSize <$> aDb st !! pager
                 else Some newSize);
      blk ← load_block (heap st) block;
      let blk := set_pager pager blk in
      if negb (pageSize blk =? newSize) then
        let blk := set_pageSize newSize blk in
        h ← sqlite3_free (cryptBuffer blk) (heap st);
        let '(st, buf) :=
          sqlite3_malloc newSize (Bytes (repeat 0 (Z.to_nat newSize)))
            (set_heap (store_block h b blk) st) in
        let st :=
          set_heap (store_block (heap st) b (set_cryptBuffer buf blk)) st in
        match buf with
        | None => Some (st, NULL)
        | Some _ => Some (st, block)
        end
      else Some (set_heap (store_block (heap st) b blk) st, block)
  end.

(** Destroy the crypto block created with CreateCodeCryptBlock *)
Definition FreeCodecCryptBlock (block : ptr) (h : gmap loc object)
    : option (gmap loc object) :=
  blk ← load_block h block;
  h ← sqlite3_free (cryptBuffer blk) h;
  h ← sqlite3_free (readCtx blk) h;
  h ← (if bool_decide (writeCtx blk ≠ NULL ∧ writeCtx blk ≠ readCtx blk)
       then sqlite3_free (writeCtx blk) h else Some h);
  sqlite3_free block h.

(** Destroy crypto block callback *)
Definition SQLite3CodecFreeCallback (pv : ptr) (h : gmap loc object)
    : option (gmap loc object) :=
  FreeCodecCryptBlock pv h.

(** Page size changed callback *)
Definition SQLite3CodecSizeChangedCallback (pArg : ptr) (newSize : Z)
    (reservedSize : Z) (h : gmap loc object) : option (gmap loc object) :=
  l ← pArg;
  block ← load_block h pArg;
  if negb (pageSize block =? newSize)
  then Some (store_block h l (set_pageSize newSize block))
  else Some h.

(** * Page callback *)

(** Encrypting or decrypting a page callback: the heap afterwards and the
    returned pointer. *)
Definition SQLite3CodecCallback (pArg : ptr) (data : ptr) (nPageNum : Z)
    (nMode : Z) (h : gmap loc object) : option (gmap loc object * ptr) :=
  match pArg with
  | None => Some (h, data)
  | Some _ =>
      block ← load_block h pArg;
      let retVal := data in
      let pageSize := pageSize block in
      if (nMode =? 0) || (nMode =? 2) || (nMode =? 3) then
        match readCtx block with
        | None => Some (h, retVal)
        | Some _ =>
            h ← SQLiteDecrypt (readCtx block) data data pageSize h;
            Some (h, retVal)
        end
      else if nMode =? 6 then
        match writeCtx block with
        | None => Some (h, retVal)
        | Some _ =>
            h ← SQLiteEncrypt (writeCtx block) data (cryptBuffer block)
                  pageSize h;
            Some (h, cryptBuffer block)
        end
      else if nMode =? 7 then
        match readCtx block with
        | None => Some (h, retVal)
        | Some _ =>
            h ← SQLiteEncrypt (readCtx block) data (cryptBuffer block)
                  pageSize h;
            Some (h, cryptBuffer block)
        end
      else Some (h, retVal)
  end.

(** * Host pager *)

Definition sqlite3PagerGetCodec (pg : Pager) : ptr := pCodec pg.

(** Modelled from the spec: sqlite3PagerSetCodec of the host pager
    (sqlite3.c, not under src/).  It replaces the codec registered with a
    pager: the destructor callback of the codec being replaced runs
    first, then the new codec is told the current page size through its
    size-change callback.  The codec is registered with the three
    callbacks of this file, or removed with all four arguments NULL, so
    the registration is the codec argument alone. *)
Definition sqlite3PagerSetCodec (pager : nat) (pArg : ptr) (st : State)
    : option State :=
  pg ← aDb st !! pager;
  h ← (match pCodec pg with
       | Some _ => SQLite3CodecFreeCallback (pCodec pg) (heap st)
       | None => Some (heap st)
       end);
  h ← (match pArg with
       | Some _ => SQLite3CodecSizeChangedCallback pArg (pager_pageSize pg) 0 h
       | None => Some h
       end);
  Some (mkState h (<[pager := mkPager (pager_pageSize pg) pArg]> (aDb st))
          (malloc_ok st)).

(** Modelled from the spec: a page-size change in the host pager
    (sqlite3PagerSetPagesize of sqlite3.c, not under src/): the pager
    records the new size and notifies the registered codec through its
    size-change callback. *)
Definition sqlite3PagerSetPagesize (pager : nat) (newSize : Z) (st : State)
    : option State :=
  pg ← aDb st !! pager;
  h ← (match pCodec pg with
       | Some _ => SQLite3CodecSizeChangedCallback (pCodec pg) newSize 0 (heap st)
       | None => Some (heap st)
       end);
  Some (mkState h (<[pager := mkPager newSize (pCodec pg)]> (aDb st))
          (malloc_ok st)).

(** db->aDb[nDb]: the index of the pager, when nDb is in range. *)
Definition pager_index (nDb : Z) (st : State) : option nat :=
  if nDb <? 0 then None else
  _ ← aDb st !! Z.to_nat nDb; Some (Z.to_nat nDb).

(** * Attach *)

(** The tail of sqlite3CodecAttach: create a new encryption block and
    assign the codec to the database. *)
Definition attach_block (nDb : Z) (ctx : ptr) (st : State)
    : option (State * Z) :=
  match ctx with
  | None => Some (st, SQLITE_ERROR)
  | Some _ =>
      pager ← pager_index nDb st;
      '(st, block) ← CreateCodeCryptBlock ctx pager (-1) NULL st;
      match block with
      | None => Some (st, SQLITE_NOMEM)
      | Some _ =>
          st ← sqlite3PagerSetCodec pager block st;
          Some (st, SQLITE_OK)
      end
  end.

(** Called to attach a key to a database *)
Definition sqlite3CodecAttach (nDb : Z) (pKey : option (list Z))
    (nKeyLen : Z) (st : State) : option (State * Z) :=
  if bool_decide (pKey = None) || (nKeyLen =? 0) then
    if nDb =? 0 then Some (st, SQLITE_OK)
    else
      pg ← aDb st !! 0%nat;
      let pBlock := sqlite3PagerGetCodec pg in
      match pBlock with
      | None => Some (st, SQLITE_OK)
      | Some _ =>
          blk ← load_block (heap st) pBlock;
          match readCtx blk with
          | None => Some (st, SQLITE_OK)
          | Some _ =>
              '(st, ctx) ← CipherContextClone (readCtx blk) st;
              match ctx with
              | None => Some (st, SQLITE_NOMEM)
              | Some _ => attach_block nDb ctx st
              end
          end
      end
  else
    '(st, ctx) ← CipherContextNew pKey nKeyLen st;
    match ctx with
    | None => Some (st, SQLITE_NOMEM)
    | Some _ => attach_block nDb ctx st
    end.

(** Get the stored crypto key.  An out-parameter is NULL ([None]) or a
    cell with its current content; the result is the content of the two
    cells afterwards. *)
Definition sqlite3CodecGetKey (nDb : Z) (ppKey : option ptr)
    (pnKeyLen : option Z) (st : State) : option (option ptr * option Z) :=
  p ← aDb st !! 0%nat;
  let pBlock := sqlite3PagerGetCodec p in
  let ppKey := match ppKey with Some _ => Some NULL | None => None end in
  let pnKeyLen :=
    match pnKeyLen, pBlock with
    | Some _, Some _ => Some 1
    | _, _ => pnKeyLen
    end in
  Some (ppKey, pnKeyLen).

Definition sqlite3_key_v2 (pKey : option (list Z)) (nKey : Z) (st : State)
    : option (State * Z) :=
  sqlite3CodecAttach 0 pKey nKey st.

Definition sqlite3_key (pKey : option (list Z)) (nKey : Z) (st : State)
    : option (State * Z) :=
  sqlite3_key_v2 pKey nKey st.

(** * Rekey *)

(** Modelled from the spec: the transaction and page operations of the
    host engine that sqlite3_rekey_v2 calls (sqlite3BtreeBeginTrans,
    sqlite3PagerPagecount, PAGER_MJ_PGNO, sqlite3PagerGet,
    sqlite3PagerWrite, sqlite3BtreeCommit; sqlite3.c, not under src/),
    each given by the status code or number it returns.  What these
    operations do to memory is not part of the record: while a
    transaction reads and writes pages the pager runs the page callback
    on its pages and on the scratch array of the block (the step
    [step_page_callback] below), so that after a transaction the content
    of the byte arrays is not determined by the code of this file. *)
Record Host := mkHost {
  BtreeBeginTrans : Z;
  PagerPagecount : Z;
  PAGER_MJ_PGNO : Z;
  PagerGet : Z → Z;
  PagerWrite : Z → Z;
  BtreeCommit : Z
}.

(** The calls made to the host, in order. *)
Inductive Call :=
  | mutex_enter
  | begin_trans
  | pager_get (n : Z)
  | pager_write (n : Z)
  | pager_unref (n : Z)
  | btree_commit
  | btree_rollback
  | mutex_leave.

(** One iteration of the rewrite loop; the loop state is rc and the calls
    made so far. *)
Definition rewrite_page (host : Host) (nSkip : Z) (acc : Z * list Call)
    (n : Z) : Z * list Call :=
  let '(rc, calls) := acc in
  if n =? nSkip then (rc, calls) else
  let rc := PagerGet host n in
  if rc =? 0
  then (PagerWrite host n, calls ++ [pager_get n; pager_write n; pager_unref n])
  else (rc, calls ++ [pager_get n]).

(** for (n = 1; n <= nPage; n++): the page count is between 0 and the
    largest int. *)
Definition rewrite_pages (host : Host) (acc : Z * list Call)
    : Z * list Call :=
  let nPage := PagerPagecount host in
  let nSkip := PAGER_MJ_PGNO host in
  fold_left (rewrite_page host nSkip)
    (map Z.of_nat (seq 1 (Z.to_nat nPage))) acc.

(** The part of sqlite3_rekey_v2 from sqlite3_mutex_enter on: [b] is the
    crypto block of the primary database. *)
Definition rekey_rewrite (host : Host) (b : loc) (st : State)
    : option (State * Z * list Call) :=
  let rc := BtreeBeginTrans host in
  let calls := [mutex_enter; begin_trans] in
  let '(rc, calls) :=
    if rc =? SQLITE_OK then rewrite_pages host (rc, calls) else (rc, calls) in
  let '(rc, calls) :=
    if rc =? SQLITE_OK then (BtreeCommit host, calls ++ [btree_commit])
    else (rc, calls ++ [btree_rollback]) in
  blk ← load_block (heap st) (Some b);
  '(h, blk) ←
    (if rc =? SQLITE_OK then
       h ← sqlite3_free (readCtx blk) (heap st);
       Some (h, set_readCtx (writeCtx blk) blk)
     else
       h ← sqlite3_free (writeCtx blk) (heap st);
       Some (h, set_writeCtx (readCtx blk) blk));
  let st := set_heap (store_block h b blk) st in
  st ← (if bool_decide (readCtx blk = NULL ∧ writeCtx blk = NULL)
        then sqlite3PagerSetCodec 0 NULL st else Some st);
  Some (st, rc, calls ++ [mutex_leave]).

(** Change the key on an open database. *)
Definition sqlite3_rekey_v2 (host : Host) (pKey : option (list Z)) (nKey : Z)
    (st : State) : option (State * Z * list Call) :=
  p ← aDb st !! 0%nat;
  let block := sqlite3PagerGetCodec p in
  '(st, ctx) ← CipherContextNew pKey nKey st;
  match block with
  | None =>
      '(st, block) ← CreateCodeCryptBlock ctx 0 (-1) NULL st;
      match block with
      | None => Some (st, SQLITE_NOMEM, [])
      | Some b =>
          blk ← load_block (heap st) block;
          let st := set_heap (store_block (heap st) b (set_readCtx NULL blk)) st in
          st ← sqlite3PagerSetCodec 0 block st;
          rekey_rewrite host b st
      end
  | Some b =>
      blk ← load_block (heap st) block;
      let st := set_heap (store_block (heap st) b (set_writeCtx ctx blk)) st in
      rekey_rewrite host b st
  end.

Definition sqlite3_rekey (host : Host) (pKey : option (list Z)) (nKey : Z)
    (st : State) : option (State * Z * list Call) :=
  sqlite3_rekey_v2 host pKey nKey st.

(** * The C++ wrapper and the command line tool *)

(** What the wrapper and the tool write to std::cerr. *)
Inductive Diagnostic :=
  | error_string (rc : Z)
  | error_message
  | usage
  | failed_to_open
  | failed_to_decrypt
  | unknown_op (op : string).

(** passPhrase.data(): the bytes of a std::string. *)
Definition data (s : string) : list Z :=
  map (λ a, Z.of_N (Ascii.N_of_ascii a)) (String.list_ascii_of_string s).

(** A size_t passed where the C interface takes an int. *)
Definition to_int (n : Z) : Z :=
  let m := n mod 2 ^ 32 in if m <? 2 ^ 31 then m else m - 2 ^ 32.

Module SQLiteDatabase.

(** Assign a key to use with encrypted database (call right after
    open).  [dbConn] is the open connection. *)
Definition key (passPhrase : string) (dbConn : State)
    : option (State * Z * list Diagnostic) :=
  '(dbConn, rc) ←
    sqlite3_key (Some (data passPhrase))
      (to_int (Z.of_nat (String.length passPhrase))) dbConn;
  Some (dbConn, rc, if rc =? SQLITE_OK then [] else [error_string rc]).

(** Re-assign a key to a database *)
Definition rekey (host : Host) (passPhrase : string) (dbConn : State)
    : option (State * Z * list Call * list Diagnostic) :=
  '(dbConn, rc, calls) ←
    sqlite3_rekey host (Some (data passPhrase))
      (to_int (Z.of_nat (String.length passPhrase))) dbConn;
  Some (dbConn, rc, calls, if rc =? SQLITE_OK then [] else [error_message]).

End SQLiteDatabase.

(** The tool sqlitenc_cli.  Modelled from the spec: sqlite3_open of the
    host engine (sqlite3.c, not under src/) is taken to succeed and to
    give the connection [db]; main does not look at its status.  The
    result is the connection before it is closed, the exit code, the
    calls made on the host's pager and what was written to std::cerr. *)
Definition main (host : Host) (argv : list string) (db : State)
    : option (State * Z * list Call * list Diagnostic) :=
  if (length argv <? 4)%nat then Some (db, 1, [], [usage]) else
  let pwd := nth 2 argv ""%string in
  let op := nth 3 argv ""%string in
  if String.eqb op "enc" then
    '(db, error, calls, out) ← SQLiteDatabase.rekey host pwd db;
    Some (db, 0, calls, out)
  else if String.eqb op "dec" then
    '(db, error, out) ← SQLiteDatabase.key pwd db;
    if negb (error =? 0) then Some (db, 1, [], out ++ [failed_to_open]) else
    '(db, error, calls, out') ← SQLiteDatabase.rekey host ""%string db;
    if negb (error =? 0)
    then Some (db, 1, calls, out ++ out' ++ [failed_to_decrypt])
    else Some (db, 0, calls, out ++ out')
  else Some (db, 1, [], [unknown_op op]).

(** * Prepared statements of the wrapper *)

(** Modelled from the spec: result codes of the host engine (sqlite3.h,
    not under src/). *)
Definition SQLITE_NOTFOUND : Z := 12.
Definition SQLITE_MISUSE : Z := 21.
Definition SQLITE_ROW : Z := 100.
Definition SQLITE_DONE : Z := 101.

(** The first and the last member of the enum SQLiteDataType. *)
Definition TYPE_UNKNOWN : Z := 0.
Definition TYPE_NULL : Z := 5.

(** Modelled from the spec: a value of a result column, as the column
    functions of the host engine convert it; the text is NULL when it
    cannot be allocated. *)
Record Value := mkValue {
  value_type : Z;
  value_int : Z;
  value_text : option string
}.

(** Modelled from the spec: a prepared statement of the host engine
    (sqlite3_stmt of sqlite3.c, not under src/): the names of its result
    columns (NULL when a name cannot be allocated), the outcomes of the
    coming calls of sqlite3_step, each a status and the row it makes
    current, the current row, and the status of sqlite3_reset. *)
Record sqlite3_stmt := mk_stmt {
  column_names : list (option string);
  steps : list (Z * list Value);
  current : list Value;
  reset_status : Z
}.

(** Modelled from the spec: sqlite3_step of the host engine gives the
    next outcome and makes its row current; when none is left the call
    is a misuse. *)
Definition sqlite3_step (stmt : sqlite3_stmt) : Z * sqlite3_stmt :=
  match steps stmt with
  | [] =>
      (SQLITE_MISUSE,
       mk_stmt (column_names stmt) [] [] (reset_status stmt))
  | (rc, row) :: rest =>
      (rc, mk_stmt (column_names stmt) rest row (reset_status stmt))
  end.

(** Modelled from the spec: sqlite3_reset of the host engine leaves no
    current row. *)
Definition sqlite3_reset (stmt : sqlite3_stmt) : Z * sqlite3_stmt :=
  (reset_status stmt,
   mk_stmt (column_names stmt) (steps stmt) [] (reset_status stmt)).

(** Modelled from the spec: the column functions of the host engine.
    The count and the names belong to the statement, the values to the
    current row; a column that is not there reads as NULL, 0 and no
    text. *)
Definition sqlite3_column_count (stmt : sqlite3_stmt) : Z :=
  Z.of_nat (length (column_names stmt)).

Definition sqlite3_column_name (stmt : sqlite3_stmt) (i : Z)
    : option string :=
  if i <? 0 then None else mjoin (column_names stmt !! Z.to_nat i).

Definition column (stmt : sqlite3_stmt) (i : Z) : option Value :=
  if i <? 0 then None else current stmt !! Z.to_nat i.

Definition sqlite3_column_type (stmt : sqlite3_stmt) (i : Z) : Z :=
  match column stmt i with Some v => value_type v | None => TYPE_NULL end.

Definition sqlite3_column_int (stmt : sqlite3_stmt) (i : Z) : Z :=
  match column stmt i with Some v => value_int v | None => 0 end.

Definition sqlite3_column_text (stmt : sqlite3_stmt) (i : Z)
    : option string :=
  v ← column stmt i; value_text v.

Module SQLiteStatement.

Record t := mk {
  _stmt : sqlite3_stmt;
  _hasRow : bool;
  _columnCount : Z;
  _rowNameIndex : gmap string Z
}.

(** The constructor. *)
Definition new (stmt : sqlite3_stmt) : t := mk stmt false 0 ∅.

Definition _clearRowData (s : t) : t := mk (_stmt s) false 0 ∅.

(** Reset the execution result, NOT the binding data *)
Definition reset (s : t) : t * Z * list Diagnostic :=
  let s := _clearRowData s in
  let '(rc, stmt) := sqlite3_reset (_stmt s) in
  (mk stmt (_hasRow s) (_columnCount s) (_rowNameIndex s), rc,
   if rc =? SQLITE_OK then [] else [error_string rc]).

(** The loop of execute over the columns. *)
Definition index_column (stmt : sqlite3_stmt) (index : gmap string Z)
    (i : Z) : gmap string Z :=
  match sqlite3_column_name stmt i with
  | Some name => <[name := i]> index
  | None => index
  end.

(** Execute the statement *)
Definition execute (s : t) : t * bool * list Diagnostic :=
  let s := mk (_stmt s) false 0 (_rowNameIndex s) in
  let '(rc, stmt) := sqlite3_step (_stmt s) in
  let s := mk stmt (_hasRow s) (_columnCount s) (_rowNameIndex s) in
  if rc =? SQLITE_DONE then
    let '(s, _, out) := reset s in (s, true, out)
  else if rc =? SQLITE_ROW then
    let n := sqlite3_column_count stmt in
    let index :=
      fold_left (index_column stmt) (map Z.of_nat (seq 0 (Z.to_nat n)))
        (_rowNameIndex s) in
    (mk stmt true n index, true, [])
  else
    let '(s, _, out) := reset s in (s, false, error_string rc :: out).

(** Indicate whether there currently is a result row *)
Definition hasRow (s : t) : bool := _hasRow s.

(** Iterate to next result row (then check with hasRow) *)
Definition next (s : t) : t * list Diagnostic :=
  let '(rc, stmt) := sqlite3_step (_stmt s) in
  let s := mk stmt (_hasRow s) (_columnCount s) (_rowNameIndex s) in
  if rc =? SQLITE_DONE then
    let s := mk stmt false (_columnCount s) (_rowNameIndex s) in
    let '(s, _, out) := reset s in (s, out)
  else if rc =? SQLITE_ROW then
    (mk stmt true (sqlite3_column_count stmt) (_rowNameIndex s), [])
  else
    let '(s, _, out) := reset s in (s, error_string rc :: out).

Definition getColumnType (s : t) (zeroBasedColIndex : Z) : Z :=
  if _hasRow s then TYPE_UNKNOWN else
  let dataType := sqlite3_column_type (_stmt s) zeroBasedColIndex in
  if (dataType <? 0) || (TYPE_NULL <? dataType) then 0 else dataType.

(** The getters give the status and the content of [_return]
    afterwards. *)
Definition getInt (s : t) (_return : Z) (zeroBasedColIndex : Z) : Z * Z :=
  if negb (_hasRow s) || (zeroBasedColIndex <? 0)
     || (_columnCount s <=? zeroBasedColIndex)
  then (SQLITE_MISUSE, _return)
  else (SQLITE_OK, sqlite3_column_int (_stmt s) zeroBasedColIndex).

Definition getInt_named (s : t) (_return : Z) (colName : string) : Z * Z :=
  match _rowNameIndex s !! colName with
  | Some i => getInt s _return i
  | None => (SQLITE_NOTFOUND, _return)
  end.

(** getInt64 takes [_return] by value: the caller gets the status
    alone. *)
Definition getInt64 (s : t) (_return : Z) (zeroBasedColIndex : Z) : Z :=
  if negb (_hasRow s) || (zeroBasedColIndex <? 0)
     || (_columnCount s <=? zeroBasedColIndex)
  then SQLITE_MISUSE
  else SQLITE_OK.

Definition getInt64_named (s : t) (_return : Z) (colName : string) : Z :=
  match _rowNameIndex s !! colName with
  | Some i => getInt64 s _return i
  | None => SQLITE_NOTFOUND
  end.

Definition getString (s : t) (_return : string) (zeroBasedColIndex : Z)
    : Z * string :=
  if negb (_hasRow s) || (zeroBasedColIndex <? 0)
     || (_columnCount s <=? zeroBasedColIndex)
  then (SQLITE_MISUSE, ""%string)
  else
    match sqlite3_column_text (_stmt s) zeroBasedColIndex with
    | Some text => (SQLITE_OK, text)
    | None => (SQLITE_ERROR, ""%string)
    end.

Definition getString_named (s : t) (_return : string) (colName : string)
    : Z * string :=
  match _rowNameIndex s !! colName with
  | Some i => getString s _return i
  | None => (SQLITE_NOTFOUND, _return)
  end.

(** What a caller can do with a statement. *)
Inductive step : t → t → Prop :=
  | step_reset s : step s (reset s).1.1
  | step_execute s : step s (execute s).1.1
  | step_next s : step s (next s).1.

Inductive reachable : t → Prop :=
  | reachable_new stmt : reachable (new stmt)
  | reachable_step s s' : reachable s → step s s' → reachable s'.

End SQLiteStatement.

(** * Auxiliary definitions for the statements *)

(** The cipher of a context with key bytes [key], applied to [input]. *)
Definition arc4 (key : list Z) (input : list Z) : list Z :=
  Arc4.mbedtls_arc4_crypt (Arc4.mbedtls_arc4_setup key KEYSIZE) input.

(** An output array [old] after the cipher wrote over its first [n]
    bytes from the array [input]. *)
Definition ciphered (key : list Z) (n : Z) (input old : list Z) : list Z :=
  arc4 key (take (Z.to_nat n) input) ++ drop (Z.to_nat n) old.

(** The context whose key a page callback with an encrypting purpose
    uses: the write key for the main file (6), the read key for the
    journal (7). *)
Definition applicable_key (nMode : Z) (blk : CodecCryptBlock) : ptr :=
  if nMode =? 6 then writeCtx blk else readCtx blk.

Definition is_context (h : gmap loc object) (p : ptr) : Prop :=
  ∀ c, p = Some c → ∃ key, h !! c = Some (SQLiteCipherContext key).

(** The next [k] calls of sqlite3_malloc do not run out of memory. *)
Definition malloc_succeeds (k : nat) (st : State) : Prop :=
  Forall (λ ok, ok = true) (take k (malloc_ok st)).

(** The key that CipherContextNew derives from the first [length] bytes
    of a passphrase. *)
Definition derived_key (bytes : list Z) (length : Z) : list Z :=
  take (Z.to_nat KEYSIZE) (Sha1.sha1 (take (Z.to_nat length) bytes)).

(** The pages the rewrite loop of rekey visits: 1 to the page count,
    without the skipped page. *)
Definition visited_pages (host : Host) : list Z :=
  filter (λ n, n ≠ PAGER_MJ_PGNO host)
    (map Z.of_nat (seq 1 (Z.to_nat (PagerPagecount host)))).

(** What one visit leaves in rc, and the calls it makes. *)
Definition page_status (host : Host) (n : Z) : Z :=
  if PagerGet host n =? 0 then PagerWrite host n else PagerGet host n.

Definition page_calls (host : Host) (n : Z) : list Call :=
  if PagerGet host n =? 0
  then [pager_get n; pager_write n; pager_unref n]
  else [pager_get n].

(** The status after the loop: that of the last page visited. *)
Definition loop_status (host : Host) : Z :=
  match last (visited_pages host) with
  | Some n => page_status host n
  | None => SQLITE_OK
  end.

(** The status and the calls of rekey_rewrite up to the commit or the
    rollback; they depend on the host alone. *)
Definition rekey_transaction (host : Host) : Z * list Call :=
  let rc := BtreeBeginTrans host in
  let calls := [mutex_enter; begin_trans] in
  let '(rc, calls) :=
    if rc =? SQLITE_OK then rewrite_pages host (rc, calls) else (rc, calls) in
  if rc =? SQLITE_OK then (BtreeCommit host, calls ++ [btree_commit])
  else (rc, calls ++ [btree_rollback]).

(** sqlite3_free of a pointer that is NULL or live. *)
Definition free_at (p : ptr) (h : gmap loc object) : gmap loc object :=
  match p with Some l => delete l h | None => h end.

(** [h'] is [h], or [h] with the array at [p] rewritten: the array keeps
    its length and its bytes from index [n] on. *)
Definition rewritten (p : ptr) (n : Z) (h h' : gmap loc object) : Prop :=
  h' = h ∨
  ∃ l old new,
    p = Some l ∧ h !! l = Some (Bytes old) ∧ h' = <[l := Bytes new]> h ∧
    length new = length old ∧
    drop (Z.to_nat n) new = drop (Z.to_nat n) old.

(** The state of a statement between the calls of its methods: without
    a row the row data is cleared; with a row the column count is the
    statement's; every index recorded for a name is a column of the
    statement. *)
Definition statement_ok (s : SQLiteStatement.t) : Prop :=
  (SQLiteStatement._hasRow s = false →
   SQLiteStatement._columnCount s = 0 ∧
   SQLiteStatement._rowNameIndex s = ∅) ∧
  (SQLiteStatement._hasRow s = true →
   SQLiteStatement._columnCount s =
   sqlite3_column_count (SQLiteStatement._stmt s)) ∧
  (∀ name i, SQLiteStatement._rowNameIndex s !! name = Some i →
     0 ≤ i < sqlite3_column_count (SQLiteStatement._stmt s)).

(** * Ownership and the state at rest *)

Definition ptr_set (p : ptr) : gset loc :=
  match p with Some l => {[ l ]} | None => ∅ end.

(** The locations a crypto block at [b] owns: itself, its key contexts
    and its scratch array. *)
Definition footprint (b : loc) (blk : CodecCryptBlock) : gset loc :=
  {[ b ]} ∪ ptr_set (readCtx blk) ∪ ptr_set (writeCtx blk)
          ∪ ptr_set (cryptBuffer blk).

Definition is_buffer (h : gmap loc object) (p : ptr) : Prop :=
  ∀ s, p = Some s → ∃ data, h !! s = Some (Bytes data).

(** The pointers of a block are NULL or live objects of the right kind. *)
Definition block_ok (h : gmap loc object) (blk : CodecCryptBlock) : Prop :=
  is_context h (readCtx blk) ∧ is_context h (writeCtx blk) ∧
  is_buffer h (cryptBuffer blk).

(** The codec registered with the pager of database [i]. *)
Definition codec_of (st : State) (i : nat) : ptr :=
  pg ← aDb st !! i; pCodec pg.

Definition registered (st : State) (i : nat) (b : loc)
    (blk : CodecCryptBlock) : Prop :=
  codec_of st i = Some b ∧ heap st !! b = Some (CryptBlock blk).

(** Every registered codec is a live crypto block with live pointers, and
    the blocks of different databases own disjoint locations. *)
Definition owned (st : State) : Prop :=
  (∀ i b, codec_of st i = Some b →
     ∃ blk, heap st !! b = Some (CryptBlock blk) ∧ block_ok (heap st) blk) ∧
  (∀ i j bi bj blki blkj, i ≠ j →
     registered st i bi blki → registered st j bj blkj →
     footprint bi blki ## footprint bj blkj).

(** Read key and write key of every registered block are the same
    pointer, except possibly for the block of database [i]. *)
Definition same_keys_except (skip : option nat) (st : State) : Prop :=
  ∀ i b blk, registered st i b blk → skip ≠ Some i →
    readCtx blk = writeCtx blk.

(** The invariant of the connection between calls. *)
Definition wf (st : State) : Prop :=
  (0 < length (aDb st))%nat ∧ owned st ∧ same_keys_except None st.

(** The property of C4: the read key and the write key of every
    registered crypto block are both absent, or both present with the
    same key bytes. *)
Definition keys_agree (st : State) : Prop :=
  ∀ i b, codec_of st i = Some b →
    ∃ blk, heap st !! b = Some (CryptBlock blk) ∧
      ((readCtx blk = NULL ∧ writeCtx blk = NULL) ∨
       (∃ key, load_ctx (heap st) (readCtx blk) = Some key ∧
               load_ctx (heap st) (writeCtx blk) = Some key)).

(** The locations owned by the codec registered for database [i]. *)
Definition footprint_of (st : State) (i : nat) : gset loc :=
  match codec_of st i with
  | Some b =>
      match heap st !! b with
      | Some (CryptBlock blk) => footprint b blk
      | _ => ∅
      end
  | None => ∅
  end.

(** An object is kept, up to the content of a byte array. *)
Definition preserved (o o' : object) : Prop :=
  match o with Bytes _ => ∃ data, o' = Bytes data | _ => o' = o end.

(** Outside [F], what was live in [h] is kept in [h']. *)
Definition frame (F : gset loc) (h h' : gmap loc object) : Prop :=
  ∀ l o, l ∉ F → h !! l = Some o → ∃ o', h' !! l = Some o' ∧ preserved o o'.

(** An object is kept up to the content of a byte array, which keeps
    its length. *)
Definition same_shape (o o' : object) : Prop :=
  match o with
  | Bytes data => ∃ data', o' = Bytes data' ∧ length data' = length data
  | _ => o' = o
  end.

(** Outside [F], memory [h'] is memory [h] up to the content of the byte
    arrays: the same locations are in use, the crypto blocks and the key
    contexts are the same, and every byte array has the length it had.
    What the arrays hold is left open. *)
Definition same_up_to_bytes (F : gset loc) (h h' : gmap loc object) : Prop :=
  ∀ l, l ∉ F →
    match h !! l with
    | Some o => ∃ o', h' !! l = Some o' ∧ same_shape o o'
    | None => h' !! l = None
    end.

(** A key argument is NULL or an array of at least [n] bytes. *)
Definition readable (pKey : option (list Z)) (n : Z) : Prop :=
  ∀ bytes, pKey = Some bytes → n ≤ Z.of_nat (length bytes).

(** What the connection can do between observations: attach and rekey
    with a database index in range and a readable key, a page-size
    change, a page callback, and the host allocating a page or opening
    another database. *)
Inductive step : State → State → Prop :=
  | step_attach st nDb pKey nKeyLen st' rc :
      0 ≤ nDb < Z.of_nat (length (aDb st)) → readable pKey nKeyLen →
      sqlite3CodecAttach nDb pKey nKeyLen st = Some (st', rc) → step st st'
  | step_rekey st host pKey nKey st' rc calls :
      readable pKey nKey →
      sqlite3_rekey_v2 host pKey nKey st = Some (st', rc, calls) →
      step st st'
  | step_page_size st i newSize st' :
      sqlite3PagerSetPagesize i newSize st = Some st' → step st st'
  | step_page_callback st i pg data nPageNum nMode h' ret :
      aDb st !! i = Some pg →
      SQLite3CodecCallback (pCodec pg) data nPageNum nMode (heap st)
        = Some (h', ret) →
      step st (set_heap h' st)
  | step_host_page st l data :
      heap st !! l = None →
      step st (set_heap (<[l := Bytes data]> (heap st)) st)
  | step_host_database st size :
      step st (set_aDb (aDb st ++ [mkPager size NULL]) st).

(** The states of a connection: opened without any codec, then stepped. *)
Inductive reachable : State → Prop :=
  | reachable_open st :
      (0 < length (aDb st))%nat → (∀ i, codec_of st i = NULL) → reachable st
  | reachable_step st st' : reachable st → step st st' → reachable st'.

(** * Example states *)

(** "secret" *)
Definition secret : list Z := [115; 101; 99; 114; 101; 116].

(** A connection with a primary and one attached database, pages of 1024
    bytes, no codec, and one page of the host in memory at 1. *)
Definition fresh_connection : State :=
  mkState {[ 1%positive := Bytes (repeat 7 1024) ]}
    [mkPager 1024 NULL; mkPager 1024 NULL] [].

(** The connection after sqlite3_key with the passphrase "secret". *)
Definition keyed_connection : State :=
  match sqlite3_key (Some secret) 6 fresh_connection with
  | Some (st, _) => st
  | None => fresh_connection
  end.

(** "newkey" *)
Definition newkey : list Z := [110; 101; 119; 107; 101; 121].

(** In the keyed connection the host's page is at 1, the key context at
    2, the crypto block at 3 and its scratch array at 4. *)
Definition page_loc : loc := 1%positive.
Definition key_loc : loc := 2%positive.
Definition block_loc : loc := 3%positive.
Definition scratch_loc : loc := 4%positive.
Definition newkey_loc : loc := 5%positive.
Definition host_page : list Z := repeat 7 1024.
Definition scratch_before : list Z := repeat 0 1024.

(** The memory of the keyed connection in the middle of a rekey: the
    block still reads with the key of "secret" and writes with [wr],
    the context of "newkey" at 5 or NULL when the rekey removes the
    encryption. *)
Definition rekeying_heap (wr : ptr) : gmap loc object :=
  <[block_loc := CryptBlock (mkBlock 0 1024 (Some key_loc) wr
                               (Some scratch_loc))]>
    (<[newkey_loc := SQLiteCipherContext (derived_key newkey 6)]>
       (heap keyed_connection)).

(** The memory of the keyed connection with the eight key bytes set to
    zero. *)
Definition zero_key_heap : gmap loc object :=
  <[key_loc := SQLiteCipherContext (repeat 0 8)]> (heap keyed_connection).

(** The memory of the keyed connection in the middle of a rekey to
    "newkey", with the eight bytes of the read key set to zero. *)
Definition zero_read_key_heap : gmap loc object :=
  <[key_loc := SQLiteCipherContext (repeat 0 8)]>
    (rekeying_heap (Some newkey_loc)).

(** A host whose database has two pages, where reading page 1 fails with
    an I/O error and everything else succeeds. *)
Definition page1_unreadable : Host :=
  mkHost SQLITE_OK 2 1048577
    (λ n, if n =? 1 then SQLITE_IOERR else SQLITE_OK) (λ _, SQLITE_OK)
    SQLITE_OK.

(** A connection whose primary database has pages of 512 bytes, keyed
    with "secret"; the host holds one page of 1024 bytes at 1. *)
Definition connection_512 : State :=
  match sqlite3_key (Some secret) 6
          (mkState {[ 1%positive := Bytes (repeat 7 1024) ]}
             [mkPager 512 NULL] []) with
  | Some (st, _) => st
  | None => mkState ∅ [] []
  end.

(** A host on which every operation succeeds, with three pages. *)
Definition willing_host : Host :=
  mkHost SQLITE_OK 3 1048577 (λ _, SQLITE_OK) (λ _, SQLITE_OK) SQLITE_OK.

(** A host on which every operation succeeds but the commit, which
    fails with an I/O error. *)
Definition commit_fails : Host :=
  mkHost SQLITE_OK 3 1048577 (λ _, SQLITE_OK) (λ _, SQLITE_OK) SQLITE_IOERR.

(** The keyed connection when the next allocation fails. *)
Definition exhausted_connection : State :=
  mkState (heap keyed_connection) (aDb keyed_connection) [false].

(** The fresh connection when the second allocation to come fails. *)
Definition low_memory_connection : State :=
  mkState (heap fresh_connection) (aDb fresh_connection) [true; false].

(** The crypto block of the keyed connection. *)
Definition keyed_block : CodecCryptBlock :=
  mkBlock 0 1024 (Some key_loc) (Some key_loc) (Some scratch_loc).

(** Command lines of the tool. *)
Definition enc_args : list string :=
  ["sqlitenc_cli"; "test.db"; "newkey"; "enc"]%string.
Definition dec_args : list string :=
  ["sqlitenc_cli"; "test.db"; "secret"; "dec"]%string.

(** A statement with three columns, two of them named "id", whose first
    step gives a row and whose second step ends the result. *)
Definition two_ids : sqlite3_stmt :=
  mk_stmt [Some "id"; Some "name"; Some "id"]%string
    [(SQLITE_ROW,
      [mkValue 1 7 (Some "7"); mkValue 3 0 (Some "seven");
       mkValue 1 8 (Some "8")]%string);
     (SQLITE_DONE, [])]
    [] SQLITE_OK.

(** The statement [two_ids] executed, with its row, and then stepped to
    the end of the result. *)
Definition executed_two_ids : SQLiteStatement.t :=
  (SQLiteStatement.execute (SQLiteStatement.new two_ids)).1.1.
Definition stepped_two_ids : SQLiteStatement.t :=
  (SQLiteStatement.next executed_two_ids).1.

(** * Properties of the primitives *)

Lemma crypt_loop_length x y m input :
  length (Arc4.crypt_loop x y m input) = length input.
Proof.
  revert x y m. induction input as [|c rest IH]; intros x y m; simpl.
  - reflexivity.
  - f_equal. apply IH.
Qed.

(** The key stream does not depend on the data, so the byte loop undoes
    itself when it is started from the same context. *)
Lemma crypt_loop_involutive x y m input :
  Arc4.crypt_loop x y m (Arc4.crypt_loop x y m input) = input.
Proof.
  revert x y m. induction input as [|c rest IH]; intros x y m; simpl.
  - reflexivity.
  - rewrite IH. f_equal.
    rewrite Z.lxor_assoc, Z.lxor_nilpotent. apply Z.lxor_0_r.
Qed.

Lemma mbedtls_arc4_crypt_involutive ctx input :
  Arc4.mbedtls_arc4_crypt ctx (Arc4.mbedtls_arc4_crypt ctx input) = input.
Proof. apply crypt_loop_involutive. Qed.

Lemma mbedtls_arc4_crypt_length ctx input :
  length (Arc4.mbedtls_arc4_crypt ctx input) = length input.
Proof. apply crypt_loop_length. Qed.

Lemma sha1_length msg : length (Sha1.sha1 msg) = 20%nat.
Proof.
  unfold Sha1.sha1.
  destruct (fold_left _ _ _) as [[[[h0 h1] h2] h3] h4]. reflexivity.
Qed.

(** Known answers: SHA-1 of "abc", and ARC4 under the 8-byte zero key and
    under 01 23 45 67 89 ab cd ef. *)
Example sha1_abc :
  Sha1.sha1 [97; 98; 99] =
  [0xa9; 0x99; 0x3e; 0x36; 0x47; 0x06; 0x81; 0x6a; 0xba; 0x3e;
   0x25; 0x71; 0x78; 0x50; 0xc2; 0x6c; 0x9c; 0xd0; 0xd8; 0x9d].
Proof. vm_compute. reflexivity. Qed.

Example sha1_empty :
  Sha1.sha1 [] =
  [0xda; 0x39; 0xa3; 0xee; 0x5e; 0x6b; 0x4b; 0x0d; 0x32; 0x55;
   0xbf; 0xef; 0x95; 0x60; 0x18; 0x90; 0xaf; 0xd8; 0x07; 0x09].
Proof. vm_compute. reflexivity. Qed.

(** A message of 56 bytes, padded to two blocks:
    "abcdbcdecdefdefgefghfghighijhijkijkljklmklmnlmnomnopnopq". *)
Example sha1_two_blocks :
  Sha1.sha1
    (flat_map (λ i, map (λ j, 97 + Z.of_nat (i + j)) (seq 0 4)) (seq 0 14)) =
  [0x84; 0x98; 0x3e; 0x44; 0x1c; 0x3b; 0xd2; 0x6e; 0xba; 0xae;
   0x4a; 0xa1; 0xf9; 0x51; 0x29; 0xe5; 0xe5; 0x46; 0x70; 0xf1].
Proof. vm_compute. reflexivity. Qed.

Example arc4_zero_key :
  Arc4.mbedtls_arc4_crypt (Arc4.mbedtls_arc4_setup (repeat 0 8) 8)
    (repeat 0 8) = [0xde; 0x18; 0x89; 0x41; 0xa3; 0x37; 0x5d; 0x3a].
Proof. vm_compute. reflexivity. Qed.

Example arc4_0123 :
  let key := [0x01; 0x23; 0x45; 0x67; 0x89; 0xab; 0xcd; 0xef] in
  Arc4.mbedtls_arc4_crypt (Arc4.mbedtls_arc4_setup key 8) key =
  [0x75; 0xb7; 0x87; 0x80; 0x99; 0xe0; 0xc5; 0x96].
Proof. vm_compute. reflexivity. Qed.

(** [num] is zero exactly when every key byte is zero. *)
Lemma num_zero_iff key :
  Forall (λ b, 0 ≤ b < 256) key → num key = 0 ↔ Forall (λ b, b = 0) key.
Proof.
  induction 1 as [|b key Hb Hkey IH]; simpl.
  - split; [constructor | reflexivity].
  - assert (0 ≤ num key).
    { clear IH. induction Hkey as [|b' key' Hb' _ IH']; simpl; lia. }
    split.
    + intros Hz. assert (b = 0) by lia. assert (num key = 0) by lia.
      constructor; [assumption | apply IH; assumption].
    + intros Hall. inversion Hall as [|? ? Hb0 Hrest]; subst.
      apply IH in Hrest. fold (num key). lia.
Qed.

(** * Heap access *)

Lemma load_bytes_Some h l data n :
  h !! l = Some (Bytes data) → 0 ≤ n ≤ Z.of_nat (length data) →
  load_bytes h (Some l) n = Some (take (Z.to_nat n) data).
Proof.
  intros Hl Hn. unfold load_bytes. simpl. rewrite Hl.
  destruct (0 <=? n) eqn:E1; [|lia].
  destruct (n <=? Z.of_nat (length data)) eqn:E2; [|lia].
  reflexivity.
Qed.

Lemma store_bytes_Some h l data bs :
  h !! l = Some (Bytes data) → (length bs ≤ length data)%nat →
  store_bytes h (Some l) bs =
  Some (<[l := Bytes (bs ++ drop (length bs) data)]> h).
Proof.
  intros Hl Hn. unfold store_bytes. simpl. rewrite Hl.
  destruct (length bs <=? length data)%nat eqn:E; [reflexivity|].
  apply Nat.leb_gt in E. lia.
Qed.

Lemma arc4_length key input : length (arc4 key input) = length input.
Proof. apply mbedtls_arc4_crypt_length. Qed.

Lemma arc4_involutive key input : arc4 key (arc4 key input) = input.
Proof. apply mbedtls_arc4_crypt_involutive. Qed.

Lemma load_ctx_Some h c key :
  h !! c = Some (SQLiteCipherContext key) → load_ctx h (Some c) = Some key.
Proof. intros Hc. unfold load_ctx. cbn. rewrite Hc. reflexivity. Qed.

Lemma load_block_Some h b blk :
  h !! b = Some (CryptBlock blk) → load_block h (Some b) = Some blk.
Proof. intros Hb. unfold load_block. cbn. rewrite Hb. reflexivity. Qed.

Lemma SQLiteEncrypt_zero h c key in_ out n :
  h !! c = Some (SQLiteCipherContext key) → num key = 0 →
  SQLiteEncrypt (Some c) in_ out n h = Some h.
Proof.
  intros Hc Hz. unfold SQLiteEncrypt.
  rewrite (load_ctx_Some h c key Hc). cbn [mbind option_bind].
  rewrite Hz. reflexivity.
Qed.

Lemma SQLiteEncrypt_nonzero h c key d page s old n :
  h !! c = Some (SQLiteCipherContext key) → num key ≠ 0 →
  h !! d = Some (Bytes page) → h !! s = Some (Bytes old) →
  0 ≤ n ≤ Z.of_nat (length page) → n ≤ Z.of_nat (length old) →
  SQLiteEncrypt (Some c) (Some d) (Some s) n h =
  Some (<[s := Bytes (ciphered key n page old)]> h).
Proof.
  intros Hc Hnz Hd Hs Hn Hn'. unfold SQLiteEncrypt.
  rewrite (load_ctx_Some h c key Hc). cbn [mbind option_bind].
  destruct (num key =? 0) eqn:E; [lia|].
  rewrite (load_bytes_Some h d page n Hd Hn). cbn [mbind option_bind].
  assert (Hlen : length (take (Z.to_nat n) page) = Z.to_nat n).
  { rewrite length_take. lia. }
  rewrite (store_bytes_Some _ s old); [| assumption |].
  - unfold ciphered, arc4. rewrite mbedtls_arc4_crypt_length, Hlen.
    reflexivity.
  - rewrite mbedtls_arc4_crypt_length, Hlen. lia.
Qed.

(** * The page callback *)

Lemma callback_decrypt h b blk data n nMode :
  h !! b = Some (CryptBlock blk) → nMode = 0 ∨ nMode = 2 ∨ nMode = 3 →
  SQLite3CodecCallback (Some b) data n nMode h =
  match readCtx blk with
  | None => Some (h, data)
  | Some _ =>
      h ← SQLiteDecrypt (readCtx blk) data data (pageSize blk) h;
      Some (h, data)
  end.
Proof.
  intros Hb Hm. unfold SQLite3CodecCallback.
  rewrite (load_block_Some h b blk Hb). cbn [mbind option_bind].
  destruct Hm as [-> | [-> | ->]]; reflexivity.
Qed.

Lemma callback_encrypt h b blk data n nMode :
  h !! b = Some (CryptBlock blk) → nMode = 6 ∨ nMode = 7 →
  SQLite3CodecCallback (Some b) data n nMode h =
  match applicable_key nMode blk with
  | None => Some (h, data)
  | Some _ =>
      h ← SQLiteEncrypt (applicable_key nMode blk) data (cryptBuffer blk)
            (pageSize blk) h;
      Some (h, cryptBuffer blk)
  end.
Proof.
  intros Hb Hm. unfold SQLite3CodecCallback.
  rewrite (load_block_Some h b blk Hb). cbn [mbind option_bind].
  destruct Hm as [-> | ->]; reflexivity.
Qed.



(** * A key of zero bytes *)

(** A context made by CipherContextNew holds the start of the digest of
    the passphrase: the branch that stores zero in [num] is never
    taken. *)
Lemma CipherContextNew_key pKey n st st' l :
  CipherContextNew pKey n st = Some (st', Some l) →
  ∃ bytes, pKey = Some bytes ∧ 0 < n ∧
    heap st' !! l = Some (SQLiteCipherContext (derived_key bytes n)).
Proof.
  unfold CipherContextNew. destruct pKey as [bytes|]; [|discriminate].
  rewrite bool_decide_eq_false_2 by discriminate. cbn [orb negb andb].
  destruct (n <=? 0) eqn:E; [discriminate|]. apply Z.leb_gt in E.
  destruct (sqlite3_malloc _ _ st) as [st1 [c|]]; [|discriminate].
  destruct (0 <? n) eqn:E0; [|apply Z.ltb_ge in E0; lia].
  cbn [mbind option_bind].
  destruct (Z.of_nat (length bytes) <? n); [discriminate|].
  intros [= <- <-]. exists bytes. split; [reflexivity|]. split; [assumption|].
  unfold set_heap. cbn [heap]. apply lookup_insert_eq.
Qed.

(** C2 fails on the code: a cipher context that is present but whose
    eight key bytes are zero is taken for no key.  Memory is that of the
    connection keyed with "secret", with the key bytes set to zero; the
    page holds 07 07 07 07 ..., the scratch array 00 00 00 00 ..., and
    ARC4 under the zero key turns the page into d9 1f 8e 46 ...
    SQLiteEncrypt and SQLiteDecrypt, in place or into the scratch array,
    leave memory as it is.  The page callback then reads the page as it
    is (mode 3) but, for a write to the main file (mode 6), returns the
    scratch array, which holds neither the page nor its cipher text,
    while with no write key at all it returns the page itself.  No
    context made by CipherContextNew holds anything but the start of a
    digest: zero bytes are never written to mark the absence of a key. *)
Theorem zero_key_context_is_not_applied :
  load_ctx zero_key_heap (Some key_loc) = Some (repeat 0 8) ∧
  zero_key_heap !! block_loc = Some (CryptBlock keyed_block) ∧
  zero_key_heap !! page_loc = Some (Bytes host_page) ∧
  zero_key_heap !! scratch_loc = Some (Bytes scratch_before) ∧
  take 4 host_page = [7; 7; 7; 7] ∧
  take 4 scratch_before = [0; 0; 0; 0] ∧
  take 4 (arc4 (repeat 0 8) host_page) = [0xd9; 0x1f; 0x8e; 0x46] ∧
  SQLiteEncrypt (Some key_loc) (Some page_loc) (Some page_loc) 1024
    zero_key_heap = Some zero_key_heap ∧
  SQLiteDecrypt (Some key_loc) (Some page_loc) (Some page_loc) 1024
    zero_key_heap = Some zero_key_heap ∧
  SQLiteEncrypt (Some key_loc) (Some page_loc) (Some scratch_loc) 1024
    zero_key_heap = Some zero_key_heap ∧
  SQLite3CodecCallback (Some block_loc) (Some page_loc) 1 3 zero_key_heap
    = Some (zero_key_heap, Some page_loc) ∧
  SQLite3CodecCallback (Some block_loc) (Some page_loc) 1 6 zero_key_heap
    = Some (zero_key_heap, Some scratch_loc) ∧
  SQLite3CodecCallback (Some block_loc) (Some page_loc) 1 6
    (rekeying_heap NULL) = Some (rekeying_heap NULL, Some page_loc) ∧
  (∀ pKey n st st' l,
     CipherContextNew pKey n st = Some (st', Some l) →
     ∃ bytes, pKey = Some bytes ∧
       heap st' !! l = Some (SQLiteCipherContext (derived_key bytes n))).
Proof.
  assert (Henc : ∀ out,
            SQLiteEncrypt (Some key_loc) (Some page_loc) out 1024
              zero_key_heap = Some zero_key_heap).
  { intros out. apply (SQLiteEncrypt_zero _ key_loc (repeat 0 8)); reflexivity. }
  assert (Hb : zero_key_heap !! block_loc = Some (CryptBlock keyed_block))
    by (vm_compute; reflexivity).
  split; [reflexivity|]. split; [exact Hb|].
  split; [vm_compute; reflexivity|]. split; [vm_compute; reflexivity|].
  split; [reflexivity|]. split; [reflexivity|].
  split; [vm_compute; reflexivity|].
  split; [apply Henc|]. split; [apply Henc|]. split; [apply Henc|].
  split.
  { rewrite (callback_decrypt _ _ _ _ _ _ Hb) by auto.
    cbn [keyed_block readCtx pageSize]. unfold SQLiteDecrypt.
    rewrite Henc. reflexivity. }
  split.
  { rewrite (callback_encrypt _ _ _ _ _ _ Hb) by auto.
    cbn [keyed_block applicable_key Z.eqb Pos.eqb writeCtx readCtx pageSize
         cryptBuffer].
    rewrite Henc. reflexivity. }
  split.
  { rewrite (callback_encrypt _ block_loc
               (mkBlock 0 1024 (Some key_loc) NULL (Some scratch_loc)))
      by (auto; reflexivity).
    reflexivity. }
  intros pKey n st st' l Hnew.
  destruct (CipherContextNew_key _ _ _ _ _ Hnew) as (bytes & -> & _ & Hl).
  exists bytes. split; [reflexivity | exact Hl].
Qed.

(** C3 fails on the code when the eight bytes of the read key are zero.
    In the middle of a rekey to "newkey" the block reads with the
    context at 2 and writes with the one at 5; the page holds
    07 07 07 07 ... and the scratch array 00 00 00 00 ...  With the read
    key of "secret" the callback with mode 7 (write page to rollback
    journal) writes the page ciphered under the read key, which is not
    its cipher text under the write key, to the scratch array and
    returns the scratch array.  With a read key of zero bytes, a context
    that is present all the same, it writes nothing and still returns
    the scratch array: the journal gets 00 00 00 00 ..., neither the page
    nor its cipher text d9 1f 8e 46 ... under the read key. *)
Theorem journal_write_skips_zero_read_key :
  rekeying_heap (Some newkey_loc) !! block_loc =
    Some (CryptBlock (mkBlock 0 1024 (Some key_loc) (Some newkey_loc)
                        (Some scratch_loc))) ∧
  load_ctx (rekeying_heap (Some newkey_loc)) (Some key_loc) =
    Some (derived_key secret 6) ∧
  SQLite3CodecCallback (Some block_loc) (Some page_loc) 1 7
    (rekeying_heap (Some newkey_loc)) =
    Some (<[scratch_loc := Bytes (arc4 (derived_key secret 6) host_page)]>
            (rekeying_heap (Some newkey_loc)),
          Some scratch_loc) ∧
  arc4 (derived_key secret 6) host_page
    ≠ arc4 (derived_key newkey 6) host_page ∧
  zero_read_key_heap !! block_loc =
    Some (CryptBlock (mkBlock 0 1024 (Some key_loc) (Some newkey_loc)
                        (Some scratch_loc))) ∧
  load_ctx zero_read_key_heap (Some key_loc) = Some (repeat 0 8) ∧
  load_ctx zero_read_key_heap (Some newkey_loc) =
    Some (derived_key newkey 6) ∧
  zero_read_key_heap !! page_loc = Some (Bytes host_page) ∧
  zero_read_key_heap !! scratch_loc = Some (Bytes scratch_before) ∧
  take 4 host_page = [7; 7; 7; 7] ∧
  take 4 scratch_before = [0; 0; 0; 0] ∧
  take 4 (arc4 (repeat 0 8) host_page) = [0xd9; 0x1f; 0x8e; 0x46] ∧
  SQLite3CodecCallback (Some block_loc) (Some page_loc) 1 7
    zero_read_key_heap = Some (zero_read_key_heap, Some scratch_loc).
Proof.
  assert (Hb : ∀ h, (<[block_loc :=
                        CryptBlock (mkBlock 0 1024 (Some key_loc)
                                      (Some newkey_loc) (Some scratch_loc))]> h
                     : gmap loc object) !! block_loc =
                    Some (CryptBlock (mkBlock 0 1024 (Some key_loc)
                                        (Some newkey_loc) (Some scratch_loc))))
    by (intros h; apply lookup_insert_eq).
  assert (Hb0 : zero_read_key_heap !! block_loc =
                Some (CryptBlock (mkBlock 0 1024 (Some key_loc)
                                    (Some newkey_loc) (Some scratch_loc))))
    by (vm_compute; reflexivity).
  split; [apply Hb|]. split; [vm_compute; reflexivity|].
  split.
  { rewrite (callback_encrypt (rekeying_heap (Some newkey_loc)) block_loc
               _ _ _ _ (Hb _)) by auto.
    cbn [applicable_key Z.eqb Pos.eqb writeCtx readCtx pageSize cryptBuffer].
    rewrite (SQLiteEncrypt_nonzero _ key_loc (derived_key secret 6)
               page_loc host_page scratch_loc scratch_before 1024);
      [ | vm_compute; reflexivity | vm_compute; discriminate
        | vm_compute; reflexivity | vm_compute; reflexivity
        | unfold host_page; rewrite repeat_length; lia
        | unfold scratch_before; rewrite repeat_length; lia ].
    cbn [mbind option_bind].
    assert (Hcip : ciphered (derived_key secret 6) 1024 host_page
                     scratch_before = arc4 (derived_key secret 6) host_page).
    { unfold ciphered, host_page, scratch_before.
      rewrite take_ge, drop_ge by (rewrite repeat_length; lia).
      apply app_nil_r. }
    rewrite Hcip. reflexivity. }
  split.
  { intros Heq. apply (f_equal (take 4)) in Heq. vm_compute in Heq.
    discriminate. }
  split; [exact Hb0|]. split; [reflexivity|].
  split; [vm_compute; reflexivity|]. split; [vm_compute; reflexivity|].
  split; [vm_compute; reflexivity|].
  split; [reflexivity|]. split; [reflexivity|].
  split; [vm_compute; reflexivity|].
  rewrite (callback_encrypt _ _ _ _ _ _ Hb0) by auto.
  cbn [applicable_key Z.eqb Pos.eqb writeCtx readCtx pageSize cryptBuffer].
  rewrite (SQLiteEncrypt_zero _ key_loc (repeat 0 8)); reflexivity.
Qed.

(** * The buffers of the page callback *)




(** * Allocation *)

Lemma fresh_not_live (h : gmap loc object) : h !! fresh (dom h) = None.
Proof. apply not_elem_of_dom, is_fresh. Qed.

Lemma malloc_succeeds_S k st :
  malloc_succeeds (S k) st →
  malloc_succeeds 1 st ∧
  ∀ h d, malloc_succeeds k (mkState h d (tail (malloc_ok st))).
Proof.
  unfold malloc_succeeds. destruct (malloc_ok st) as [|ok rest]; simpl.
  - intros _. split; [constructor|]. intros _ _. destruct k; constructor.
  - intros H. inversion H as [|? ? Hok Hrest]; subst. split.
    + rewrite take_0. repeat constructor.
    + intros _ _. exact Hrest.
Qed.

Lemma sqlite3_malloc_Some n init st :
  0 < n → malloc_succeeds 1 st →
  sqlite3_malloc n init st =
  (mkState (<[fresh (dom (heap st)) := init]> (heap st)) (aDb st)
     (tail (malloc_ok st)),
   Some (fresh (dom (heap st)))).
Proof.
  intros Hn Hok. unfold sqlite3_malloc.
  destruct (n <=? 0) eqn:E; [lia|].
  unfold malloc_succeeds in Hok.
  destruct (malloc_ok st) as [|[|] rest]; try reflexivity.
  simpl in Hok. inversion Hok; discriminate.
Qed.

(** * Key derivation *)

Lemma derived_key_length bytes n : length (derived_key bytes n) = 8%nat.
Proof.
  unfold derived_key. rewrite length_take, sha1_length. reflexivity.
Qed.

Lemma CipherContextNew_Some st bytes n :
  0 < n ≤ Z.of_nat (length bytes) → malloc_succeeds 1 st →
  CipherContextNew (Some bytes) n st =
  Some (mkState (<[fresh (dom (heap st)) :=
                     SQLiteCipherContext (derived_key bytes n)]> (heap st))
          (aDb st) (tail (malloc_ok st)),
        Some (fresh (dom (heap st)))).
Proof.
  intros Hn Hok. unfold CipherContextNew. cbn [bool_decide decide_rel].
  assert (Hnone : bool_decide (Some bytes = None) = false) by reflexivity.
  rewrite Hnone. destruct (n <=? 0) eqn:E; [lia|]. cbn [orb negb andb].
  rewrite sqlite3_malloc_Some; [| reflexivity | assumption].
  destruct (0 <? n) eqn:E0; [|lia]. cbn [mbind option_bind].
  destruct (Z.of_nat (length bytes) <? n) eqn:E'; [lia|].
  unfold set_heap. cbn [heap aDb malloc_ok].
  rewrite insert_insert_eq. reflexivity.
Qed.

(** C9: key derivation depends on the passphrase alone.  An absent
    passphrase, or a length that is not positive, gives the absent (NULL)
    context and changes nothing.  A passphrase of positive length gives,
    when memory is available, a new context whose key is the first 8
    bytes of the 20-byte SHA-1 digest of the passphrase; so two
    derivations from the same passphrase, in whatever states, give
    contexts with the same key bytes. *)
Theorem CipherContextNew_derives_key :
  (∀ st passphrase n,
     passphrase = None ∨ n ≤ 0 →
     CipherContextNew passphrase n st = Some (st, NULL)) ∧
  (∀ st bytes n,
     0 < n ≤ Z.of_nat (length bytes) → malloc_succeeds 1 st →
     ∃ st' l,
       CipherContextNew (Some bytes) n st = Some (st', Some l) ∧
       heap st !! l = None ∧
       heap st' =
         <[l := SQLiteCipherContext (derived_key bytes n)]> (heap st) ∧
       derived_key bytes n =
         take 8 (Sha1.sha1 (take (Z.to_nat n) bytes)) ∧
       length (Sha1.sha1 (take (Z.to_nat n) bytes)) = 20%nat ∧
       length (derived_key bytes n) = 8%nat) ∧
  (∀ st1 st2 bytes n st1' st2' l1 l2,
     CipherContextNew (Some bytes) n st1 = Some (st1', Some l1) →
     CipherContextNew (Some bytes) n st2 = Some (st2', Some l2) →
     load_ctx (heap st1') (Some l1) = Some (derived_key bytes n) ∧
     load_ctx (heap st2') (Some l2) = Some (derived_key bytes n)).
Proof.
  split; [|split].
  - intros st passphrase n [-> | Hn]; [reflexivity|].
    unfold CipherContextNew.
    destruct (n <=? 0) eqn:E; [|lia]. rewrite orb_true_r. reflexivity.
  - intros st bytes n Hn Hok. eexists _, _.
    split; [apply CipherContextNew_Some; assumption|].
    split; [apply fresh_not_live|]. split; [reflexivity|].
    split; [reflexivity|]. split; [apply sha1_length|].
    apply derived_key_length.
  - assert (Hone : ∀ st bytes n st' l,
              CipherContextNew (Some bytes) n st = Some (st', Some l) →
              load_ctx (heap st') (Some l) = Some (derived_key bytes n)).
    { intros st bytes n st' l. unfold CipherContextNew.
      assert (Hnone : bool_decide (Some bytes = None) = false) by reflexivity.
      rewrite Hnone. destruct (n <=? 0) eqn:E; [discriminate|].
      apply Z.leb_gt in E. cbn [orb negb andb].
      destruct (sqlite3_malloc _ _ st) as [st0 [l0|]]; [|discriminate].
      destruct (0 <? n) eqn:E0; [|lia]. cbn [mbind option_bind].
      destruct (Z.of_nat (length bytes) <? n); [discriminate|].
      intros [= <- <-]. apply load_ctx_Some. apply lookup_insert_eq. }
    intros st1 st2 bytes n st1' st2' l1 l2 H1 H2.
    split; eapply Hone; eassumption.
Qed.

Lemma CipherContextNew_derives_key_witness :
  CipherContextNew None 6 fresh_connection = Some (fresh_connection, NULL) ∧
  (∃ st' l,
     CipherContextNew (Some secret) 6 fresh_connection = Some (st', Some l) ∧
     heap fresh_connection !! l = None ∧
     heap st' =
       <[l := SQLiteCipherContext (derived_key secret 6)]>
         (heap fresh_connection) ∧
     derived_key secret 6 = take 8 (Sha1.sha1 (take (Z.to_nat 6) secret)) ∧
     length (Sha1.sha1 (take (Z.to_nat 6) secret)) = 20%nat ∧
     length (derived_key secret 6) = 8%nat).
Proof.
  destruct CipherContextNew_derives_key as (Habsent & Hkey & _). split.
  - apply Habsent. left. reflexivity.
  - apply Hkey; [simpl; lia | constructor].
Defined.

(** * Reporting the key *)

(** C10: sqlite3CodecGetKey never gives out key material.  When the key
    cell is given it afterwards holds NULL; when the length cell is given
    it afterwards holds 1 if the primary database has a crypto block
    registered and keeps its content otherwise.  The two results are the
    same for every requested index and for every memory content, as long
    as the primary database has, or has not, a registered block. *)
Theorem sqlite3CodecGetKey_reveals_nothing
    (st : State) (p : Pager) (nDb : Z) (ppKey : option ptr)
    (pnKeyLen : option Z) :
  aDb st !! 0%nat = Some p →
  sqlite3CodecGetKey nDb ppKey pnKeyLen st =
    Some ((λ _, NULL) <$> ppKey,
          (λ old, match pCodec p with Some _ => 1 | None => old end) <$> pnKeyLen) ∧
  ∀ st' p' nDb',
    aDb st' !! 0%nat = Some p' →
    (is_Some (pCodec p') ↔ is_Some (pCodec p)) →
    sqlite3CodecGetKey nDb' ppKey pnKeyLen st' =
    sqlite3CodecGetKey nDb ppKey pnKeyLen st.
Proof.
  intros Hp.
  assert (Hget : ∀ st p nDb, aDb st !! 0%nat = Some p →
            sqlite3CodecGetKey nDb ppKey pnKeyLen st =
            Some ((λ _, NULL) <$> ppKey,
                  (λ old, match pCodec p with Some _ => 1 | None => old end) <$> pnKeyLen)).
  { clear. intros st p nDb Hp. unfold sqlite3CodecGetKey.
    rewrite Hp. cbn [mbind option_bind]. unfold sqlite3PagerGetCodec.
    destruct ppKey, pnKeyLen, (pCodec p); reflexivity. }
  split; [apply Hget; assumption|].
  intros st' p' nDb' Hp' Hsame.
  rewrite (Hget st' p' nDb' Hp'), (Hget st p nDb Hp).
  destruct (pCodec p) as [b|], (pCodec p') as [b'|]; try reflexivity.
  - destruct Hsame as [_ Hsame]. destruct Hsame as [? [=]]. eauto.
  - destruct Hsame as [Hsame _]. destruct Hsame as [? [=]]. eauto.
Qed.

Lemma sqlite3CodecGetKey_reveals_nothing_witness :
  sqlite3CodecGetKey 1 (Some (Some 1%positive)) (Some 0) keyed_connection =
    Some (Some NULL, Some 1) ∧
  sqlite3CodecGetKey 0 (Some (Some 1%positive)) (Some 0) fresh_connection =
    Some (Some NULL, Some 0).
Proof.
  split.
  - apply (sqlite3CodecGetKey_reveals_nothing keyed_connection
             (mkPager 1024 (Some 3%positive)) 1 (Some (Some 1%positive))
             (Some 0)).
    vm_compute. reflexivity.
  - apply (sqlite3CodecGetKey_reveals_nothing fresh_connection
             (mkPager 1024 NULL) 0 (Some (Some 1%positive)) (Some 0)).
    reflexivity.
Defined.

(** * Round trip *)

Lemma ciphered_twice key n page old :
  0 ≤ n ≤ Z.of_nat (length page) →
  ciphered key n (ciphered key n page old) (ciphered key n page old) =
  take (Z.to_nat n) page ++ drop (Z.to_nat n) old.
Proof.
  intros Hn. unfold ciphered.
  assert (Hlen : length (arc4 key (take (Z.to_nat n) page)) = Z.to_nat n).
  { rewrite arc4_length, length_take. lia. }
  rewrite (take_app_length' _ _ _ (eq_sym Hlen)).
  rewrite (drop_app_length' _ _ _ (eq_sym Hlen)).
  rewrite arc4_involutive. reflexivity.
Qed.

Lemma ciphered_length key n page old :
  0 ≤ n ≤ Z.of_nat (length page) → n ≤ Z.of_nat (length old) →
  length (ciphered key n page old) = length old.
Proof.
  intros Hn Hn'. unfold ciphered.
  rewrite length_app, arc4_length, length_take, length_drop. lia.
Qed.

(** Encrypting [n] bytes of the page at [d] into the array at [s] and
    decrypting that array in place leaves the page in it; with [s = d]
    this is the round trip in place. *)
Lemma SQLiteEncrypt_SQLiteDecrypt h c key d page s old n :
  h !! c = Some (SQLiteCipherContext key) → num key ≠ 0 →
  h !! d = Some (Bytes page) → h !! s = Some (Bytes old) →
  0 ≤ n ≤ Z.of_nat (length page) → n ≤ Z.of_nat (length old) →
  ∃ h1, SQLiteEncrypt (Some c) (Some d) (Some s) n h = Some h1 ∧
        SQLiteDecrypt (Some c) (Some s) (Some s) n h1 =
        Some (<[s := Bytes (take (Z.to_nat n) page ++ drop (Z.to_nat n) old)]>
                h).
Proof.
  intros Hc Hnz Hd Hs Hn Hn'. eexists. split.
  - apply SQLiteEncrypt_nonzero; eassumption.
  - unfold SQLiteDecrypt.
    assert (c ≠ s) by congruence.
    rewrite (SQLiteEncrypt_nonzero _ c key s (ciphered key n page old)
               s (ciphered key n page old) n).
    + rewrite insert_insert_eq, ciphered_twice by assumption. reflexivity.
    + rewrite lookup_insert_ne; [assumption | congruence].
    + assumption.
    + apply lookup_insert_eq.
    + apply lookup_insert_eq.
    + rewrite ciphered_length; lia.
    + rewrite ciphered_length; lia.
Qed.

(** C6: for every passphrase of positive length (memory permitting) the
    derived context exists, SQLiteDecrypt is the same function as
    SQLiteEncrypt, and decrypting the encryption of a page under that
    context gives the page back: in place for every derived key, and
    through a separate output array whenever the transform is applied
    (the derived key's [num] is not 0). *)
Theorem decrypt_encrypt_round_trip
    (st : State) (bytes : list Z) (length_ : Z) (d : loc) (page : list Z)
    (n : Z) :
  0 < length_ ≤ Z.of_nat (length bytes) → malloc_succeeds 1 st →
  heap st !! d = Some (Bytes page) →
  0 ≤ n ≤ Z.of_nat (length page) →
  ∃ st' c,
    CipherContextNew (Some bytes) length_ st = Some (st', Some c) ∧
    heap st' !! c = Some (SQLiteCipherContext (derived_key bytes length_)) ∧
    heap st' !! d = Some (Bytes page) ∧
    (∀ in_ out size h,
       SQLiteDecrypt (Some c) in_ out size h =
       SQLiteEncrypt (Some c) in_ out size h) ∧
    (∃ h1,
       SQLiteEncrypt (Some c) (Some d) (Some d) n (heap st') = Some h1 ∧
       SQLiteDecrypt (Some c) (Some d) (Some d) n h1 = Some (heap st')) ∧
    (∀ s old,
       heap st' !! s = Some (Bytes old) → n ≤ Z.of_nat (length old) →
       num (derived_key bytes length_) ≠ 0 →
       ∃ h1 h2,
         SQLiteEncrypt (Some c) (Some d) (Some s) n (heap st') = Some h1 ∧
         SQLiteDecrypt (Some c) (Some s) (Some s) n h1 = Some h2 ∧
         h2 !! s =
           Some (Bytes (take (Z.to_nat n) page ++ drop (Z.to_nat n) old))).
Proof.
  intros Hlen Hok Hd Hn.
  pose proof (fresh_not_live (heap st)) as Hfresh.
  set (c := fresh (dom (heap st))) in *.
  assert (Hcd : c ≠ d) by congruence.
  eexists _, c. split; [apply CipherContextNew_Some; assumption|].
  cbn [heap]. fold c.
  set (h := <[c := SQLiteCipherContext (derived_key bytes length_)]> (heap st)).
  assert (Hc : h !! c = Some (SQLiteCipherContext (derived_key bytes length_)))
    by apply lookup_insert_eq.
  assert (Hd' : h !! d = Some (Bytes page)).
  { unfold h. rewrite lookup_insert_ne; assumption. }
  split; [exact Hc|]. split; [exact Hd'|]. split; [reflexivity|]. split.
  - destruct (Z.eq_dec (num (derived_key bytes length_)) 0) as [Hz|Hnz].
    + exists h. unfold SQLiteDecrypt.
      rewrite (SQLiteEncrypt_zero h c _ _ _ n Hc Hz). split; reflexivity.
    + destruct (SQLiteEncrypt_SQLiteDecrypt h c _ d page d page n
                  Hc Hnz Hd' Hd' Hn ltac:(lia)) as (h1 & Henc & Hdec).
      exists h1. split; [exact Henc|]. rewrite Hdec.
      rewrite take_drop. rewrite insert_id; [reflexivity | exact Hd'].
  - intros s old Hs Hn' Hnz.
    destruct (SQLiteEncrypt_SQLiteDecrypt h c _ d page s old n
                Hc Hnz Hd' Hs Hn Hn') as (h1 & Henc & Hdec).
    eexists _, _. split; [exact Henc|]. split; [exact Hdec|].
    apply lookup_insert_eq.
Qed.

Lemma decrypt_encrypt_round_trip_witness :
  ∃ st' c,
    CipherContextNew (Some secret) 6 fresh_connection = Some (st', Some c) ∧
    heap st' !! c = Some (SQLiteCipherContext (derived_key secret 6)) ∧
    ∃ h1,
      SQLiteEncrypt (Some c) (Some 1%positive) (Some 1%positive) 1024
        (heap st') = Some h1 ∧
      SQLiteDecrypt (Some c) (Some 1%positive) (Some 1%positive) 1024 h1
        = Some (heap st').
Proof.
  destruct (decrypt_encrypt_round_trip fresh_connection secret 6 1%positive
              (repeat 7 1024) 1024)
    as (st' & c & Hnew & Hc & _ & _ & Hplace & _);
    [simpl; lia | constructor | reflexivity | rewrite repeat_length; lia |].
  exists st', c. split; [exact Hnew|]. split; [exact Hc|]. exact Hplace.
Defined.

(** * The rewrite loop of rekey *)

(** After the loop, rc is the status of the last page visited: the
    status of any earlier page is overwritten. *)
Lemma rewrite_page_last host nSkip pages n acc :
  n ≠ nSkip →
  fst (fold_left (rewrite_page host nSkip) (pages ++ [n]) acc) =
  if PagerGet host n =? 0 then PagerWrite host n else PagerGet host n.
Proof.
  intros Hn. rewrite fold_left_app. cbn [fold_left].
  destruct (fold_left (rewrite_page host nSkip) pages acc) as [rc calls].
  unfold rewrite_page. destruct (n =? nSkip) eqn:E; [lia|].
  destruct (PagerGet host n =? 0); reflexivity.
Qed.

(** C1 fails on the code.  The primary database is keyed with "secret"
    and has two pages; reading page 1 fails with SQLITE_IOERR and page 2
    is read and marked dirty.  sqlite3_rekey_v2 with "newkey" then
    commits the transaction instead of rolling it back, returns
    SQLITE_OK, frees the old read key and makes the new key the read key
    and the write key. *)
Theorem rekey_commits_after_failed_page :
  PagerGet page1_unreadable 1 = SQLITE_IOERR ∧
  load_block (heap keyed_connection) (Some block_loc) =
    Some (mkBlock 0 1024 (Some key_loc) (Some key_loc) (Some scratch_loc)) ∧
  load_ctx (heap keyed_connection) (Some key_loc) =
    Some (derived_key secret 6) ∧
  match sqlite3_rekey_v2 page1_unreadable (Some newkey) 6 keyed_connection with
  | Some (st', rc, calls) =>
      rc = SQLITE_OK ∧
      calls = [mutex_enter; begin_trans; pager_get 1; pager_get 2;
               pager_write 2; pager_unref 2; btree_commit; mutex_leave] ∧
      load_block (heap st') (Some block_loc) =
        Some (mkBlock 0 1024 (Some newkey_loc) (Some newkey_loc)
                (Some scratch_loc)) ∧
      load_ctx (heap st') (Some newkey_loc) = Some (derived_key newkey 6) ∧
      heap st' !! key_loc = None
  | None => False
  end.
Proof. vm_compute. repeat split; reflexivity. Qed.

(** * The scratch array and the page size *)

(** Once the size-change callback has recorded a new page size, an
    update of the block for that size finds nothing to do: the block
    keeps its scratch array, and no array is allocated or freed. *)
Lemma CreateCodeCryptBlock_after_size_change st b blk ctx i newSize r :
  heap st !! b = Some (CryptBlock blk) → newSize ≠ -1 →
  ∃ h1,
    SQLite3CodecSizeChangedCallback (Some b) newSize r (heap st) = Some h1 ∧
    CreateCodeCryptBlock ctx i newSize (Some b) (set_heap h1 st) =
    Some (set_heap
            (<[b := CryptBlock (mkBlock i newSize (readCtx blk) (writeCtx blk)
                                  (cryptBuffer blk))]> (heap st)) st,
          Some b).
Proof.
  intros Hb Hsize. eexists. split.
  - unfold SQLite3CodecSizeChangedCallback. cbn [mbind option_bind].
    rewrite (load_block_Some _ b blk Hb). cbn [mbind option_bind].
    assert (Hres : (if negb (pageSize blk =? newSize)
                    then Some (store_block (heap st) b (set_pageSize newSize blk))
                    else Some (heap st))
                   = Some (<[b := CryptBlock (set_pageSize newSize blk)]>
                             (heap st))).
    { destruct (pageSize blk =? newSize) eqn:E; [|reflexivity].
      apply Z.eqb_eq in E. cbn [negb]. f_equal. symmetry. apply insert_id.
      rewrite Hb. destruct blk. unfold set_pageSize. cbn in *. congruence. }
    exact Hres.
  - unfold CreateCodeCryptBlock.
    destruct (newSize =? -1) eqn:E; [lia|].
    cbn [mbind option_bind set_heap heap aDb malloc_ok].
    rewrite (load_block_Some _ b (set_pageSize newSize blk))
      by apply lookup_insert_eq.
    cbn [mbind option_bind set_pager set_pageSize pageSize].
    rewrite Z.eqb_refl. cbn [negb]. unfold store_block, set_heap.
    cbn [heap aDb malloc_ok pager readCtx writeCtx cryptBuffer].
    rewrite insert_insert_eq. reflexivity.
Qed.

(** C5 fails on the code.  The primary database has pages of 512 bytes
    and a crypto block with a scratch array of 512 bytes.  The pager
    changes the page size to 1024 and notifies the codec; the size-change
    callback records 1024 in the block and the scratch array keeps its
    512 bytes, so the page callback for a write of a page of 1024 bytes
    runs past its end.  An update through CreateCodeCryptBlock in between
    does not help: it finds the recorded size equal to the pager's and
    keeps the scratch array of 512 bytes. *)
Theorem scratch_array_not_reallocated_after_size_change :
  load_block (heap connection_512) (Some 3%positive) =
    Some (mkBlock 0 512 (Some 2%positive) (Some 2%positive)
            (Some 4%positive)) ∧
  heap connection_512 !! 4%positive = Some (Bytes (repeat 0 512)) ∧
  match sqlite3PagerSetPagesize 0 1024 connection_512 with
  | Some st =>
      aDb st = [mkPager 1024 (Some 3%positive)] ∧
      load_block (heap st) (Some 3%positive) =
        Some (mkBlock 0 1024 (Some 2%positive) (Some 2%positive)
                (Some 4%positive)) ∧
      heap st !! 4%positive = Some (Bytes (repeat 0 512)) ∧
      heap st !! 1%positive = Some (Bytes (repeat 7 1024)) ∧
      SQLite3CodecCallback (Some 3%positive) (Some 1%positive) 1 6 (heap st)
        = None ∧
      match
        CreateCodeCryptBlock (Some 2%positive) 0 (-1) (Some 3%positive) st
      with
      | Some (st, block) =>
          block = Some 3%positive ∧
          load_block (heap st) block =
            Some (mkBlock 0 1024 (Some 2%positive) (Some 2%positive)
                    (Some 4%positive)) ∧
          heap st !! 4%positive = Some (Bytes (repeat 0 512)) ∧
          SQLite3CodecCallback block (Some 1%positive) 1 6 (heap st) = None
      | None => False
      end
  | None => False
  end.
Proof. vm_compute. repeat split; reflexivity. Qed.

(** * Frames *)

Lemma preserved_refl o : preserved o o.
Proof. destruct o; simpl; eauto. Qed.

Lemma preserved_trans o1 o2 o3 :
  preserved o1 o2 → preserved o2 o3 → preserved o1 o3.
Proof.
  destruct o1; simpl; intros H12 H23; subst; try assumption.
  destruct H12 as [d ->]. exact H23.
Qed.

Lemma frame_refl F h : frame F h h.
Proof. intros l o _ Hl. exists o. split; [assumption | apply preserved_refl]. Qed.

Lemma frame_trans F h1 h2 h3 : frame F h1 h2 → frame F h2 h3 → frame F h1 h3.
Proof.
  intros H12 H23 l o HF Hl.
  destruct (H12 l o HF Hl) as (o2 & Hl2 & Hp2).
  destruct (H23 l o2 HF Hl2) as (o3 & Hl3 & Hp3).
  exists o3. split; [assumption | eapply preserved_trans; eassumption].
Qed.

Lemma frame_mono F G h h' : F ⊆ G → frame F h h' → frame G h h'.
Proof. intros HFG Hf l o Hl. apply Hf. set_solver. Qed.

Lemma frame_insert F h l o : l ∈ F → frame F h (<[l := o]> h).
Proof.
  intros HF l' o' Hl' Hlook. exists o'.
  rewrite lookup_insert_ne by congruence.
  split; [assumption | apply preserved_refl].
Qed.

Lemma frame_delete F h l : l ∈ F → frame F h (delete l h).
Proof.
  intros HF l' o' Hl' Hlook. exists o'.
  rewrite lookup_delete_ne by congruence.
  split; [assumption | apply preserved_refl].
Qed.

Lemma frame_alloc F h l o : h !! l = None → frame F h (<[l := o]> h).
Proof.
  intros Hfresh l' o' Hl' Hlook. exists o'.
  rewrite lookup_insert_ne by congruence.
  split; [assumption | apply preserved_refl].
Qed.

Lemma frame_write F h l data data' :
  h !! l = Some (Bytes data) → frame F h (<[l := Bytes data']> h).
Proof.
  intros Hl l' o' Hl' Hlook. destruct (decide (l = l')) as [<-|Hne].
  - rewrite lookup_insert_eq. rewrite Hl in Hlook. injection Hlook as <-.
    eexists. split; [reflexivity|]. simpl. eauto.
  - exists o'. rewrite lookup_insert_ne by assumption.
    split; [assumption | apply preserved_refl].
Qed.

Lemma frame_context F h h' c key :
  frame F h h' → c ∉ F → h !! c = Some (SQLiteCipherContext key) →
  h' !! c = Some (SQLiteCipherContext key).
Proof.
  intros Hf HF Hc. destruct (Hf c _ HF Hc) as (o' & Ho' & Hp).
  simpl in Hp. subst. assumption.
Qed.

Lemma frame_block F h h' b blk :
  frame F h h' → b ∉ F → h !! b = Some (CryptBlock blk) →
  h' !! b = Some (CryptBlock blk).
Proof.
  intros Hf HF Hb. destruct (Hf b _ HF Hb) as (o' & Ho' & Hp).
  simpl in Hp. subst. assumption.
Qed.

Lemma frame_bytes F h h' s data :
  frame F h h' → s ∉ F → h !! s = Some (Bytes data) →
  ∃ data', h' !! s = Some (Bytes data').
Proof.
  intros Hf HF Hs. destruct (Hf s _ HF Hs) as (o' & Ho' & Hp).
  simpl in Hp. destruct Hp as [d ->]. eauto.
Qed.

Lemma elem_of_ptr_set l p : l ∈ ptr_set p ↔ p = Some l.
Proof.
  destruct p as [l'|]; simpl.
  - rewrite elem_of_singleton. split; congruence.
  - split; [set_solver | discriminate].
Qed.

Lemma elem_of_footprint l b blk :
  l ∈ footprint b blk ↔
  l = b ∨ readCtx blk = Some l ∨ writeCtx blk = Some l ∨
  cryptBuffer blk = Some l.
Proof.
  unfold footprint. rewrite !elem_of_union, elem_of_singleton.
  rewrite !elem_of_ptr_set. tauto.
Qed.

Lemma block_ok_frame F h h' b blk :
  frame F h h' → footprint b blk ## F → block_ok h blk → block_ok h' blk.
Proof.
  intros Hf Hdisj (Hr & Hw & Hs). split; [|split].
  - intros c Hc. destruct (Hr c Hc) as [key Hkey]. exists key.
    eapply frame_context; [eassumption | | eassumption].
    intros HF. apply (Hdisj c); [|assumption].
    apply elem_of_footprint. auto.
  - intros c Hc. destruct (Hw c Hc) as [key Hkey]. exists key.
    eapply frame_context; [eassumption | | eassumption].
    intros HF. apply (Hdisj c); [|assumption].
    apply elem_of_footprint. auto.
  - intros s Hsb. destruct (Hs s Hsb) as [data Hdata].
    eapply frame_bytes; [eassumption | | eassumption].
    intros HF. apply (Hdisj s); [|assumption].
    apply elem_of_footprint. auto.
Qed.

(** Every location a registered block owns is live. *)
Lemma footprint_live h b blk l :
  h !! b = Some (CryptBlock blk) → block_ok h blk → l ∈ footprint b blk →
  is_Some (h !! l).
Proof.
  intros Hb (Hr & Hw & Hs) Hl. apply elem_of_footprint in Hl.
  destruct Hl as [-> | [Hl | [Hl | Hl]]].
  - eauto.
  - destruct (Hr l Hl) as [key ->]. eauto.
  - destruct (Hw l Hl) as [key ->]. eauto.
  - destruct (Hs l Hl) as [data ->]. eauto.
Qed.

(** * Updating the codec of one database *)

Lemma footprint_of_registered st i b blk :
  registered st i b blk → footprint_of st i = footprint b blk.
Proof. intros [Hc Hb]. unfold footprint_of. rewrite Hc, Hb. reflexivity. Qed.

Lemma registered_inj st i b blk b' blk' :
  registered st i b blk → registered st i b' blk' → b = b' ∧ blk = blk'.
Proof.
  intros [Hc Hb] [Hc' Hb']. rewrite Hc in Hc'. injection Hc' as <-.
  rewrite Hb in Hb'. injection Hb' as <-. auto.
Qed.

Section update.
Variables (st st' : State) (i : nat) (F : gset loc).
Hypothesis Howned : owned st.
Hypothesis Hothers : ∀ j, j ≠ i → codec_of st' j = codec_of st j.
Hypothesis Hsep : ∀ j, j ≠ i → footprint_of st j ## F.
Hypothesis Hframe : frame F (heap st) (heap st').

Lemma registered_kept j b blk :
  j ≠ i → registered st j b blk → registered st' j b blk.
Proof.
  intros Hj [Hc Hb]. split; [rewrite Hothers; assumption|].
  eapply frame_block; [exact Hframe | | exact Hb].
  intros HF. apply (Hsep j Hj b); [|assumption].
  rewrite (footprint_of_registered st j b blk) by (split; assumption).
  apply elem_of_footprint. auto.
Qed.

Lemma registered_back j b blk :
  j ≠ i → registered st' j b blk → registered st j b blk.
Proof.
  intros Hj [Hc Hb]. rewrite Hothers in Hc by assumption.
  destruct Howned as [Hlive _].
  destruct (Hlive j b Hc) as (blk0 & Hb0 & _).
  assert (Hreg0 : registered st j b blk0) by (split; assumption).
  destruct (registered_kept j b blk0 Hj Hreg0) as [_ Hb0'].
  rewrite Hb in Hb0'. injection Hb0' as ->. exact Hreg0.
Qed.

Lemma owned_update :
  (∀ b, codec_of st' i = Some b →
     ∃ blk, heap st' !! b = Some (CryptBlock blk) ∧
            block_ok (heap st') blk ∧ footprint b blk ⊆ F) →
  owned st'.
Proof.
  intros Hnew. split.
  - intros j b Hc. destruct (decide (j = i)) as [->|Hj].
    + destruct (Hnew b Hc) as (blk & Hb & Hok & _). eauto.
    + rewrite Hothers in Hc by assumption.
      destruct Howned as [Hlive _].
      destruct (Hlive j b Hc) as (blk & Hb & Hok).
      assert (Hreg : registered st j b blk) by (split; assumption).
      exists blk. split; [apply (registered_kept j b blk Hj Hreg)|].
      eapply block_ok_frame; [exact Hframe | | exact Hok].
      rewrite <- (footprint_of_registered st j b blk Hreg). auto.
  - assert (Hone : ∀ j b blk b' blk', j ≠ i →
              registered st' i b blk → registered st' j b' blk' →
              footprint b blk ## footprint b' blk').
    { intros j b blk b' blk' Hj [Hc Hb] Hreg'.
      apply registered_back in Hreg'; [|assumption].
      destruct (Hnew b Hc) as (blk0 & Hb0 & _ & Hsub).
      rewrite Hb in Hb0. injection Hb0 as <-.
      rewrite <- (footprint_of_registered st j b' blk' Hreg').
      specialize (Hsep j Hj). set_solver. }
    intros j1 j2 b1 b2 blk1 blk2 Hne H1 H2.
    destruct (decide (j1 = i)) as [->|Hj1];
      [|destruct (decide (j2 = i)) as [->|Hj2]].
    + apply (Hone j2); auto.
    + symmetry. apply (Hone j1); auto.
    + destruct Howned as [_ Hdisj].
      apply (Hdisj j1 j2); auto using registered_back.
Qed.

Lemma same_keys_update skip skip' :
  same_keys_except skip st →
  (skip = None ∨ skip = Some i) →
  (∀ b blk, registered st' i b blk → skip' ≠ Some i →
     readCtx blk = writeCtx blk) →
  same_keys_except skip' st'.
Proof.
  intros Hsame Hskip Hnew j b blk Hreg Hj'.
  destruct (decide (j = i)) as [->|Hj]; [apply (Hnew b blk); assumption|].
  apply (Hsame j b blk); [apply registered_back; assumption|].
  destruct Hskip as [-> | ->]; congruence.
Qed.
End update.

(** The footprints of the other databases avoid the footprint of
    database [i] and every location that is not live. *)
Lemma others_disjoint st i N :
  owned st → (∀ l, l ∈ N → heap st !! l = None) →
  ∀ j, j ≠ i → footprint_of st j ## footprint_of st i ∪ N.
Proof.
  intros [Hlive Hdisj] HN j Hj. unfold footprint_of at 1.
  destruct (codec_of st j) as [bj|] eqn:Hcj; [|set_solver].
  destruct (Hlive j bj Hcj) as (blkj & Hbj & Hokj). rewrite Hbj.
  intros l Hl HlF. apply elem_of_union in HlF as [Hli | HlN].
  - unfold footprint_of in Hli.
    destruct (codec_of st i) as [bi|] eqn:Hci; [|set_solver].
    destruct (Hlive i bi Hci) as (blki & Hbi & Hoki). rewrite Hbi in Hli.
    apply (Hdisj j i bj bi blkj blki Hj) with l; auto; split; assumption.
  - destruct (footprint_live (heap st) bj blkj l Hbj Hokj Hl) as [o Ho].
    rewrite (HN l HlN) in Ho. discriminate.
Qed.

(** A step that leaves the registrations alone and keeps every object up
    to the content of byte arrays keeps the invariant. *)
Lemma wf_frame st st' :
  wf st → (0 < length (aDb st'))%nat →
  (∀ j, codec_of st' j = codec_of st j) →
  frame ∅ (heap st) (heap st') → wf st'.
Proof.
  intros (Hlen & Howned & Hsame) Hlen' Hcodec Hframe.
  set (i := length (aDb st')).
  assert (Hnone : codec_of st' i = None).
  { unfold codec_of. rewrite (lookup_ge_None_2 (aDb st') i); [reflexivity|].
    unfold i. lia. }
  split; [assumption|]. split.
  - apply (owned_update st st' i ∅); auto.
    + intros j _. set_solver.
    + intros b Hb. rewrite Hnone in Hb. discriminate.
  - apply (same_keys_update st st' i ∅ Howned) with (skip := None); auto.
    + intros j _. set_solver.
    + intros b blk [Hb _]. rewrite Hnone in Hb. discriminate.
Qed.

(** * Freeing a crypto block *)

Lemma frame_agree F (h h' : gmap loc object) :
  (∀ l, l ∉ F → h' !! l = h !! l) → frame F h h'.
Proof.
  intros Hagree l o HF Hl. exists o. rewrite Hagree by assumption.
  split; [assumption | apply preserved_refl].
Qed.

(** sqlite3_free of NULL or of a live location succeeds and changes
    nothing else. *)
Lemma sqlite3_free_ok (h : gmap loc object) (p : ptr) :
  (∀ l, p = Some l → is_Some (h !! l)) →
  ∃ h', sqlite3_free p h = Some h' ∧
        (∀ l, p ≠ Some l → h' !! l = h !! l) ∧
        (∀ l, p = Some l → h' !! l = None).
Proof.
  intros Hlive. destruct p as [l|]; simpl.
  - destruct (Hlive l eq_refl) as [o Ho]. rewrite Ho.
    exists (delete l h). split; [reflexivity|]. split.
    + intros l' Hne. apply lookup_delete_ne. congruence.
    + intros l' [= <-]. apply lookup_delete_eq.
  - exists h. split; [reflexivity|]. split; [reflexivity | discriminate].
Qed.

Lemma FreeCodecCryptBlock_ok (h : gmap loc object) b blk :
  h !! b = Some (CryptBlock blk) → block_ok h blk →
  ∃ h', FreeCodecCryptBlock (Some b) h = Some h' ∧
        (∀ l, l ∉ footprint b blk → h' !! l = h !! l) ∧
        h' !! b = None.
Proof.
  intros Hb (Hr & Hw & Hs). unfold FreeCodecCryptBlock.
  rewrite (load_block_Some h b blk Hb). cbn [mbind option_bind].
  destruct (sqlite3_free_ok h (cryptBuffer blk)) as (h1 & -> & Hag1 & _).
  { intros s Hsb. destruct (Hs s Hsb) as [data ->]. eauto. }
  cbn [mbind option_bind].
  assert (Hctx1 : ∀ p, is_context h p → is_context h1 p).
  { intros p Hp c ->. destruct (Hp c eq_refl) as [key Hkey]. exists key.
    rewrite Hag1; [assumption|]. intros Hsb.
    destruct (Hs c Hsb) as [data Hdata]. congruence. }
  destruct (sqlite3_free_ok h1 (readCtx blk)) as (h2 & -> & Hag2 & _).
  { intros c Hc. destruct (Hctx1 _ Hr c Hc) as [key ->]. eauto. }
  cbn [mbind option_bind].
  assert (Hb2 : h2 !! b = Some (CryptBlock blk)).
  { rewrite Hag2, Hag1; [assumption | |].
    - intros Hsb. destruct (Hs b Hsb) as [data Hdata]. congruence.
    - intros Hc. destruct (Hr b Hc) as [key Hkey]. congruence. }
  assert (Hfree_b : ∀ h3, h3 !! b = Some (CryptBlock blk) →
            (∀ l, l ∉ footprint b blk → h3 !! l = h !! l) →
            ∃ h', sqlite3_free (Some b) h3 = Some h' ∧
                  (∀ l, l ∉ footprint b blk → h' !! l = h !! l) ∧
                  h' !! b = None).
  { intros h3 Hb3 Hag3. simpl. rewrite Hb3. eexists. split; [reflexivity|].
    split; [|apply lookup_delete_eq].
    intros l Hl. rewrite lookup_delete_ne; [apply Hag3; assumption|].
    intros <-. apply Hl, elem_of_footprint. auto. }
  assert (Hag12 : ∀ l, l ∉ footprint b blk → h2 !! l = h !! l).
  { intros l Hl. rewrite Hag2, Hag1; [reflexivity | |];
      intros Hp; apply Hl, elem_of_footprint; auto. }
  case_bool_decide as Hdiff.
  - destruct Hdiff as [Hwnull Hwr].
    destruct (sqlite3_free_ok h2 (writeCtx blk)) as (h3 & -> & Hag3 & _).
    { intros c Hc. destruct (Hctx1 _ Hw c Hc) as [key Hkey].
      rewrite Hag2; [eauto | congruence]. }
    cbn [mbind option_bind]. apply Hfree_b.
    + rewrite Hag3; [assumption|].
      intros Hc. destruct (Hw b Hc) as [key Hkey]. congruence.
    + intros l Hl. rewrite Hag3; [apply Hag12; assumption|].
      intros Hp. apply Hl, elem_of_footprint. auto.
  - cbn [mbind option_bind]. apply Hfree_b; assumption.
Qed.

(** * Creating and registering a crypto block *)

Lemma sqlite3_malloc_cases n init h d ok :
  (∃ ok', sqlite3_malloc n init (mkState h d ok) = (mkState h d ok', NULL) ∧
          (∀ k, malloc_succeeds (S k) (mkState h d ok) → n ≤ 0 ∧
                malloc_succeeds (S k) (mkState h d ok'))) ∨
  (∃ l, h !! l = None ∧ 0 < n ∧
        sqlite3_malloc n init (mkState h d ok) =
          (mkState (<[l := init]> h) d (tail ok), Some l) ∧
        (∀ k, malloc_succeeds (S k) (mkState h d ok) →
              malloc_succeeds k (mkState (<[l := init]> h) d (tail ok)))).
Proof.
  unfold sqlite3_malloc. cbn [heap aDb malloc_ok].
  destruct (n <=? 0) eqn:En.
  - left. exists ok. split; [reflexivity|]. intros k Hk. split; [lia | exact Hk].
  - assert (Hright : ∀ ok0, ok0 = ok →
      ∃ l, h !! l = None ∧ 0 < n ∧
        (mkState (<[fresh (dom h) := init]> h) d (tail ok0), Some (fresh (dom h)))
        = (mkState (<[l := init]> h) d (tail ok), Some l) ∧
        (∀ k, malloc_succeeds (S k) (mkState h d ok) →
              malloc_succeeds k (mkState (<[l := init]> h) d (tail ok)))).
    { intros ok0 ->. exists (fresh (dom h)).
      split; [apply fresh_not_live|]. split; [lia|]. split; [reflexivity|].
      intros k Hk. apply (malloc_succeeds_S k _ Hk). }
    destruct ok as [|[|] rest].
    + right. apply (Hright []). reflexivity.
    + right. apply (Hright (true :: rest)). reflexivity.
    + left. exists rest. split; [reflexivity|]. intros k Hk.
      unfold malloc_succeeds in Hk. simpl in Hk. inversion Hk. discriminate.
Qed.

Lemma CreateCodeCryptBlock_new st ctx i pg :
  aDb st !! i = Some pg →
  ∃ st' p,
    CreateCodeCryptBlock ctx i (-1) NULL st = Some (st', p) ∧
    aDb st' = aDb st ∧ heap st ⊆ heap st' ∧
    (∀ b, p = Some b →
       heap st !! b = None ∧
       ∃ buf,
         heap st' !! b =
           Some (CryptBlock (mkBlock i (pager_pageSize pg) ctx ctx buf)) ∧
         (∀ s, buf = Some s →
            s ≠ b ∧ heap st !! s = None ∧ ∃ data, heap st' !! s = Some (Bytes data)) ∧
         (∀ l, l ≠ b → buf ≠ Some l → heap st' !! l = heap st !! l) ∧
         (0 < pager_pageSize pg → buf ≠ NULL)) ∧
    (malloc_succeeds 2 st → 0 < pager_pageSize pg → p ≠ NULL).
Proof.
  intros Hpg. destruct st as [h d ok]. cbn [heap aDb malloc_ok] in *.
  unfold CreateCodeCryptBlock.
  destruct (sqlite3_malloc_cases sizeof_CodecCryptBlock
              (CryptBlock (mkBlock i 0 ctx ctx NULL)) h d ok)
    as [(ok' & -> & Hk) | (b & Hb & _ & -> & Hk)].
  - eexists _, _. split; [reflexivity|]. cbn [heap aDb].
    split; [reflexivity|]. split; [reflexivity|].
    split; [discriminate|]. intros H2. destruct (Hk _ H2) as [Hn _].
    unfold sizeof_CodecCryptBlock in Hn. lia.
  - unfold NULL. cbn [heap aDb malloc_ok]. rewrite Hpg, Z.eqb_refl.
    cbn [fmap option_fmap option_map mbind option_bind].
    rewrite (load_block_Some _ b (mkBlock i 0 ctx ctx None))
      by apply lookup_insert_eq.
    cbn [mbind option_bind set_pager set_pageSize set_cryptBuffer pager
         pageSize readCtx writeCtx cryptBuffer sqlite3_free].
    destruct (0 =? pager_pageSize pg) eqn:Eps; cbn [negb].
    + apply Z.eqb_eq in Eps. eexists _, _. split; [reflexivity|].
      cbn [heap aDb set_heap]. unfold store_block.
      rewrite insert_insert_eq.
      split; [reflexivity|]. split; [apply insert_subseteq; assumption|].
      split.
      * intros b0 [= <-]. split; [assumption|]. exists None.
        rewrite lookup_insert_eq, <- Eps.
        split; [reflexivity|]. split; [discriminate|]. split.
        -- intros l Hl _. apply lookup_insert_ne. congruence.
        -- lia.
      * intros _ Hps. lia.
    + apply Z.eqb_neq in Eps. unfold set_heap, store_block.
      cbn [heap aDb malloc_ok]. rewrite insert_insert_eq.
      match goal with
      | |- context [sqlite3_malloc ?n ?init (mkState ?h0 ?d0 ?ok0)] =>
          destruct (sqlite3_malloc_cases n init h0 d0 ok0)
            as [(ok' & -> & Hk') | (s & Hs & Hpos & -> & Hk')]
      end.
      * eexists _, _. split; [reflexivity|]. cbn [heap aDb].
        rewrite insert_insert_eq.
        split; [reflexivity|]. split; [apply insert_subseteq; assumption|].
        split; [discriminate|]. intros H2 Hps.
        destruct (Hk' O (Hk 1%nat H2)) as [Hn _]. lia.
      * eexists _, _. split; [reflexivity|]. cbn [heap aDb].
        assert (Hsb : s ≠ b).
        { intros ->. rewrite lookup_insert_eq in Hs. discriminate. }
        assert (Hs' : h !! s = None).
        { rewrite lookup_insert_ne in Hs by congruence. assumption. }
        split; [reflexivity|]. split.
        { apply insert_subseteq_r; [assumption|].
          apply insert_subseteq_r; [assumption|].
          apply insert_subseteq; assumption. }
        split.
        -- intros b0 [= <-]. split; [assumption|]. exists (Some s).
           rewrite lookup_insert_eq. split; [reflexivity|]. split.
           ++ intros s0 [= <-]. split; [assumption|]. split; [assumption|].
              rewrite lookup_insert_ne by congruence.
              rewrite lookup_insert_eq. eauto.
           ++ split; [|discriminate]. intros l Hl Hls.
              rewrite !lookup_insert_ne by congruence. reflexivity.
        -- discriminate.
Qed.

Lemma SQLite3CodecSizeChangedCallback_ok (h : gmap loc object) b blk n r :
  h !! b = Some (CryptBlock blk) →
  SQLite3CodecSizeChangedCallback (Some b) n r h =
  Some (<[b := CryptBlock (set_pageSize n blk)]> h).
Proof.
  intros Hb. unfold SQLite3CodecSizeChangedCallback.
  cbn [mbind option_bind]. rewrite (load_block_Some h b blk Hb).
  cbn [mbind option_bind]. destruct (pageSize blk =? n) eqn:E; cbn [negb].
  - apply Z.eqb_eq in E. f_equal. symmetry. apply insert_id.
    rewrite Hb. destruct blk. unfold set_pageSize. cbn in *. congruence.
  - reflexivity.
Qed.

Lemma codec_of_insert st st' i pg :
  (i < length (aDb st))%nat → aDb st' = <[i := pg]> (aDb st) →
  codec_of st' i = pCodec pg ∧ ∀ j, j ≠ i → codec_of st' j = codec_of st j.
Proof.
  intros Hi Heq. unfold codec_of. rewrite Heq. split.
  - rewrite list_lookup_insert_eq by assumption. reflexivity.
  - intros j Hj. rewrite list_lookup_insert_ne by congruence. reflexivity.
Qed.

Lemma codec_of_Some st i pg : aDb st !! i = Some pg → codec_of st i = pCodec pg.
Proof. intros Hpg. unfold codec_of. rewrite Hpg. reflexivity. Qed.

(** Registering a codec frees the block registered before, if any, and
    leaves everything else as it is. *)
Lemma sqlite3PagerSetCodec_ok st i pg p :
  owned st → aDb st !! i = Some pg →
  (∀ b, p = Some b →
     (b ∉ footprint_of st i) ∧
     (∃ blk, heap st !! b = Some (CryptBlock blk))) →
  ∃ st',
    sqlite3PagerSetCodec i p st = Some st' ∧
    aDb st' = <[i := mkPager (pager_pageSize pg) p]> (aDb st) ∧
    (∀ l, l ∉ footprint_of st i → p ≠ Some l → heap st' !! l = heap st !! l) ∧
    (∀ b blk, p = Some b → heap st !! b = Some (CryptBlock blk) →
       heap st' !! b =
         Some (CryptBlock (set_pageSize (pager_pageSize pg) blk))).
Proof.
  intros [Hlive _] Hpg Hp. unfold sqlite3PagerSetCodec. rewrite Hpg.
  cbn [mbind option_bind].
  assert (Hfree : ∃ h1,
            match pCodec pg with
            | Some _ => SQLite3CodecFreeCallback (pCodec pg) (heap st)
            | None => Some (heap st)
            end = Some h1 ∧
            ∀ l, l ∉ footprint_of st i → h1 !! l = heap st !! l).
  { unfold footprint_of. rewrite (codec_of_Some st i pg Hpg).
    destruct (pCodec pg) as [b0|] eqn:Hc.
    - destruct (Hlive i b0) as (blk0 & Hb0 & Hok0).
      { rewrite (codec_of_Some st i pg Hpg). assumption. }
      rewrite Hb0. unfold SQLite3CodecFreeCallback.
      destruct (FreeCodecCryptBlock_ok (heap st) b0 blk0 Hb0 Hok0)
        as (h1 & -> & Hag & _).
      exists h1. auto.
    - exists (heap st). auto. }
  destruct Hfree as (h1 & -> & Hag). cbn [mbind option_bind].
  destruct p as [b|].
  - destruct (Hp b eq_refl) as (Hbfp & blk & Hb).
    rewrite (SQLite3CodecSizeChangedCallback_ok h1 b blk)
      by (rewrite Hag; assumption).
    cbn [mbind option_bind]. eexists. split; [reflexivity|].
    cbn [heap aDb]. split; [reflexivity|]. split.
    + intros l Hl Hne. rewrite lookup_insert_ne by congruence. auto.
    + intros b' blk' [= <-] Hb'. rewrite Hb in Hb'. injection Hb' as <-.
      apply lookup_insert_eq.
  - cbn [mbind option_bind]. eexists. split; [reflexivity|].
    cbn [heap aDb]. split; [reflexivity|]. split; [auto | discriminate].
Qed.

Lemma footprint_of_live st i l :
  owned st → l ∈ footprint_of st i → is_Some (heap st !! l).
Proof.
  intros [Hlive _] Hl. unfold footprint_of in Hl.
  destruct (codec_of st i) as [b|] eqn:Hc; [|set_solver].
  destruct (Hlive i b Hc) as (blk & Hb & Hok). rewrite Hb in Hl.
  eapply footprint_live; eassumption.
Qed.

Lemma frame_subseteq F (h h' : gmap loc object) : h ⊆ h' → frame F h h'.
Proof.
  intros Hsub l o _ Hl. exists o.
  split; [eapply lookup_weaken; eassumption | apply preserved_refl].
Qed.

(** Allocations that are not registered keep the invariant. *)
Lemma wf_extend st st' :
  wf st → aDb st' = aDb st → heap st ⊆ heap st' → wf st'.
Proof.
  intros Hwf Hdb Hsub. apply (wf_frame st st' Hwf).
  - rewrite Hdb. apply Hwf.
  - intros j. unfold codec_of. rewrite Hdb. reflexivity.
  - apply frame_subseteq. assumption.
Qed.

Lemma footprint_of_extend st st' i :
  owned st → aDb st' = aDb st → heap st ⊆ heap st' →
  footprint_of st' i = footprint_of st i.
Proof.
  intros [Hlive _] Hdb Hsub. unfold footprint_of, codec_of. rewrite Hdb.
  fold (codec_of st i). destruct (codec_of st i) as [b|] eqn:Hc; [|reflexivity].
  destruct (Hlive i b Hc) as (blk & Hb & _).
  rewrite Hb, (lookup_weaken _ _ _ _ Hb Hsub). reflexivity.
Qed.

(** The tail of attach: given a new context that no block owns, it
    returns with the invariant kept; when memory is available and the
    page size positive it registers a new block that uses the context as
    read key and as write key.  Live objects outside the footprint of the
    block registered before are kept. *)
Lemma attach_block_ok st nDb c key :
  wf st → heap st !! c = Some (SQLiteCipherContext key) →
  (∀ j, c ∉ footprint_of st j) →
  0 ≤ nDb < Z.of_nat (length (aDb st)) →
  ∃ st' rc,
    attach_block nDb (Some c) st = Some (st', rc) ∧ wf st' ∧
    (∀ l o, l ∉ footprint_of st (Z.to_nat nDb) →
       heap st !! l = Some o → heap st' !! l = Some o) ∧
    (∀ j, j ≠ Z.to_nat nDb → codec_of st' j = codec_of st j) ∧
    (rc = SQLITE_OK →
       ∃ pg b buf,
         aDb st !! Z.to_nat nDb = Some pg ∧
         codec_of st' (Z.to_nat nDb) = Some b ∧ heap st !! b = None ∧
         heap st' !! b =
           Some (CryptBlock (mkBlock (Z.to_nat nDb) (pager_pageSize pg)
                               (Some c) (Some c) buf)) ∧
         (0 < pager_pageSize pg → buf ≠ NULL)) ∧
    (malloc_succeeds 2 st →
     (∀ pg, aDb st !! Z.to_nat nDb = Some pg → 0 < pager_pageSize pg) →
     rc = SQLITE_OK).
Proof.
  intros Hwf Hc Hfree Hn. set (i := Z.to_nat nDb).
  assert (Hi : (i < length (aDb st))%nat) by (unfold i; lia).
  destruct (lookup_lt_is_Some_2 _ _ Hi) as [pg Hpg].
  unfold attach_block, pager_index. destruct (nDb <? 0) eqn:E; [lia|].
  fold i. rewrite Hpg. cbn [mbind option_bind].
  destruct (CreateCodeCryptBlock_new st (Some c) i pg Hpg)
    as (st2 & p & -> & Hdb2 & Hsub2 & Hnew & Hsucc).
  cbn [mbind option_bind].
  pose proof (wf_extend st st2 Hwf Hdb2 Hsub2) as Hwf2.
  destruct p as [b|].
  - destruct (Hnew b eq_refl) as (Hb & buf & Hb2 & Hbuf & Hrest & Hbufnn).
    destruct Hwf as (Hlen & Howned & Hsame).
    destruct Hwf2 as (Hlen2 & Howned2 & Hsame2).
    assert (Hfp2 : footprint_of st2 i = footprint_of st i)
      by (apply footprint_of_extend; assumption).
    assert (Hpg2 : aDb st2 !! i = Some pg) by (rewrite Hdb2; assumption).
    destruct (sqlite3PagerSetCodec_ok st2 i pg (Some b) Howned2 Hpg2)
      as (st' & -> & Hdb' & Hag & Hblock).
    { intros b' [= <-]. split; [|eauto]. rewrite Hfp2. intros Hin.
      destruct (footprint_of_live st i b Howned Hin) as [o Ho]. congruence. }
    cbn [mbind option_bind]. exists st', SQLITE_OK. split; [reflexivity|].
    specialize (Hblock b _ eq_refl Hb2).
    unfold set_pageSize in Hblock.
    cbn [pager pageSize readCtx writeCtx cryptBuffer] in Hblock.
    assert (Hkept : ∀ l o, l ∉ footprint_of st i →
              heap st !! l = Some o → heap st' !! l = Some o).
    { intros l o Hl Ho. rewrite Hag.
      - eapply lookup_weaken; eassumption.
      - rewrite Hfp2. assumption.
      - congruence. }
    destruct (codec_of_insert st2 st' i _ ltac:(rewrite Hdb2; exact Hi) Hdb')
      as [Hci Hcj].
    assert (Hcj' : ∀ j, j ≠ i → codec_of st' j = codec_of st j).
    { intros j Hj. rewrite Hcj by assumption. unfold codec_of.
      rewrite Hdb2. reflexivity. }
    set (F := footprint_of st i ∪ {[ b ]} ∪ ptr_set buf ∪ {[ c ]}).
    assert (HsepF : ∀ j, j ≠ i → footprint_of st j ## F).
    { intros j Hj.
      pose proof (others_disjoint st i ({[ b ]} ∪ ptr_set buf) Howned) as Hd.
      specialize (Hfree j). unfold F.
      assert (Hd' : footprint_of st j ##
                    footprint_of st i ∪ ({[b]} ∪ ptr_set buf)).
      { apply Hd; [|assumption]. intros l Hl.
        apply elem_of_union in Hl as [Hl | Hl].
        - apply elem_of_singleton in Hl as ->. assumption.
        - apply elem_of_ptr_set in Hl. apply (Hbuf l Hl). }
      set_solver. }
    assert (HframeF : frame F (heap st) (heap st')).
    { intros l o Hl Ho. exists o. split; [|apply preserved_refl].
      apply Hkept; [|assumption]. unfold F in Hl. set_solver. }
    assert (Hc' : heap st' !! c = Some (SQLiteCipherContext key))
      by (apply Hkept; [apply Hfree | assumption]).
    assert (Hnewok : ∀ b', codec_of st' i = Some b' →
              ∃ blk, heap st' !! b' = Some (CryptBlock blk) ∧
                     block_ok (heap st') blk ∧ footprint b' blk ⊆ F).
    { intros b' Hb'. rewrite Hci in Hb'. cbn [pCodec] in Hb'.
      injection Hb' as <-. eexists. split; [exact Hblock|]. split.
      - split; [|split].
        + intros c' [= <-]. eauto.
        + intros c' [= <-]. eauto.
        + intros s Hs. cbn [cryptBuffer] in Hs.
          destruct (Hbuf s Hs) as (Hsb & Hsfresh & data & Hdata).
          exists data. rewrite Hag; [assumption | | congruence].
          rewrite Hfp2. intros Hin.
          destruct (footprint_of_live st i s Howned Hin) as [o Ho].
          congruence.
      - unfold F, footprint. cbn [readCtx writeCtx cryptBuffer ptr_set].
        set_solver. }
    split; [|split; [exact Hkept | split; [exact Hcj'|split]]].
    + split; [|split].
      * rewrite Hdb', length_insert, Hdb2. assumption.
      * apply (owned_update st st' i F); assumption.
      * apply (same_keys_update st st' i F Howned Hcj' HsepF HframeF None None);
          [assumption | auto |].
        intros b' blk' [Hb' Hblk'] _. rewrite Hci in Hb'.
        cbn [pCodec] in Hb'. injection Hb' as <-.
        rewrite Hblock in Hblk'. injection Hblk' as <-. reflexivity.
    + intros _. exists pg, b, buf. rewrite Hci. auto.
    + reflexivity.
  - exists st2, SQLITE_NOMEM. split; [reflexivity|]. split; [assumption|].
    split; [|split; [|split]].
    + intros l o _ Ho. eapply lookup_weaken; eassumption.
    + intros j _. unfold codec_of. rewrite Hdb2. reflexivity.
    + unfold SQLITE_NOMEM, SQLITE_OK. discriminate.
    + intros H2 Hpos. exfalso. apply (Hsucc H2 (Hpos pg eq_refl)). reflexivity.
Qed.

(** * Attach keeps the invariant *)

Lemma malloc_succeeds_le k st h d :
  malloc_succeeds (S k) st → malloc_succeeds k (mkState h d (malloc_ok st)).
Proof.
  unfold malloc_succeeds. cbn [malloc_ok]. intros H.
  apply Forall_forall. intros ok Hok.
  rewrite Forall_forall in H. apply H.
  apply elem_of_take in Hok as (n & Hn & Hlt).
  apply elem_of_take. exists n. split; [assumption | lia].
Qed.

(** The result when a call returns NULL without allocating. *)
Ltac unchanged_state :=
  eexists _, _; split; [reflexivity|]; cbn [heap aDb];
  split; [reflexivity|]; split; [reflexivity|]; split; [reflexivity|];
  split; [discriminate|]; intros k Hk;
  split; [apply (malloc_succeeds_le k _ _ _ Hk) | auto].

Lemma CipherContextNew_cases st pKey n :
  (∀ bytes, pKey = Some bytes → n ≤ Z.of_nat (length bytes)) →
  ∃ st' p,
    CipherContextNew pKey n st = Some (st', p) ∧
    aDb st' = aDb st ∧ heap st ⊆ heap st' ∧
    (p = NULL → heap st' = heap st) ∧
    (∀ l, p = Some l →
       heap st !! l = None ∧
       ∃ bytes, pKey = Some bytes ∧ 0 < n ∧
         heap st' = <[l := SQLiteCipherContext (derived_key bytes n)]> (heap st)) ∧
    (∀ k, malloc_succeeds (S k) st →
       malloc_succeeds k st' ∧ (p = NULL → pKey = None ∨ n ≤ 0)).
Proof.
  intros Hlen. destruct st as [h d ok]. unfold CipherContextNew.
  destruct pKey as [bytes|]; [|unchanged_state].
  assert (Hnone : bool_decide (Some bytes = None) = false) by reflexivity.
  rewrite Hnone. cbn [orb negb andb].
  destruct (n <=? 0) eqn:E; [apply Z.leb_le in E; unchanged_state|].
  apply Z.leb_gt in E. destruct (0 <? n) eqn:E0; [|lia].
  destruct (sqlite3_malloc_cases sizeof_SQLiteCipherContext
              (SQLiteCipherContext (repeat 0 8)) h d ok)
    as [(ok' & -> & Hk) | (l & Hl & _ & -> & Hk)].
  - eexists _, _. split; [reflexivity|]. cbn [heap aDb].
    split; [reflexivity|]. split; [reflexivity|]. split; [reflexivity|].
    split; [discriminate|]. intros k Hk'. destruct (Hk k Hk') as [Hsz _].
    unfold sizeof_SQLiteCipherContext in Hsz. lia.
  - specialize (Hlen bytes eq_refl). cbn [mbind option_bind].
    destruct (Z.of_nat (length bytes) <? n) eqn:E'; [lia|].
    eexists _, _. split; [reflexivity|]. unfold set_heap. cbn [heap aDb].
    rewrite insert_insert_eq.
    split; [reflexivity|]. split; [apply insert_subseteq; assumption|].
    split; [discriminate|]. split.
    + intros l' [= <-]. split; [assumption|]. exists bytes.
      split; [reflexivity|]. split; [assumption | reflexivity].
    + intros k Hk'. split; [|discriminate].
      specialize (Hk k Hk'). unfold malloc_succeeds in *. exact Hk.
Qed.

Lemma CipherContextClone_cases st c key :
  heap st !! c = Some (SQLiteCipherContext key) →
  ∃ st' p,
    CipherContextClone (Some c) st = Some (st', p) ∧
    aDb st' = aDb st ∧ heap st ⊆ heap st' ∧
    (p = NULL → heap st' = heap st) ∧
    (∀ l, p = Some l →
       heap st !! l = None ∧
       heap st' = <[l := SQLiteCipherContext key]> (heap st)) ∧
    (∀ k, malloc_succeeds (S k) st → malloc_succeeds k st' ∧ p ≠ NULL).
Proof.
  intros Hc. destruct st as [h d ok]. cbn [heap] in Hc.
  unfold CipherContextClone.
  destruct (sqlite3_malloc_cases sizeof_SQLiteCipherContext
              (SQLiteCipherContext (repeat 0 8)) h d ok)
    as [(ok' & -> & Hk) | (l & Hl & _ & -> & Hk)].
  - eexists _, _. split; [reflexivity|]. cbn [heap aDb].
    split; [reflexivity|]. split; [reflexivity|]. split; [reflexivity|].
    split; [discriminate|]. intros k Hk'. destruct (Hk k Hk') as [Hsz _].
    unfold sizeof_SQLiteCipherContext in Hsz. lia.
  - cbn [heap]. rewrite (load_ctx_Some _ c key)
      by (rewrite lookup_insert_ne by congruence; assumption).
    cbn [mbind option_bind]. eexists _, _. split; [reflexivity|].
    unfold set_heap. cbn [heap aDb]. rewrite insert_insert_eq.
    split; [reflexivity|]. split; [apply insert_subseteq; assumption|].
    split; [discriminate|]. split.
    + intros l' [= <-]. auto.
    + intros k Hk'. split; [|discriminate].
      specialize (Hk k Hk'). unfold malloc_succeeds in *. exact Hk.
Qed.

(** Attach with a context allocated just before, which no block owns. *)
Lemma attach_new_context st st1 nDb l key :
  wf st → aDb st1 = aDb st → heap st !! l = None →
  heap st1 = <[l := SQLiteCipherContext key]> (heap st) →
  0 ≤ nDb < Z.of_nat (length (aDb st)) →
  ∃ st' rc,
    attach_block nDb (Some l) st1 = Some (st', rc) ∧ wf st' ∧
    (∀ l' o, l' ∉ footprint_of st (Z.to_nat nDb) →
       heap st !! l' = Some o → heap st' !! l' = Some o) ∧
    (∀ j, j ≠ Z.to_nat nDb → codec_of st' j = codec_of st j) ∧
    (rc = SQLITE_OK →
       ∃ pg b buf,
         aDb st !! Z.to_nat nDb = Some pg ∧
         codec_of st' (Z.to_nat nDb) = Some b ∧ heap st !! b = None ∧
         b ≠ l ∧
         heap st' !! b =
           Some (CryptBlock (mkBlock (Z.to_nat nDb) (pager_pageSize pg)
                               (Some l) (Some l) buf)) ∧
         (0 < pager_pageSize pg → buf ≠ NULL) ∧
         heap st' !! l = Some (SQLiteCipherContext key)) ∧
    (malloc_succeeds 2 st1 →
     (∀ pg, aDb st !! Z.to_nat nDb = Some pg → 0 < pager_pageSize pg) →
     rc = SQLITE_OK).
Proof.
  intros Hwf Hdb Hl Hheap Hn.
  assert (Hsub : heap st ⊆ heap st1).
  { rewrite Hheap. apply insert_subseteq. assumption. }
  pose proof (wf_extend st st1 Hwf Hdb Hsub) as Hwf1.
  destruct Hwf as (Hlen & Howned & Hsame).
  assert (Hfp : ∀ j, footprint_of st1 j = footprint_of st j)
    by (intros j; apply footprint_of_extend; assumption).
  assert (Hl1 : heap st1 !! l = Some (SQLiteCipherContext key))
    by (rewrite Hheap; apply lookup_insert_eq).
  destruct (attach_block_ok st1 nDb l key Hwf1 Hl1)
    as (st' & rc & Hrun & Hwf' & Hkept & Hcodec & Hok & Hsucc).
  { intros j. rewrite Hfp. intros Hin.
    destruct (footprint_of_live st j l Howned Hin) as [o Ho]. congruence. }
  { rewrite Hdb. assumption. }
  exists st', rc. split; [exact Hrun|]. split; [exact Hwf'|].
  assert (Hkept' : ∀ l' o, l' ∉ footprint_of st (Z.to_nat nDb) →
            heap st !! l' = Some o → heap st' !! l' = Some o).
  { intros l' o Hl' Ho. apply Hkept; [rewrite Hfp; assumption|].
    eapply lookup_weaken; eassumption. }
  split; [exact Hkept'|]. split.
  { intros j Hj. rewrite (Hcodec j Hj). unfold codec_of. rewrite Hdb.
    reflexivity. }
  split.
  - intros Hrc. destruct (Hok Hrc) as (pg & b & buf & Hpg & Hc & Hb & Hblk & Hbuf).
    exists pg, b, buf. rewrite <- Hdb. split; [assumption|].
    split; [assumption|]. split.
    { rewrite Hheap in Hb. apply lookup_insert_None in Hb. tauto. }
    split; [congruence|]. split; [assumption|]. split; [assumption|].
    apply Hkept; [|assumption]. rewrite Hfp. intros Hin.
    destruct (footprint_of_live st _ l Howned Hin) as [o Ho]. congruence.
  - intros H2 Hpos. apply Hsucc; [assumption|]. rewrite Hdb. assumption.
Qed.

(** Attach returns, and keeps the invariant, for every database index in
    range and every key of which [nKeyLen] bytes can be read. *)
Lemma sqlite3CodecAttach_wf st nDb pKey nKeyLen :
  wf st → 0 ≤ nDb < Z.of_nat (length (aDb st)) →
  readable pKey nKeyLen →
  ∃ st' rc, sqlite3CodecAttach nDb pKey nKeyLen st = Some (st', rc) ∧ wf st'.
Proof.
  intros Hwf Hn Hkey. unfold sqlite3CodecAttach.
  destruct (bool_decide (pKey = None) || (nKeyLen =? 0)) eqn:Enokey.
  - destruct (nDb =? 0); [eauto|].
    pose proof Hwf as (Hlen & [Hlive _] & _).
    destruct (lookup_lt_is_Some_2 (aDb st) 0%nat Hlen) as [pg0 Hpg0].
    rewrite Hpg0. cbn [mbind option_bind]. unfold sqlite3PagerGetCodec.
    destruct (pCodec pg0) as [b0|] eqn:Hc0; [|eauto].
    destruct (Hlive 0%nat b0) as (blk0 & Hb0 & Hr0 & _).
    { rewrite (codec_of_Some st 0%nat pg0 Hpg0). assumption. }
    rewrite (load_block_Some _ b0 blk0 Hb0). cbn [mbind option_bind].
    destruct (readCtx blk0) as [c0|] eqn:Hrd; [|eauto].
    destruct (Hr0 c0 eq_refl) as [key0 Hkey0].
    destruct (CipherContextClone_cases st c0 key0 Hkey0)
      as (st1 & p & -> & Hdb1 & Hsub1 & _ & Hp & _).
    cbn [mbind option_bind]. destruct p as [l|].
    + destruct (Hp l eq_refl) as [Hl Hheap1].
      destruct (attach_new_context st st1 nDb l key0 Hwf Hdb1 Hl Hheap1 Hn)
        as (st' & rc & -> & Hwf' & _). eauto.
    + eexists _, _. split; [reflexivity|]. eapply wf_extend; eassumption.
  - destruct (CipherContextNew_cases st pKey nKeyLen Hkey)
      as (st1 & p & -> & Hdb1 & Hsub1 & _ & Hp & _).
    cbn [mbind option_bind]. destruct p as [l|].
    + destruct (Hp l eq_refl) as (Hl & bytes & _ & _ & Hheap1).
      destruct (attach_new_context st st1 nDb l _ Hwf Hdb1 Hl Hheap1 Hn)
        as (st' & rc & -> & Hwf' & _). eauto.
    + eexists _, _. split; [reflexivity|]. eapply wf_extend; eassumption.
Qed.

(** * Attach without a key *)

(** C8: attach with no key on the primary database (index 0) returns
    SQLITE_OK and changes nothing; attach with no key on a secondary
    database returns SQLITE_OK and changes nothing when the primary has
    no crypto block or no read key.  Otherwise, in a connection at rest,
    with memory available and a positive page size, it registers for the
    secondary database a new crypto block whose read key and write key
    are one new context, holding the same key bytes as the primary's read
    key at another location: the primary's block and context are as
    before, and overwriting or freeing either context leaves the other
    as it is. *)
Theorem attach_without_key :
  (∀ st pKey nKeyLen,
     pKey = None ∨ nKeyLen = 0 →
     sqlite3CodecAttach 0 pKey nKeyLen st = Some (st, SQLITE_OK)) ∧
  (∀ st nDb pKey nKeyLen pg0,
     pKey = None ∨ nKeyLen = 0 → nDb ≠ 0 → aDb st !! 0%nat = Some pg0 →
     (pCodec pg0 = NULL ∨
      ∃ b0 blk0, pCodec pg0 = Some b0 ∧
                 heap st !! b0 = Some (CryptBlock blk0) ∧
                 readCtx blk0 = NULL) →
     sqlite3CodecAttach nDb pKey nKeyLen st = Some (st, SQLITE_OK)) ∧
  (∀ st nDb pKey nKeyLen b0 blk0 c0 key0,
     wf st → pKey = None ∨ nKeyLen = 0 →
     0 < nDb < Z.of_nat (length (aDb st)) →
     registered st 0 b0 blk0 → readCtx blk0 = Some c0 →
     heap st !! c0 = Some (SQLiteCipherContext key0) →
     malloc_succeeds 3 st →
     (∀ pg, aDb st !! Z.to_nat nDb = Some pg → 0 < pager_pageSize pg) →
     ∃ st' pg b c s data,
       sqlite3CodecAttach nDb pKey nKeyLen st = Some (st', SQLITE_OK) ∧
       aDb st !! Z.to_nat nDb = Some pg ∧
       codec_of st' (Z.to_nat nDb) = Some b ∧
       heap st' !! b =
         Some (CryptBlock (mkBlock (Z.to_nat nDb) (pager_pageSize pg)
                             (Some c) (Some c) (Some s))) ∧
       heap st' !! s = Some (Bytes data) ∧
       heap st' !! c = Some (SQLiteCipherContext key0) ∧
       c ≠ c0 ∧
       registered st' 0 b0 blk0 ∧
       heap st' !! c0 = Some (SQLiteCipherContext key0) ∧
       (∀ o, <[c := o]> (heap st') !! c0 = Some (SQLiteCipherContext key0)) ∧
       (∀ o, <[c0 := o]> (heap st') !! c = Some (SQLiteCipherContext key0)) ∧
       (∃ h, sqlite3_free (Some c) (heap st') = Some h ∧
             h !! c0 = Some (SQLiteCipherContext key0)) ∧
       (∃ h, sqlite3_free (Some c0) (heap st') = Some h ∧
             h !! c = Some (SQLiteCipherContext key0))).
Proof.
  assert (Hnokey : ∀ (pKey : option (list Z)) nKeyLen,
            pKey = None ∨ nKeyLen = 0 →
            bool_decide (pKey = None) || (nKeyLen =? 0) = true).
  { intros pKey nKeyLen [-> | ->]; [reflexivity|].
    rewrite Z.eqb_refl. apply orb_true_r. }
  split; [|split].
  - intros st pKey nKeyLen Hk. unfold sqlite3CodecAttach.
    rewrite (Hnokey _ _ Hk). reflexivity.
  - intros st nDb pKey nKeyLen pg0 Hk Hn Hpg0 Hplain.
    unfold sqlite3CodecAttach. rewrite (Hnokey _ _ Hk).
    destruct (nDb =? 0) eqn:E; [lia|]. rewrite Hpg0.
    cbn [mbind option_bind]. unfold sqlite3PagerGetCodec.
    destruct Hplain as [-> | (b0 & blk0 & -> & Hb0 & Hrd)]; [reflexivity|].
    rewrite (load_block_Some _ b0 blk0 Hb0). cbn [mbind option_bind].
    rewrite Hrd. reflexivity.
  - intros st nDb pKey nKeyLen b0 blk0 c0 key0 Hwf Hk Hn [Hc0 Hb0] Hrd Hkey0
      Hmem Hpos.
    set (i := Z.to_nat nDb) in *.
    assert (Hi : i ≠ 0%nat) by (unfold i; lia).
    unfold sqlite3CodecAttach. rewrite (Hnokey _ _ Hk).
    destruct (nDb =? 0) eqn:E; [lia|].
    unfold codec_of in Hc0. destruct (aDb st !! 0%nat) as [pg0|] eqn:Hpg0;
      [|discriminate]. cbn [mbind option_bind] in Hc0 |- *.
    unfold sqlite3PagerGetCodec. rewrite Hc0.
    rewrite (load_block_Some _ b0 blk0 Hb0). cbn [mbind option_bind].
    rewrite Hrd.
    destruct (CipherContextClone_cases st c0 key0 Hkey0)
      as (st1 & p & -> & Hdb1 & Hsub1 & _ & Hp & Hmem1).
    cbn [mbind option_bind]. destruct (Hmem1 2%nat Hmem) as [Hmem2 Hpnn].
    destruct p as [c|]; [|exfalso; apply Hpnn; reflexivity].
    destruct (Hp c eq_refl) as [Hc Hheap1].
    destruct (attach_new_context st st1 nDb c key0 Hwf Hdb1 Hc Hheap1)
      as (st' & rc & -> & Hwf' & Hkept & Hcodec & Hok & Hsucc); [lia|].
    fold i in Hkept, Hcodec, Hok, Hsucc.
    specialize (Hsucc Hmem2 Hpos). subst rc.
    destruct (Hok eq_refl) as (pg & b & buf & Hpg & Hcb & Hbfresh & Hbc & Hblk
                               & Hbuf & Hc').
    destruct buf as [s|]; [|exfalso; apply (Hbuf (Hpos pg Hpg)); reflexivity].
    destruct Hwf' as (_ & [Hlive' _] & _).
    destruct (Hlive' i b Hcb) as (blk' & Hblk' & _ & _ & Hbuf').
    rewrite Hblk in Hblk'. injection Hblk' as <-.
    destruct (Hbuf' s eq_refl) as [data Hdata].
    assert (Hcc0 : c ≠ c0) by congruence.
    destruct Hwf as (Hlen & Howned & Hsame).
    assert (Hreg0 : registered st 0 b0 blk0).
    { split; [|assumption]. unfold codec_of. rewrite Hpg0. assumption. }
    pose proof (others_disjoint st i ∅ Howned ltac:(set_solver) 0%nat
                  ltac:(congruence)) as Hdisj.
    rewrite (footprint_of_registered st 0 b0 blk0 Hreg0) in Hdisj.
    assert (Hb0' : heap st' !! b0 = Some (CryptBlock blk0)).
    { apply Hkept; [|assumption]. intros Hin.
      apply (Hdisj b0); [apply elem_of_footprint; auto | set_solver]. }
    assert (Hc0' : heap st' !! c0 = Some (SQLiteCipherContext key0)).
    { apply Hkept; [|assumption]. intros Hin.
      apply (Hdisj c0); [apply elem_of_footprint; auto | set_solver]. }
    exists st', pg, b, c, s, data. split; [reflexivity|].
    split; [assumption|]. split; [assumption|]. split; [assumption|].
    split; [assumption|]. split; [assumption|]. split; [assumption|].
    split.
    { split; [|assumption]. rewrite Hcodec by congruence.
      destruct Hreg0; assumption. }
    split; [assumption|]. split.
    { intros o. rewrite lookup_insert_ne by congruence. assumption. }
    split.
    { intros o. rewrite lookup_insert_ne by congruence. assumption. }
    split.
    + simpl. rewrite Hc'. eexists. split; [reflexivity|].
      rewrite lookup_delete_ne by congruence. assumption.
    + simpl. rewrite Hc0'. eexists. split; [reflexivity|].
      rewrite lookup_delete_ne by congruence. assumption.
Qed.

(** * Rekey keeps the invariant *)

Lemma registered_footprint_disjoint st i :
  owned st → ∀ j, j ≠ i → footprint_of st j ## footprint_of st i.
Proof.
  intros Howned j Hj.
  pose proof (others_disjoint st i ∅ Howned ltac:(set_solver) j Hj).
  set_solver.
Qed.

(** The end of a rekey: one of the two key contexts of the primary's
    block is freed and the other becomes both read key and write key. *)
Lemma rekey_settle st b blk freed kept :
  (0 < length (aDb st))%nat → owned st → same_keys_except (Some 0%nat) st →
  registered st 0 b blk →
  (freed = readCtx blk ∧ kept = writeCtx blk) ∨
  (freed = writeCtx blk ∧ kept = readCtx blk) →
  (∀ c, freed = Some c → kept ≠ Some c) →
  ∃ h1,
    sqlite3_free freed (heap st) = Some h1 ∧
    let blk1 := mkBlock (pager blk) (pageSize blk) kept kept (cryptBuffer blk) in
    let st1 := set_heap (store_block h1 b blk1) st in
    wf st1 ∧ registered st1 0 b blk1.
Proof.
  intros Hlen Howned Hsame Hreg Hsides Hdistinct.
  pose proof Hreg as [Hcodec Hb].
  destruct Howned as [Hlive Hdisj].
  destruct (Hlive 0%nat b Hcodec) as (blk0 & Hb0 & Hok).
  rewrite Hb in Hb0. injection Hb0 as <-.
  pose proof Hok as (Hrd & Hwr & Hbuf).
  assert (Hfreed : is_context (heap st) freed ∧ is_context (heap st) kept).
  { destruct Hsides as [[-> ->] | [-> ->]]; auto. }
  destruct Hfreed as [Hfreed Hkept].
  destruct (sqlite3_free_ok (heap st) freed) as (h1 & Hfree & Hag & _).
  { intros c Hc. destruct (Hfreed c Hc) as [key ->]. eauto. }
  exists h1. split; [exact Hfree|]. cbv zeta.
  set (blk1 := mkBlock (pager blk) (pageSize blk) kept kept (cryptBuffer blk)).
  set (st1 := set_heap (store_block h1 b blk1) st).
  set (F := footprint b blk).
  assert (HfreedF : ∀ c, freed = Some c → c ∈ F).
  { intros c Hc. apply elem_of_footprint.
    destruct Hsides as [[-> _] | [-> _]]; auto. }
  assert (HkeptF : ∀ c, kept = Some c → c ∈ F).
  { intros c Hc. apply elem_of_footprint.
    destruct Hsides as [[_ ->] | [_ ->]]; auto. }
  assert (Hothers : ∀ j, j ≠ 0%nat → codec_of st1 j = codec_of st j)
    by reflexivity.
  assert (Hsep : ∀ j, j ≠ 0%nat → footprint_of st j ## F).
  { intros j Hj. unfold F.
    rewrite <- (footprint_of_registered st 0 b blk Hreg).
    apply registered_footprint_disjoint; [split|]; assumption. }
  assert (Hframe : frame F (heap st) (heap st1)).
  { unfold st1, set_heap, store_block. cbn [heap].
    eapply frame_trans; [|apply frame_insert, elem_of_footprint; auto].
    apply frame_agree. intros l Hl. apply Hag. intros Hc.
    apply Hl, HfreedF, Hc. }
  assert (Hb1 : heap st1 !! b = Some (CryptBlock blk1))
    by apply lookup_insert_eq.
  assert (Hkeep : ∀ l o, heap st !! l = Some o → l ≠ b → freed ≠ Some l →
            heap st1 !! l = Some o).
  { intros l o Ho Hlb Hlf. unfold st1, set_heap, store_block. cbn [heap].
    rewrite lookup_insert_ne by congruence. rewrite Hag; assumption. }
  assert (Hok1 : block_ok (heap st1) blk1).
  { assert (Hctx : is_context (heap st1) kept).
    { intros c Hc. destruct (Hkept c Hc) as [key Hkey]. exists key.
      apply Hkeep; [assumption | congruence |].
      intros Hf. apply (Hdistinct c Hf Hc). }
    split; [exact Hctx | split; [exact Hctx|]].
    intros s0 Hs0. cbn [cryptBuffer blk1] in Hs0.
    destruct (Hbuf s0 Hs0) as [data Hdata]. exists data.
    apply Hkeep; [assumption | congruence |].
    intros Hf. destruct (Hfreed s0 Hf) as [key Hkey]. congruence. }
  assert (Hnew : ∀ b', codec_of st1 0 = Some b' →
            ∃ blk', heap st1 !! b' = Some (CryptBlock blk') ∧
                    block_ok (heap st1) blk' ∧ footprint b' blk' ⊆ F).
  { intros b' Hb'. change (codec_of st1 0) with (codec_of st 0) in Hb'.
    rewrite Hcodec in Hb'. injection Hb' as <-.
    exists blk1. split; [assumption|]. split; [assumption|].
    intros l Hl. apply elem_of_footprint in Hl. cbn in Hl.
    destruct Hl as [-> | [Hl | [Hl | Hl]]].
    - apply elem_of_footprint. auto.
    - apply HkeptF, Hl.
    - apply HkeptF, Hl.
    - apply elem_of_footprint. auto. }
  split; [|split; assumption].
  split; [assumption|]. split.
  - apply (owned_update st st1 0%nat F); try assumption. split; assumption.
  - apply (same_keys_update st st1 0%nat F ltac:(split; assumption)
             Hothers Hsep Hframe (Some 0%nat) None); [assumption | auto |].
    intros b' blk' [Hc' Hb'] _.
    change (codec_of st1 0) with (codec_of st 0) in Hc'.
    rewrite Hcodec in Hc'. injection Hc' as <-.
    rewrite Hb1 in Hb'. injection Hb' as <-. reflexivity.
Qed.

(** Removing the codec of the primary database. *)
Lemma remove_codec_wf st :
  wf st →
  ∃ st', sqlite3PagerSetCodec 0 NULL st = Some st' ∧ wf st'.
Proof.
  intros (Hlen & Howned & Hsame).
  destruct (lookup_lt_is_Some_2 (aDb st) 0%nat Hlen) as [pg Hpg].
  destruct (sqlite3PagerSetCodec_ok st 0%nat pg NULL Howned Hpg)
    as (st' & Hrun & Hdb' & Hag & _); [discriminate|].
  exists st'. split; [exact Hrun|].
  destruct (codec_of_insert st st' 0%nat _ Hlen Hdb') as [Hc0 Hcj].
  cbn [pCodec] in Hc0.
  assert (Hsep : ∀ j, j ≠ 0%nat → footprint_of st j ## footprint_of st 0)
    by (apply registered_footprint_disjoint; assumption).
  assert (Hframe : frame (footprint_of st 0) (heap st) (heap st')).
  { apply frame_agree. intros l Hl. apply Hag; [assumption | discriminate]. }
  split; [rewrite Hdb', length_insert; assumption|]. split.
  - apply (owned_update st st' 0%nat (footprint_of st 0)); try assumption.
    intros b Hb. rewrite Hc0 in Hb. discriminate.
  - apply (same_keys_update st st' 0%nat (footprint_of st 0) Howned Hcj
             Hsep Hframe None None); [assumption | auto |].
    intros b blk [Hb _]. rewrite Hc0 in Hb. discriminate.
Qed.

(** From an in-flight state, where the two keys of the primary's block
    are different contexts or absent, the rewrite returns to a state at
    rest for every outcome of the host's operations. *)
Lemma rekey_rewrite_ok host st b blk :
  (0 < length (aDb st))%nat → owned st → same_keys_except (Some 0%nat) st →
  registered st 0 b blk →
  (∀ c, readCtx blk = Some c → writeCtx blk ≠ Some c) →
  ∃ st' rc calls, rekey_rewrite host b st = Some (st', rc, calls) ∧ wf st'.
Proof.
  intros Hlen Howned Hsame Hreg Hdistinct. unfold rekey_rewrite.
  destruct (if BtreeBeginTrans host =? SQLITE_OK then _ else _) as [rc0 calls0].
  destruct (if rc0 =? SQLITE_OK then _ else _) as [rc calls].
  destruct Hreg as [Hcodec Hb].
  rewrite (load_block_Some _ b blk Hb). cbn [mbind option_bind].
  assert (Hfinish : ∀ st1 blk1,
            wf st1 → registered st1 0 b blk1 →
            ∃ st',
              (if bool_decide (readCtx blk1 = NULL ∧ writeCtx blk1 = NULL)
               then sqlite3PagerSetCodec 0 NULL st1 else Some st1) = Some st' ∧
              wf st').
  { intros st1 blk1 Hwf1 Hreg1. case_bool_decide.
    - apply remove_codec_wf. assumption.
    - eauto. }
  destruct (rc =? SQLITE_OK).
  - destruct (rekey_settle st b blk (readCtx blk) (writeCtx blk) Hlen Howned
                Hsame ltac:(split; assumption) ltac:(auto) Hdistinct)
      as (h1 & -> & Hwf1 & Hreg1).
    cbn [mbind option_bind]. unfold set_readCtx.
    destruct (Hfinish _ _ Hwf1 Hreg1) as (st' & Hrun & Hwf').
    cbn [readCtx writeCtx] in Hrun |- *. rewrite Hrun.
    cbn [mbind option_bind]. eauto.
  - destruct (rekey_settle st b blk (writeCtx blk) (readCtx blk) Hlen Howned
                Hsame ltac:(split; assumption) ltac:(auto))
      as (h1 & -> & Hwf1 & Hreg1).
    { intros c Hw Hr. apply (Hdistinct c Hr Hw). }
    cbn [mbind option_bind]. unfold set_writeCtx.
    destruct (Hfinish _ _ Hwf1 Hreg1) as (st' & Hrun & Hwf').
    cbn [readCtx writeCtx] in Hrun |- *. rewrite Hrun.
    cbn [mbind option_bind]. eauto.
Qed.

(** Rekey returns, and keeps the invariant, for every key of which
    [nKey] bytes can be read and every outcome of the host's operations
    and of the allocations. *)
Lemma sqlite3_rekey_v2_wf host st pKey nKey :
  wf st → readable pKey nKey →
  ∃ st' rc calls,
    sqlite3_rekey_v2 host pKey nKey st = Some (st', rc, calls) ∧ wf st'.
Proof.
  intros Hwf Hkey. pose proof Hwf as (Hlen & Howned & Hsame).
  unfold sqlite3_rekey_v2.
  destruct (lookup_lt_is_Some_2 (aDb st) 0%nat Hlen) as [p Hp].
  rewrite Hp. cbn [mbind option_bind]. unfold sqlite3PagerGetCodec.
  destruct (CipherContextNew_cases st pKey nKey Hkey)
    as (st1 & ctx & -> & Hdb1 & Hsub1 & _ & Hctx & _).
  cbn [mbind option_bind].
  assert (Hctx_fresh : ∀ l, l ∈ ptr_set ctx → heap st !! l = None).
  { intros l Hl. apply elem_of_ptr_set in Hl. apply (Hctx l Hl). }
  assert (Hctx_live : is_context (heap st1) ctx).
  { intros l Hl. destruct (Hctx l Hl) as (_ & bytes & _ & _ & ->).
    eexists. apply lookup_insert_eq. }
  pose proof (codec_of_Some st 0%nat p Hp) as Hcodec.
  destruct (pCodec p) as [b|] eqn:Hpc.
  - (* the database is encrypted: change the write key *)
    destruct Howned as [Hlive Hdisj].
    destruct (Hlive 0%nat b Hcodec) as (blk & Hb & Hok).
    pose proof Hok as (Hrd & Hwr & Hbuf).
    assert (Hb1 : heap st1 !! b = Some (CryptBlock blk))
      by (eapply lookup_weaken; eassumption).
    rewrite (load_block_Some _ b blk Hb1). cbn [mbind option_bind].
    set (blk2 := set_writeCtx ctx blk).
    set (st2 := set_heap (store_block (heap st1) b blk2) st1).
    assert (Hreg : registered st 0 b blk) by (split; assumption).
    set (F := footprint_of st 0 ∪ ptr_set ctx).
    assert (Hothers : ∀ j, j ≠ 0%nat → codec_of st2 j = codec_of st j).
    { intros j _. unfold codec_of, st2. cbn [aDb set_heap]. rewrite Hdb1.
      reflexivity. }
    assert (Hsep : ∀ j, j ≠ 0%nat → footprint_of st j ## F)
      by (apply others_disjoint; [split|]; assumption).
    assert (HbF : b ∈ F).
    { unfold F. rewrite (footprint_of_registered st 0 b blk Hreg).
      apply elem_of_union_l, elem_of_footprint. auto. }
    assert (Hframe : frame F (heap st) (heap st2)).
    { eapply frame_trans; [apply frame_subseteq; exact Hsub1|].
      apply frame_insert. assumption. }
    assert (Hcodec2 : codec_of st2 0 = Some b).
    { unfold codec_of, st2. cbn [aDb set_heap]. rewrite Hdb1, Hp.
      assumption. }
    assert (Hb2 : heap st2 !! b = Some (CryptBlock blk2))
      by apply lookup_insert_eq.
    assert (Hkeep : ∀ l o, heap st1 !! l = Some o → l ≠ b →
              heap st2 !! l = Some o).
    { intros l o Ho Hlb. unfold st2, set_heap, store_block. cbn [heap].
      rewrite lookup_insert_ne by congruence. assumption. }
    assert (Hok2 : block_ok (heap st2) blk2).
    { split; [|split].
      - intros c Hc. destruct (Hrd c Hc) as [key Hkey']. exists key.
        apply Hkeep; [eapply lookup_weaken; eassumption | congruence].
      - intros c Hc. cbn [writeCtx blk2 set_writeCtx] in Hc.
        destruct (Hctx_live c Hc) as [key Hkey']. exists key.
        apply Hkeep; [assumption | congruence].
      - intros s0 Hs0. destruct (Hbuf s0 Hs0) as [data Hdata]. exists data.
        apply Hkeep; [eapply lookup_weaken; eassumption | congruence]. }
    assert (Hnew : ∀ b', codec_of st2 0 = Some b' →
              ∃ blk', heap st2 !! b' = Some (CryptBlock blk') ∧
                      block_ok (heap st2) blk' ∧ footprint b' blk' ⊆ F).
    { intros b' Hb'. rewrite Hcodec2 in Hb'. injection Hb' as <-.
      exists blk2. split; [assumption|]. split; [assumption|].
      unfold F. rewrite (footprint_of_registered st 0 b blk Hreg).
      unfold footprint. cbn [readCtx writeCtx cryptBuffer blk2 set_writeCtx].
      set_solver. }
    apply (rekey_rewrite_ok host st2 b blk2).
    + unfold st2. cbn [aDb set_heap]. rewrite Hdb1. assumption.
    + apply (owned_update st st2 0%nat F); try assumption. split; assumption.
    + apply (same_keys_update st st2 0%nat F ltac:(split; assumption)
               Hothers Hsep Hframe None (Some 0%nat)); [assumption | auto |].
      intros b' blk' _ Hne. congruence.
    + split; assumption.
    + intros c Hc Hw. cbn [readCtx writeCtx blk2 set_writeCtx] in Hc, Hw.
      destruct (Hrd c Hc) as [key Hkey']. destruct (Hctx c Hw) as [Hfresh _].
      congruence.
  - (* the database is not encrypted: create its block *)
    assert (Hp1 : aDb st1 !! 0%nat = Some p) by (rewrite Hdb1; assumption).
    destruct (CreateCodeCryptBlock_new st1 ctx 0%nat p Hp1)
      as (st2 & pb & -> & Hdb2 & Hsub2 & Hnewb & _).
    cbn [mbind option_bind].
    assert (Hsub : heap st ⊆ heap st2) by (etrans; eassumption).
    destruct pb as [b|].
    2: { eexists _, _, _. split; [reflexivity|].
         apply (wf_extend st st2 Hwf); [congruence | assumption]. }
    destruct (Hnewb b eq_refl) as (Hbfresh1 & buf & Hb2 & Hbuf & Hrest & _).
    rewrite (load_block_Some _ b _ Hb2). cbn [mbind option_bind].
    unfold set_readCtx. cbn [pager pageSize readCtx writeCtx cryptBuffer].
    set (blk3 := mkBlock 0 (pager_pageSize p) NULL ctx buf).
    set (st3 := set_heap (store_block (heap st2) b blk3) st2).
    assert (Hbfresh : heap st !! b = None).
    { destruct (heap st !! b) as [o|] eqn:Ho; [|reflexivity].
      rewrite (lookup_weaken _ _ _ _ Ho Hsub1) in Hbfresh1. discriminate. }
    assert (Hnone : footprint_of st 0 = ∅).
    { unfold footprint_of. rewrite Hcodec. reflexivity. }
    assert (Hcodec3 : ∀ j, codec_of st3 j = codec_of st j).
    { intros j. unfold codec_of, st3. cbn [aDb set_heap].
      rewrite Hdb2, Hdb1. reflexivity. }
    assert (Howned3 : owned st3).
    { apply (owned_update st st3 0%nat {[ b ]} Howned).
      - intros j _. apply Hcodec3.
      - intros j Hj.
        pose proof (others_disjoint st 0%nat {[ b ]} Howned) as Hd.
        rewrite Hnone in Hd. specialize (Hd ltac:(set_solver) j Hj).
        set_solver.
      - eapply frame_trans; [apply frame_subseteq; exact Hsub|].
        apply frame_insert. set_solver.
      - intros b'. rewrite Hcodec3, Hcodec. discriminate. }
    assert (Hp3 : aDb st3 !! 0%nat = Some p).
    { unfold st3. cbn [aDb set_heap]. rewrite Hdb2. assumption. }
    assert (Hb3 : heap st3 !! b = Some (CryptBlock blk3))
      by apply lookup_insert_eq.
    assert (Hnone3 : footprint_of st3 0 = ∅).
    { unfold footprint_of. rewrite Hcodec3, Hcodec. reflexivity. }
    destruct (sqlite3PagerSetCodec_ok st3 0%nat p (Some b) Howned3 Hp3)
      as (st4 & -> & Hdb4 & Hag4 & Hblock4).
    { intros b' [= <-]. rewrite Hnone3. split; [set_solver | eauto]. }
    cbn [mbind option_bind].
    specialize (Hblock4 b blk3 eq_refl Hb3).
    unfold set_pageSize in Hblock4.
    cbn [pager pageSize readCtx writeCtx cryptBuffer blk3] in Hblock4.
    fold blk3 in Hblock4.
    assert (Hkeep4 : ∀ l o, heap st2 !! l = Some o → l ≠ b →
              heap st4 !! l = Some o).
    { intros l o Ho Hlb. rewrite Hag4; [| rewrite Hnone3; set_solver
                                        | congruence].
      unfold st3, set_heap, store_block. cbn [heap].
      rewrite lookup_insert_ne by congruence. assumption. }
    assert (Hlen3 : (0 < length (aDb st3))%nat).
    { unfold st3. cbn [aDb set_heap]. rewrite Hdb2, Hdb1. assumption. }
    destruct (codec_of_insert st3 st4 0%nat _ Hlen3 Hdb4) as [Hc4 Hcj4].
    cbn [pCodec] in Hc4.
    set (F := {[ b ]} ∪ ptr_set buf ∪ ptr_set ctx).
    assert (Hothers : ∀ j, j ≠ 0%nat → codec_of st4 j = codec_of st j).
    { intros j Hj. rewrite Hcj4 by assumption. apply Hcodec3. }
    assert (HF_fresh : ∀ l, l ∈ F → heap st !! l = None).
    { intros l Hl. unfold F in Hl.
      apply elem_of_union in Hl as [Hl | Hl]; [|apply Hctx_fresh, Hl].
      apply elem_of_union in Hl as [Hl | Hl].
      - apply elem_of_singleton in Hl as ->. assumption.
      - apply elem_of_ptr_set in Hl.
        destruct (Hbuf l Hl) as (_ & Hs1 & _).
        destruct (heap st !! l) as [o|] eqn:Ho; [|reflexivity].
        rewrite (lookup_weaken _ _ _ _ Ho Hsub1) in Hs1. discriminate. }
    assert (Hsep : ∀ j, j ≠ 0%nat → footprint_of st j ## F).
    { intros j Hj.
      pose proof (others_disjoint st 0%nat F Howned HF_fresh j Hj) as Hd.
      rewrite Hnone in Hd. set_solver. }
    assert (Hframe : frame F (heap st) (heap st4)).
    { intros l o Hl Ho. exists o. split; [|apply preserved_refl].
      apply Hkeep4; [eapply lookup_weaken; eassumption|].
      intros ->. apply Hl. unfold F. set_solver. }
    assert (Hok4 : block_ok (heap st4) blk3).
    { split; [|split].
      - intros c Hc. discriminate.
      - intros c Hc. cbn [writeCtx blk3] in Hc.
        destruct (Hctx_live c Hc) as [key Hkey']. exists key.
        apply Hkeep4; [eapply lookup_weaken; eassumption | congruence].
      - intros s0 Hs0. cbn [cryptBuffer blk3] in Hs0.
        destruct (Hbuf s0 Hs0) as (Hsb & _ & data & Hdata). exists data.
        apply Hkeep4; assumption. }
    assert (Hnew : ∀ b', codec_of st4 0 = Some b' →
              ∃ blk', heap st4 !! b' = Some (CryptBlock blk') ∧
                      block_ok (heap st4) blk' ∧ footprint b' blk' ⊆ F).
    { intros b' Hb'. rewrite Hc4 in Hb'. injection Hb' as <-.
      exists blk3. split; [assumption|]. split; [assumption|].
      unfold F, footprint. cbn [readCtx writeCtx cryptBuffer blk3 ptr_set].
      set_solver. }
    apply (rekey_rewrite_ok host st4 b blk3).
    + rewrite Hdb4, length_insert. assumption.
    + apply (owned_update st st4 0%nat F); assumption.
    + apply (same_keys_update st st4 0%nat F Howned Hothers Hsep Hframe
               None (Some 0%nat)); [assumption | auto |].
      intros b' blk' _ Hne. congruence.
    + split; assumption.
    + intros c Hc. discriminate.
Qed.

(** * The other steps keep the invariant *)

Lemma SQLiteEncrypt_frame ctx in_ out size (h h' : gmap loc object) :
  SQLiteEncrypt ctx in_ out size h = Some h' → frame ∅ h h'.
Proof.
  unfold SQLiteEncrypt. destruct (load_ctx h ctx) as [key|]; [|discriminate].
  cbn [mbind option_bind]. destruct (num key =? 0).
  { intros [= <-]. apply frame_refl. }
  destruct (load_bytes h in_ size) as [input|]; [|discriminate].
  cbn [mbind option_bind]. unfold store_bytes.
  destruct out as [l|]; [|discriminate]. cbn [mbind option_bind].
  destruct (h !! l) as [[| |data]|] eqn:Hl; try discriminate.
  destruct (_ <=? _)%nat; [|discriminate].
  intros [= <-]. eapply frame_write. eassumption.
Qed.

Lemma SQLite3CodecCallback_frame pArg data n nMode (h h' : gmap loc object)
    ret :
  SQLite3CodecCallback pArg data n nMode h = Some (h', ret) → frame ∅ h h'.
Proof.
  unfold SQLite3CodecCallback. destruct pArg as [b|].
  2: { intros [= <- _]. apply frame_refl. }
  destruct (load_block h (Some b)) as [blk|]; [|discriminate].
  cbn [mbind option_bind].
  assert (Hstep : ∀ ctx out (r : ptr),
            (h1 ← SQLiteEncrypt ctx data out (pageSize blk) h; Some (h1, r))
              = Some (h', ret) → frame ∅ h h').
  { intros ctx out r.
    destruct (SQLiteEncrypt ctx data out (pageSize blk) h) as [h1|] eqn:Henc;
      [|discriminate].
    cbn [mbind option_bind]. intros [= <- _].
    eapply SQLiteEncrypt_frame. eassumption. }
  assert (Hid : Some (h, data) = Some (h', ret) → frame ∅ h h').
  { intros [= <- _]. apply frame_refl. }
  unfold SQLiteDecrypt.
  destruct ((nMode =? 0) || (nMode =? 2) || (nMode =? 3)).
  { destruct (readCtx blk); [apply Hstep | apply Hid]. }
  destruct (nMode =? 6).
  { destruct (writeCtx blk); [apply Hstep | apply Hid]. }
  destruct (nMode =? 7).
  { destruct (readCtx blk); [apply Hstep | apply Hid]. }
  apply Hid.
Qed.

Lemma sqlite3PagerSetPagesize_wf st i newSize st' :
  wf st → sqlite3PagerSetPagesize i newSize st = Some st' → wf st'.
Proof.
  intros (Hlen & Howned & Hsame). unfold sqlite3PagerSetPagesize.
  destruct (aDb st !! i) as [pg|] eqn:Hpg; [|discriminate].
  cbn [mbind option_bind].
  assert (Hi : (i < length (aDb st))%nat)
    by (eapply lookup_lt_Some; eassumption).
  pose proof (codec_of_Some st i pg Hpg) as Hcodec.
  set (F := footprint_of st i).
  assert (Hsep : ∀ j, j ≠ i → footprint_of st j ## F)
    by (apply registered_footprint_disjoint; assumption).
  assert (Hgoal : ∀ h',
            (∀ j, codec_of (mkState h' (<[i := mkPager newSize (pCodec pg)]>
                                          (aDb st)) (malloc_ok st)) j
                  = codec_of st j) →
            frame F (heap st) h' →
            (∀ b, pCodec pg = Some b →
               ∃ blk, h' !! b = Some (CryptBlock blk) ∧ block_ok h' blk ∧
                      readCtx blk = writeCtx blk ∧ footprint b blk ⊆ F) →
            wf (mkState h' (<[i := mkPager newSize (pCodec pg)]> (aDb st))
                  (malloc_ok st))).
  { intros h' Hcod Hframe Hnew. split; [|split].
    - cbn [aDb]. rewrite length_insert. assumption.
    - apply (owned_update st _ i F); auto.
      intros b Hb. rewrite Hcod, Hcodec in Hb.
      destruct (Hnew b Hb) as (blk & ? & ? & _ & ?). eauto.
    - apply (same_keys_update st _ i F Howned) with (skip := None); auto.
      intros b blk [Hb Hblk] _. rewrite Hcod, Hcodec in Hb.
      destruct (Hnew b Hb) as (blk' & Hblk' & _ & Heq & _).
      cbn [heap] in Hblk. rewrite Hblk in Hblk'. injection Hblk' as <-.
      assumption. }
  assert (Hcod : ∀ h' j,
            codec_of (mkState h' (<[i := mkPager newSize (pCodec pg)]>
                                    (aDb st)) (malloc_ok st)) j
            = codec_of st j).
  { intros h' j. unfold codec_of. cbn [aDb].
    destruct (decide (j = i)) as [->|Hj].
    - rewrite list_lookup_insert_eq by assumption. rewrite Hpg. reflexivity.
    - rewrite list_lookup_insert_ne by congruence. reflexivity. }
  destruct (pCodec pg) as [b|] eqn:Hpc.
  - destruct Howned as [Hlive Hdisj].
    destruct (Hlive i b Hcodec) as (blk & Hb & Hok).
    rewrite (SQLite3CodecSizeChangedCallback_ok _ b blk _ _ Hb).
    cbn [mbind option_bind]. intros [= <-].
    assert (Hreg : registered st i b blk) by (split; assumption).
    assert (HF : F = footprint b blk)
      by apply (footprint_of_registered st i b blk Hreg).
    apply Hgoal; [apply Hcod | |].
    + apply frame_insert. rewrite HF. apply elem_of_footprint. auto.
    + intros b' [= <-]. eexists. split; [apply lookup_insert_eq|].
      split; [|split].
      * assert (Hf : frame {[ b ]} (heap st)
                       (<[b := CryptBlock (set_pageSize newSize blk)]> (heap st)))
          by (apply frame_insert; set_solver).
        destruct Hok as (Hr & Hw & Hs).
        split; [|split]; intros l Hl; cbn in Hl.
        -- destruct (Hr l Hl) as [key Hkey]. exists key.
           rewrite lookup_insert_ne by congruence. assumption.
        -- destruct (Hw l Hl) as [key Hkey]. exists key.
           rewrite lookup_insert_ne by congruence. assumption.
        -- destruct (Hs l Hl) as [data Hdata]. exists data.
           rewrite lookup_insert_ne by congruence. assumption.
      * cbn. apply (Hsame i b blk Hreg). discriminate.
      * rewrite HF. reflexivity.
  - intros [= <-]. apply Hgoal; [apply Hcod | apply frame_refl | discriminate].
Qed.

Lemma step_wf st st' : wf st → step st st' → wf st'.
Proof.
  intros Hwf Hstep.
  destruct Hstep as [st nDb pKey nKeyLen st' rc Hn Hkey Hrun
                    | st host pKey nKey st' rc calls Hkey Hrun
                    | st i newSize st' Hrun
                    | st i pg data nPageNum nMode h' ret Hpg Hrun
                    | st l data Hl
                    | st size].
  - destruct (sqlite3CodecAttach_wf st nDb pKey nKeyLen Hwf Hn Hkey)
      as (st0 & rc0 & Hrun0 & Hwf0).
    rewrite Hrun in Hrun0. injection Hrun0 as <- <-. assumption.
  - destruct (sqlite3_rekey_v2_wf host st pKey nKey Hwf Hkey)
      as (st0 & rc0 & calls0 & Hrun0 & Hwf0).
    rewrite Hrun in Hrun0. injection Hrun0 as <- <- <-. assumption.
  - eapply sqlite3PagerSetPagesize_wf; eassumption.
  - apply (wf_frame st _ Hwf); [apply Hwf | reflexivity |].
    eapply SQLite3CodecCallback_frame. eassumption.
  - apply (wf_frame st _ Hwf); [apply Hwf | reflexivity |].
    apply frame_alloc. assumption.
  - apply (wf_frame st _ Hwf).
    + cbn [aDb set_aDb]. rewrite length_app. cbn [length]. lia.
    + intros j. unfold codec_of. cbn [aDb set_aDb].
      destruct (decide (j < length (aDb st))%nat) as [Hj|Hj].
      * rewrite lookup_app_l by assumption. reflexivity.
      * rewrite (lookup_ge_None_2 (aDb st) j) by lia.
        rewrite lookup_app_r by lia.
        destruct (j - length (aDb st))%nat as [|k]; [reflexivity|].
        destruct k; reflexivity.
    + apply frame_refl.
Qed.

Lemma reachable_wf st : reachable st → wf st.
Proof.
  induction 1 as [st Hlen Hnone | st st' _ IH Hstep].
  - split; [assumption|]. split; [split|].
    + intros i b Hb. rewrite Hnone in Hb. discriminate.
    + intros i j bi bj blki blkj _ [Hb _]. rewrite Hnone in Hb. discriminate.
    + intros i b blk [Hb _]. rewrite Hnone in Hb. discriminate.
  - eapply step_wf; eassumption.
Qed.

Lemma wf_keys_agree st : wf st → keys_agree st.
Proof.
  intros (_ & [Hlive _] & Hsame) i b Hb.
  destruct (Hlive i b Hb) as (blk & Hblk & Hrd & _).
  exists blk. split; [assumption|].
  assert (Heq : readCtx blk = writeCtx blk).
  { apply (Hsame i b blk); [split; assumption | discriminate]. }
  destruct (readCtx blk) as [c|] eqn:Hc.
  - right. destruct (Hrd c eq_refl) as [key Hkey]. exists key.
    rewrite <- Heq. split; apply load_ctx_Some; assumption.
  - left. split; [reflexivity | symmetry; exact Heq].
Qed.

(** * Read key and write key at rest *)

(** C4: in every state the connection reaches outside an executing rekey
    (opened without a codec, then any sequence of attach, rekey,
    page-size change, page callback and host allocation), the read key
    and the write key of every registered crypto block are both absent
    or both present with the same key bytes.  From such a state attach
    and rekey return for every outcome of the allocations and of the
    host's transaction, on the success path and on the failure path, and
    the state they return has the property again. *)
Theorem keys_agree_outside_rekey (st : State) :
  reachable st →
  keys_agree st ∧
  (∀ nDb pKey nKeyLen,
     0 ≤ nDb < Z.of_nat (length (aDb st)) → readable pKey nKeyLen →
     ∃ st' rc,
       sqlite3CodecAttach nDb pKey nKeyLen st = Some (st', rc) ∧
       keys_agree st') ∧
  (∀ host pKey nKey,
     readable pKey nKey →
     ∃ st' rc calls,
       sqlite3_rekey_v2 host pKey nKey st = Some (st', rc, calls) ∧
       keys_agree st').
Proof.
  intros Hreach. pose proof (reachable_wf st Hreach) as Hwf.
  split; [apply wf_keys_agree; assumption|]. split.
  - intros nDb pKey nKeyLen Hn Hkey.
    destruct (sqlite3CodecAttach_wf st nDb pKey nKeyLen Hwf Hn Hkey)
      as (st' & rc & Hrun & Hwf').
    exists st', rc. split; [assumption | apply wf_keys_agree; assumption].
  - intros host pKey nKey Hkey.
    destruct (sqlite3_rekey_v2_wf host st pKey nKey Hwf Hkey)
      as (st' & rc & calls & Hrun & Hwf').
    exists st', rc, calls.
    split; [assumption | apply wf_keys_agree; assumption].
Qed.

Lemma fresh_connection_reachable : reachable fresh_connection.
Proof.
  apply reachable_open; [simpl; lia|].
  intros [|[|i]]; reflexivity.
Qed.

Lemma keyed_connection_reachable : reachable keyed_connection.
Proof.
  apply (reachable_step fresh_connection); [apply fresh_connection_reachable|].
  apply (step_attach fresh_connection 0 (Some secret) 6 keyed_connection
           SQLITE_OK).
  - simpl. lia.
  - intros bytes [= <-]. simpl. lia.
  - vm_compute. reflexivity.
Qed.

Lemma keys_agree_outside_rekey_witness :
  keys_agree keyed_connection ∧
  ∃ st' rc calls,
    sqlite3_rekey_v2 page1_unreadable (Some newkey) 6 keyed_connection
      = Some (st', rc, calls) ∧
    keys_agree st'.
Proof.
  destruct (keys_agree_outside_rekey keyed_connection
              keyed_connection_reachable) as (Hrest & _ & Hrekey).
  split; [exact Hrest|].
  apply Hrekey. intros bytes [= <-]. simpl. lia.
Defined.

Lemma attach_without_key_witness :
  ∃ st' pg b c s data,
    sqlite3CodecAttach 1 None 0 keyed_connection = Some (st', SQLITE_OK) ∧
    aDb keyed_connection !! 1%nat = Some pg ∧
    codec_of st' 1 = Some b ∧
    heap st' !! b =
      Some (CryptBlock (mkBlock 1 (pager_pageSize pg) (Some c) (Some c)
                          (Some s))) ∧
    heap st' !! s = Some (Bytes data) ∧
    heap st' !! c = Some (SQLiteCipherContext (derived_key secret 6)) ∧
    c ≠ 2%positive ∧
    heap st' !! 2%positive = Some (SQLiteCipherContext (derived_key secret 6)).
Proof.
  destruct attach_without_key as (_ & _ & Hclone).
  destruct (Hclone keyed_connection 1 None 0 3%positive
              (mkBlock 0 1024 (Some 2%positive) (Some 2%positive)
                 (Some 4%positive))
              2%positive (derived_key secret 6))
    as (st' & pg & b & c & s & data & Hrun & Hpg & Hb & Hblk & Hs & Hc & Hne
        & _ & Hc0 & _).
  - apply reachable_wf, keyed_connection_reachable.
  - left. reflexivity.
  - vm_compute. split; reflexivity.
  - split; vm_compute; reflexivity.
  - reflexivity.
  - vm_compute. reflexivity.
  - vm_compute. constructor.
  - intros pg Hpg. vm_compute in Hpg. injection Hpg as <-. simpl. lia.
  - exists st', pg, b, c, s, data. auto 10.
Defined.

(** * The transaction of rekey, in closed form *)

Lemma rewrite_pages_visited host acc :
  rewrite_pages host acc =
  fold_left (λ a n, (page_status host n, a.2 ++ page_calls host n))
    (visited_pages host) acc.
Proof.
  unfold rewrite_pages, visited_pages.
  generalize (map Z.of_nat (seq 1 (Z.to_nat (PagerPagecount host)))).
  intros pages. revert acc.
  induction pages as [|n pages IH]; intros [rc calls]; [reflexivity|].
  cbn [fold_left]. rewrite filter_cons. unfold rewrite_page at 2.
  destruct (n =? PAGER_MJ_PGNO host) eqn:E.
  - apply Z.eqb_eq in E. rewrite decide_False by (intros H; apply H, E).
    apply IH.
  - apply Z.eqb_neq in E. rewrite decide_True by assumption.
    cbn [fold_left]. rewrite IH. f_equal.
    unfold page_status, page_calls. cbn [snd].
    destruct (PagerGet host n =? 0); reflexivity.
Qed.

Lemma fold_visits host pages rc calls :
  fold_left (λ a n, (page_status host n, a.2 ++ page_calls host n))
    pages (rc, calls) =
  (match last pages with Some n => page_status host n | None => rc end,
   calls ++ flat_map (page_calls host) pages).
Proof.
  revert rc calls. induction pages as [|n pages IH]; intros rc calls.
  - cbn. rewrite app_nil_r. reflexivity.
  - cbn [fold_left flat_map snd]. rewrite IH, <- app_assoc.
    destruct pages as [|m pages']; [reflexivity|].
    change (last (n :: m :: pages')) with (last (m :: pages')).
    destruct (last (m :: pages')) eqn:E; [reflexivity|].
    apply last_None in E. discriminate.
Qed.

(** The status and the calls of the transaction, in closed form. *)
Lemma rekey_transaction_closed_form (host : Host) :
  rekey_transaction host =
  if BtreeBeginTrans host =? SQLITE_OK then
    if loop_status host =? SQLITE_OK then
      (BtreeCommit host,
       [mutex_enter; begin_trans] ++ flat_map (page_calls host)
          (visited_pages host) ++ [btree_commit])
    else
      (loop_status host,
       [mutex_enter; begin_trans] ++ flat_map (page_calls host)
          (visited_pages host) ++ [btree_rollback])
  else (BtreeBeginTrans host, [mutex_enter; begin_trans; btree_rollback]).
Proof.
  unfold rekey_transaction.
  destruct (BtreeBeginTrans host =? SQLITE_OK) eqn:Ebegin.
  - rewrite rewrite_pages_visited, fold_visits. unfold loop_status.
    apply Z.eqb_eq in Ebegin. rewrite Ebegin.
    destruct (last (visited_pages host)) as [n|];
      destruct (_ =? SQLITE_OK); rewrite <- ?app_assoc; reflexivity.
  - rewrite Ebegin. reflexivity.
Qed.

Lemma rekey_rewrite_transaction host b st :
  rekey_rewrite host b st =
  let '(rc, calls) := rekey_transaction host in
  blk ← load_block (heap st) (Some b);
  '(h, blk) ←
    (if rc =? SQLITE_OK then
       h ← sqlite3_free (readCtx blk) (heap st);
       Some (h, set_readCtx (writeCtx blk) blk)
     else
       h ← sqlite3_free (writeCtx blk) (heap st);
       Some (h, set_writeCtx (readCtx blk) blk));
  let st := set_heap (store_block h b blk) st in
  st ← (if bool_decide (readCtx blk = NULL ∧ writeCtx blk = NULL)
        then sqlite3PagerSetCodec 0 NULL st else Some st);
  Some (st, rc, calls ++ [mutex_leave]).
Proof.
  unfold rekey_rewrite, rekey_transaction.
  destruct (if BtreeBeginTrans host =? SQLITE_OK then _ else _) as [rc0 calls0].
  destruct (rc0 =? SQLITE_OK); reflexivity.
Qed.

(** * Freeing, exactly *)

Lemma lookup_free_at p (h : gmap loc object) l :
  free_at p h !! l = if decide (p = Some l) then None else h !! l.
Proof.
  destruct p as [k|]; simpl.
  - case_decide as Heq.
    + injection Heq as ->. apply lookup_delete_eq.
    + apply lookup_delete_ne. congruence.
  - reflexivity.
Qed.

Lemma sqlite3_free_live (h : gmap loc object) p :
  (∀ l, p = Some l → is_Some (h !! l)) →
  sqlite3_free p h = Some (free_at p h).
Proof.
  intros Hlive. destruct p as [l|]; simpl; [|reflexivity].
  destruct (Hlive l eq_refl) as [o ->]. reflexivity.
Qed.

Lemma FreeCodecCryptBlock_exact
    (h : gmap loc object) (b : loc) (blk : CodecCryptBlock) :
  h !! b = Some (CryptBlock blk) → block_ok h blk →
  ∃ h', FreeCodecCryptBlock (Some b) h = Some h' ∧
        ∀ l, h' !! l = if decide (l ∈ footprint b blk) then None else h !! l.
Proof.
  intros Hb (Hr & Hw & Hs). unfold FreeCodecCryptBlock.
  rewrite (load_block_Some h b blk Hb). cbn [mbind option_bind].
  rewrite (sqlite3_free_live h (cryptBuffer blk)).
  2:{ intros s Hsb. destruct (Hs s Hsb) as [data ->]. eauto. }
  cbn [mbind option_bind].
  rewrite (sqlite3_free_live _ (readCtx blk)).
  2:{ intros c Hc. destruct (Hr c Hc) as [key Hkey].
      rewrite lookup_free_at, decide_False; [eauto|].
      intros Hsb. destruct (Hs c Hsb) as [data Hdata]. congruence. }
  cbn [mbind option_bind].
  set (w := if bool_decide (writeCtx blk ≠ NULL ∧ writeCtx blk ≠ readCtx blk)
            then writeCtx blk else NULL).
  assert (Hwfree :
    (if bool_decide (writeCtx blk ≠ NULL ∧ writeCtx blk ≠ readCtx blk)
     then sqlite3_free (writeCtx blk)
            (free_at (readCtx blk) (free_at (cryptBuffer blk) h))
     else Some (free_at (readCtx blk) (free_at (cryptBuffer blk) h))) =
    Some (free_at w (free_at (readCtx blk) (free_at (cryptBuffer blk) h)))).
  { subst w. case_bool_decide as Hdiff; [|reflexivity].
    destruct Hdiff as [Hwnull Hwr]. apply sqlite3_free_live.
    intros c Hc. destruct (Hw c Hc) as [key Hkey].
    rewrite !lookup_free_at, !decide_False; [eauto| |congruence].
    intros Hsb. destruct (Hs c Hsb) as [data Hdata]. congruence. }
  rewrite Hwfree. cbn [mbind option_bind].
  assert (Hww : ∀ l, w = Some l → writeCtx blk = Some l).
  { subst w. intros l. case_bool_decide; [tauto | discriminate]. }
  rewrite (sqlite3_free_live _ (Some b)).
  2:{ intros ? [= <-]. rewrite !lookup_free_at, !decide_False; [eauto| | |].
      - intros Hsb. destruct (Hs b Hsb) as [data Hdata]. congruence.
      - intros Hc. destruct (Hr b Hc) as [key Hkey]. congruence.
      - intros Hc. destruct (Hw b (Hww b Hc)) as [key Hkey]. congruence. }
  eexists. split; [reflexivity|]. intros l. rewrite !lookup_free_at.
  destruct (decide (l ∈ footprint b blk)) as [Hin|Hout].
  - apply elem_of_footprint in Hin.
    clear Hwfree.
    case_decide as H0; [reflexivity|]. case_decide as H1; [reflexivity|].
    case_decide as H2; [reflexivity|]. case_decide as H3; [reflexivity|].
    exfalso. destruct Hin as [->|[Hin|[Hin|Hin]]]; try congruence.
    subst w. case_bool_decide as Hdiff; [congruence|].
    apply Hdiff. split; [rewrite Hin; discriminate | congruence].
  - rewrite elem_of_footprint in Hout.
    rewrite !decide_False; [reflexivity| | | |].
    + intros Hsb. apply Hout. auto.
    + intros Hc. apply Hout. auto.
    + intros Hc. apply Hout. auto.
    + intros [= <-]. apply Hout. auto.
Qed.

(** X2: FreeCodecCryptBlock on a live block whose pointers are NULL or
    live objects of their kind succeeds and frees exactly what the
    block owns: the block, its scratch array and its key contexts, a
    context shared by the read key and the write key being freed once.
    Every other location keeps its content. *)
Theorem FreeCodecCryptBlock_frees_footprint
    (h : gmap loc object) (b : loc) (blk : CodecCryptBlock) :
  h !! b = Some (CryptBlock blk) → block_ok h blk →
  ∃ h', FreeCodecCryptBlock (Some b) h = Some h' ∧
        ∀ l, h' !! l = if decide (l ∈ footprint b blk) then None else h !! l.
Proof. apply FreeCodecCryptBlock_exact. Qed.

(** * Memory up to the content of the byte arrays *)

Lemma same_shape_refl o : same_shape o o.
Proof. destruct o; cbn; eauto. Qed.

Lemma same_up_to_bytes_lookup F (h h' : gmap loc object) :
  (∀ l, l ∉ F → h' !! l = h !! l) → same_up_to_bytes F h h'.
Proof.
  intros H l Hl. rewrite (H l Hl).
  destruct (h !! l) as [o|]; [|reflexivity].
  exists o. split; [reflexivity | apply same_shape_refl].
Qed.

Lemma same_up_to_bytes_eq (h h' : gmap loc object) :
  h' = h → same_up_to_bytes ∅ h h'.
Proof. intros ->. apply same_up_to_bytes_lookup. reflexivity. Qed.

(** * Creating a crypto block, exactly *)

Lemma CreateCodeCryptBlock_fresh_exact
    (st : State) (ctx : ptr) (i : nat) (pg : Pager) :
  aDb st !! i = Some pg → 0 < pager_pageSize pg → malloc_succeeds 2 st →
  ∃ b s,
    heap st !! b = None ∧ heap st !! s = None ∧ b ≠ s ∧
    CreateCodeCryptBlock ctx i (-1) NULL st =
    Some (mkState
            (<[b := CryptBlock (mkBlock i (pager_pageSize pg) ctx ctx (Some s))]>
               (<[s := Bytes (repeat 0 (Z.to_nat (pager_pageSize pg)))]>
                  (heap st)))
            (aDb st) (drop 2 (malloc_ok st)),
          Some b).
Proof.
  intros Hpg Hpos Hok. destruct st as [h d ok]. cbn [heap aDb malloc_ok] in *.
  destruct (malloc_succeeds_S 1 _ Hok) as [Hok1 Hok2].
  unfold CreateCodeCryptBlock. unfold NULL at 1.
  rewrite sqlite3_malloc_Some by first [assumption | unfold sizeof_CodecCryptBlock; lia].
  cbn [heap aDb malloc_ok]. set (b := fresh (dom h)).
  assert (Hb : h !! b = None) by apply fresh_not_live.
  rewrite Hpg, Z.eqb_refl.
  cbn [fmap option_fmap option_map mbind option_bind].
  rewrite (load_block_Some _ b (mkBlock i 0 ctx ctx None))
    by apply lookup_insert_eq.
  cbn [mbind option_bind set_pager set_pageSize set_cryptBuffer pager
       pageSize readCtx writeCtx cryptBuffer sqlite3_free].
  destruct (0 =? pager_pageSize pg) eqn:Eps; [apply Z.eqb_eq in Eps; lia|].
  cbn [negb]. unfold set_heap, store_block. cbn [heap aDb malloc_ok].
  rewrite insert_insert_eq.
  rewrite sqlite3_malloc_Some by first [assumption | apply Hok2].
  cbn [heap aDb malloc_ok].
  match goal with |- context [Some (fresh ?X)] => set (s := fresh X) end.
  assert (Hs0 : <[b := CryptBlock (mkBlock i (pager_pageSize pg) ctx ctx None)]> h
                !! s = None) by apply fresh_not_live.
  assert (Hsb : b ≠ s).
  { intros Heq. rewrite <- Heq, lookup_insert_eq in Hs0. discriminate. }
  rewrite lookup_insert_ne in Hs0 by assumption.
  exists b, s. split; [assumption|]. split; [assumption|].
  split; [assumption|].
  replace (drop 2 ok) with (tail (tail ok))
    by (destruct ok as [|? [|? ?]]; reflexivity).
  do 3 f_equal. rewrite (insert_insert_ne _ s b) by congruence.
  rewrite insert_insert_eq. reflexivity.
Qed.

(** X3: CreateCodeCryptBlock without an existing block, when both of its
    allocations succeed and the pager's page size is positive, returns
    a new block for that pager whose read key and write key are both
    the given context and whose scratch array is a new byte array of the
    pager's page size, whatever it holds; nothing else in memory
    changes. *)
Theorem CreateCodeCryptBlock_fresh
    (st : State) (ctx : ptr) (i : nat) (pg : Pager) :
  aDb st !! i = Some pg → 0 < pager_pageSize pg → malloc_succeeds 2 st →
  ∃ st' b s data,
    CreateCodeCryptBlock ctx i (-1) NULL st = Some (st', Some b) ∧
    heap st !! b = None ∧ heap st !! s = None ∧ b ≠ s ∧
    aDb st' = aDb st ∧ malloc_ok st' = drop 2 (malloc_ok st) ∧
    heap st' !! b =
      Some (CryptBlock (mkBlock i (pager_pageSize pg) ctx ctx (Some s))) ∧
    heap st' !! s = Some (Bytes data) ∧
    Z.of_nat (length data) = pager_pageSize pg ∧
    ∀ l, l ≠ b → l ≠ s → heap st' !! l = heap st !! l.
Proof.
  intros Hpg Hpos Hok.
  destruct (CreateCodeCryptBlock_fresh_exact st ctx i pg Hpg Hpos Hok)
    as (b & s & Hb & Hs & Hbs & Hres).
  eexists _, b, s, _. split; [exact Hres|]. cbn [heap aDb malloc_ok].
  repeat (split; [first [assumption | reflexivity]|]).
  split; [apply lookup_insert_eq|]. split.
  { rewrite lookup_insert_ne by congruence. apply lookup_insert_eq. }
  split; [rewrite repeat_length; lia|].
  intros l Hlb Hls. rewrite !lookup_insert_ne by congruence. reflexivity.
Qed.

(** X4: the out-of-memory edges of CreateCodeCryptBlock without an
    existing block.  When the allocation of the block fails, it returns
    NULL and memory is unchanged.  When the block is allocated and the
    allocation of the scratch array fails, it returns NULL too, but the
    block it allocated stays allocated, holding the context pointer. *)
Theorem CreateCodeCryptBlock_out_of_memory
    (st : State) (ctx : ptr) (i : nat) (pg : Pager) (rest : list bool) :
  aDb st !! i = Some pg → 0 < pager_pageSize pg →
  (malloc_ok st = false :: rest →
   CreateCodeCryptBlock ctx i (-1) NULL st =
   Some (mkState (heap st) (aDb st) rest, NULL)) ∧
  (malloc_ok st = true :: false :: rest →
   ∃ b, heap st !! b = None ∧
     CreateCodeCryptBlock ctx i (-1) NULL st =
     Some (mkState
             (<[b := CryptBlock (mkBlock i (pager_pageSize pg) ctx ctx NULL)]>
                (heap st))
             (aDb st) rest,
           NULL)).
Proof.
  intros Hpg Hpos. destruct st as [h d ok]. cbn [heap aDb malloc_ok] in *.
  split; intros ->.
  - reflexivity.
  - exists (fresh (dom h)). split; [apply fresh_not_live|].
    unfold CreateCodeCryptBlock. unfold NULL at 1.
    unfold sqlite3_malloc at 1. cbn [heap aDb malloc_ok tail].
    unfold sizeof_CodecCryptBlock at 1. cbn [Z.leb Z.compare].
    set (b := fresh (dom h)). cbn [heap aDb malloc_ok].
    rewrite Hpg, Z.eqb_refl.
    cbn [fmap option_fmap option_map mbind option_bind].
    rewrite (load_block_Some _ b (mkBlock i 0 ctx ctx None))
      by apply lookup_insert_eq.
    cbn [mbind option_bind set_pager set_pageSize set_cryptBuffer pager
         pageSize readCtx writeCtx cryptBuffer sqlite3_free].
    destruct (0 =? pager_pageSize pg) eqn:Eps; [apply Z.eqb_eq in Eps; lia|].
    cbn [negb]. unfold set_heap, store_block. cbn [heap aDb malloc_ok].
    rewrite insert_insert_eq. unfold sqlite3_malloc.
    destruct (pager_pageSize pg <=? 0) eqn:Ele; [apply Z.leb_le in Ele; lia|].
    cbn [heap aDb malloc_ok]. rewrite insert_insert_eq. reflexivity.
Qed.

(** The same for an existing block whose recorded page size differs
    from the requested one. *)
Lemma CreateCodeCryptBlock_resizes_exact
    (st : State) (ctx : ptr) (i : nat) (b s : loc) (blk : CodecCryptBlock)
    (old : list Z) (newSize : Z) :
  heap st !! b = Some (CryptBlock blk) →
  cryptBuffer blk = Some s → heap st !! s = Some (Bytes old) →
  0 < newSize → newSize ≠ pageSize blk → malloc_succeeds 1 st →
  ∃ s',
    delete s (heap st) !! s' = None ∧ s' ≠ b ∧
    CreateCodeCryptBlock ctx i newSize (Some b) st =
    Some (mkState
            (<[b := CryptBlock (mkBlock i newSize (readCtx blk) (writeCtx blk)
                                  (Some s'))]>
               (<[s' := Bytes (repeat 0 (Z.to_nat newSize))]>
                  (delete s (heap st))))
            (aDb st) (tail (malloc_ok st)),
          Some b).
Proof.
  intros Hb Hbuf Hs Hpos Hne Hok.
  destruct st as [h d ok]. cbn [heap aDb malloc_ok] in *.
  assert (Hsb : s ≠ b) by (intros ->; congruence).
  unfold CreateCodeCryptBlock.
  destruct (newSize =? -1) eqn:E1; [apply Z.eqb_eq in E1; lia|].
  cbn [heap aDb mbind option_bind].
  rewrite (load_block_Some h b blk Hb). cbn [mbind option_bind].
  cbn [set_pager set_pageSize set_cryptBuffer pager pageSize readCtx writeCtx
       cryptBuffer].
  destruct (pageSize blk =? newSize) eqn:E2; [apply Z.eqb_eq in E2; lia|].
  cbn [negb]. rewrite Hbuf. cbn [sqlite3_free]. rewrite Hs.
  cbn [mbind option_bind]. unfold set_heap, store_block.
  cbn [heap aDb malloc_ok].
  rewrite sqlite3_malloc_Some by first [assumption | lia]. cbn [heap aDb malloc_ok].
  match goal with |- context [Some (fresh ?X)] => set (s' := fresh X) end.
  match goal with
  | |- context [<[s' := _]> ?m] =>
      assert (Hs0 : m !! s' = None) by apply fresh_not_live
  end.
  assert (Hs'b : s' ≠ b).
  { intros Heq. rewrite Heq, lookup_insert_eq in Hs0. discriminate. }
  rewrite lookup_insert_ne in Hs0 by congruence.
  exists s'. split; [assumption|]. split; [assumption|].
  f_equal. f_equal. f_equal.
  rewrite (insert_insert_ne _ s' b) by assumption.
  rewrite insert_insert_eq. reflexivity.
Qed.

(** X5: CreateCodeCryptBlock on an existing block whose recorded page
    size differs from the requested one frees the scratch array and
    allocates a byte array of the requested size, whatever it holds, as
    the new one, records the size and the pager, and leaves the block's
    keys as they are: the context argument is not used.  Nothing else
    in memory changes. *)
Theorem CreateCodeCryptBlock_resizes
    (st : State) (ctx : ptr) (i : nat) (b s : loc) (blk : CodecCryptBlock)
    (old : list Z) (newSize : Z) :
  heap st !! b = Some (CryptBlock blk) →
  cryptBuffer blk = Some s → heap st !! s = Some (Bytes old) →
  0 < newSize → newSize ≠ pageSize blk → malloc_succeeds 1 st →
  ∃ st' s' data,
    CreateCodeCryptBlock ctx i newSize (Some b) st = Some (st', Some b) ∧
    delete s (heap st) !! s' = None ∧ s' ≠ b ∧
    aDb st' = aDb st ∧ malloc_ok st' = tail (malloc_ok st) ∧
    heap st' !! b =
      Some (CryptBlock (mkBlock i newSize (readCtx blk) (writeCtx blk)
                          (Some s'))) ∧
    heap st' !! s' = Some (Bytes data) ∧
    Z.of_nat (length data) = newSize ∧
    ∀ l, l ≠ b → l ≠ s' →
      heap st' !! l = if decide (l = s) then None else heap st !! l.
Proof.
  intros Hb Hbuf Hs Hpos Hne Hok.
  destruct (CreateCodeCryptBlock_resizes_exact st ctx i b s blk old newSize
              Hb Hbuf Hs Hpos Hne Hok) as (s' & Hs' & Hs'b & Hres).
  eexists _, s', _. split; [exact Hres|]. cbn [heap aDb malloc_ok].
  repeat (split; [first [assumption | reflexivity]|]).
  split; [apply lookup_insert_eq|]. split.
  { rewrite lookup_insert_ne by congruence. apply lookup_insert_eq. }
  split; [rewrite repeat_length; lia|].
  intros l Hlb Hls. rewrite !lookup_insert_ne by congruence.
  case_decide as Hl.
  - subst l. apply lookup_delete_eq.
  - apply lookup_delete_ne. congruence.
Qed.

(** * The page callback writes one array *)

Lemma SQLiteEncrypt_rewritten ctx in_ out size (h h' : gmap loc object) :
  SQLiteEncrypt ctx in_ out size h = Some h' → rewritten out size h h'.
Proof.
  unfold SQLiteEncrypt. destruct (load_ctx h ctx) as [key|]; [|discriminate].
  cbn [mbind option_bind]. destruct (num key =? 0).
  { intros [= <-]. left. reflexivity. }
  unfold load_bytes. destruct in_ as [d|]; [|discriminate].
  cbn [mbind option_bind].
  destruct (h !! d) as [[| |page]|]; try discriminate.
  destruct ((0 <=? size) && (size <=? Z.of_nat (length page))) eqn:Hsize;
    [|discriminate].
  apply andb_true_iff in Hsize. destruct Hsize as [H0 Hn].
  apply Z.leb_le in H0, Hn.
  cbn [mbind option_bind]. unfold store_bytes.
  destruct out as [l|]; [|discriminate]. cbn [mbind option_bind].
  destruct (h !! l) as [[| |old]|] eqn:Hl; try discriminate.
  destruct (_ <=? _)%nat eqn:Hlen; [|discriminate].
  apply Nat.leb_le in Hlen. rewrite mbedtls_arc4_crypt_length in Hlen.
  rewrite length_take in Hlen.
  intros [= <-]. right. eexists l, old, _.
  split; [reflexivity|]. split; [exact Hl|]. split; [reflexivity|].
  rewrite mbedtls_arc4_crypt_length, length_take.
  replace (Z.to_nat size `min` length page)%nat with (Z.to_nat size) in * by lia.
  split.
  - rewrite length_app, mbedtls_arc4_crypt_length, length_take, length_drop. lia.
  - rewrite drop_app_length'; [reflexivity|].
    rewrite mbedtls_arc4_crypt_length, length_take. lia.
Qed.

(** X6: whatever the mode, a page callback that returns changes at most
    one array, without changing its length or its bytes past the page
    size: the caller's buffer for the modes 0, 2 and 3, where it returns
    the caller's pointer, and the scratch array for the modes 6 and 7.
    It allocates and frees nothing and leaves the block and the keys as
    they are; without a crypto block, in any other mode and without the
    key of the mode it changes nothing and returns the caller's
    pointer. *)
Theorem SQLite3CodecCallback_writes_one_array
    (pArg data : ptr) (nPageNum nMode : Z) (h h' : gmap loc object)
    (ret : ptr) :
  SQLite3CodecCallback pArg data nPageNum nMode h = Some (h', ret) →
  (h' = h ∧ ret = data) ∨
  ∃ b blk,
    pArg = Some b ∧ h !! b = Some (CryptBlock blk) ∧
    (((nMode = 0 ∨ nMode = 2 ∨ nMode = 3) ∧ readCtx blk ≠ NULL ∧
      ret = data ∧ rewritten data (pageSize blk) h h') ∨
     ((nMode = 6 ∨ nMode = 7) ∧ applicable_key nMode blk ≠ NULL ∧
      ret = cryptBuffer blk ∧
      rewritten (cryptBuffer blk) (pageSize blk) h h')).
Proof.
  unfold SQLite3CodecCallback. destruct pArg as [b|].
  2: { intros [= <- <-]. left. split; reflexivity. }
  unfold load_block. cbn [mbind option_bind].
  destruct (h !! b) as [[|blk|]|] eqn:Hb; try discriminate.
  cbn [mbind option_bind].
  assert (Hstep : ∀ ctx out (r : ptr),
            (h1 ← SQLiteEncrypt ctx data out (pageSize blk) h; Some (h1, r))
              = Some (h', ret) →
            ret = r ∧ rewritten out (pageSize blk) h h').
  { intros ctx out r.
    destruct (SQLiteEncrypt ctx data out (pageSize blk) h) as [h1|] eqn:Henc;
      [|discriminate].
    cbn [mbind option_bind]. intros [= <- <-].
    split; [reflexivity|]. eapply SQLiteEncrypt_rewritten. eassumption. }
  unfold SQLiteDecrypt.
  destruct ((nMode =? 0) || (nMode =? 2) || (nMode =? 3)) eqn:Edec.
  { destruct (readCtx blk) as [c|] eqn:Hc; [|intros [= <- <-]; left; split; reflexivity].
    intros Hres. apply Hstep in Hres. destruct Hres as [-> Hrw].
    right. exists b, blk. split; [reflexivity|]. split; [exact Hb|].
    left. rewrite Hc. split; [|split; [discriminate|split; [reflexivity|assumption]]].
    apply orb_true_iff in Edec. destruct Edec as [Edec|Edec].
    - apply orb_true_iff in Edec. destruct Edec as [Edec|Edec];
        apply Z.eqb_eq in Edec; auto.
    - apply Z.eqb_eq in Edec; auto. }
  destruct (nMode =? 6) eqn:E6.
  { apply Z.eqb_eq in E6. destruct (writeCtx blk) as [c|] eqn:Hc; [|intros [= <- <-]; left; split; reflexivity].
    intros Hres. apply Hstep in Hres. destruct Hres as [-> Hrw].
    right. exists b, blk. split; [reflexivity|]. split; [exact Hb|].
    right. split; [auto|]. split; [|split; [reflexivity|assumption]].
    unfold applicable_key. rewrite E6, Hc. discriminate. }
  destruct (nMode =? 7) eqn:E7.
  { apply Z.eqb_eq in E7. destruct (readCtx blk) as [c|] eqn:Hc; [|intros [= <- <-]; left; split; reflexivity].
    intros Hres. apply Hstep in Hres. destruct Hres as [-> Hrw].
    right. exists b, blk. split; [reflexivity|]. split; [exact Hb|].
    right. split; [auto|]. split; [|split; [reflexivity|assumption]].
    unfold applicable_key. rewrite E7, Hc. discriminate. }
  intros [= <- <-]. left. split; reflexivity.
Qed.

(** * Writing a page out and reading it back *)

(** X7: a page written out through the callback and read back through
    it is the page again.  The callback for writing (mode 6 for the main
    file, mode 7 for the journal) leaves the cipher text of the page in
    the scratch array; when a buffer holding that cipher text is given
    to the callback for reading (mode 0, 2 or 3), it holds the page
    afterwards.  This needs the key of the writing mode and the read key
    to hold the same bytes, not all zero: for the journal (mode 7) they
    are the same context whatever the write key is. *)
Theorem page_callback_round_trip
    (h : gmap loc object) (b c c' d s d2 : loc) (blk : CodecCryptBlock)
    (key page old junk : list Z) (enc dec nPageNum : Z) :
  h !! b = Some (CryptBlock blk) →
  enc = 6 ∨ enc = 7 → dec = 0 ∨ dec = 2 ∨ dec = 3 →
  applicable_key enc blk = Some c → h !! c = Some (SQLiteCipherContext key) →
  readCtx blk = Some c' → h !! c' = Some (SQLiteCipherContext key) →
  num key ≠ 0 →
  cryptBuffer blk = Some s → h !! s = Some (Bytes old) →
  h !! d = Some (Bytes page) → h !! d2 = Some (Bytes junk) →
  0 ≤ pageSize blk ≤ Z.of_nat (length page) →
  pageSize blk ≤ Z.of_nat (length old) →
  ∃ h1 cipher,
    SQLite3CodecCallback (Some b) (Some d) nPageNum enc h = Some (h1, Some s) ∧
    load_bytes h1 (Some s) (pageSize blk) = Some cipher ∧
    SQLite3CodecCallback (Some b) (Some d2) nPageNum dec
      (<[d2 := Bytes cipher]> h1) =
    Some (<[d2 := Bytes (take (Z.to_nat (pageSize blk)) page)]> h1, Some d2).
Proof.
  intros Hb Henc Hdec Hkey Hc Hread Hc' Hnum Hbuf Hs Hd Hd2 Hn Hn'.
  set (n := pageSize blk) in *.
  set (cipher := arc4 key (take (Z.to_nat n) page)).
  assert (Hlen : length cipher = Z.to_nat n).
  { subst cipher. rewrite arc4_length, length_take. lia. }
  exists (<[s := Bytes (ciphered key n page old)]> h), cipher.
  assert (Hsb : s ≠ b) by (intros ->; congruence).
  assert (Hsc' : s ≠ c') by (intros ->; congruence).
  assert (Hd2b : d2 ≠ b) by (intros ->; congruence).
  assert (Hd2c' : d2 ≠ c') by (intros ->; congruence).
  split; [|split].
  - rewrite (callback_encrypt h b blk (Some d) nPageNum enc Hb Henc).
    rewrite Hkey, Hbuf. fold n.
    rewrite (SQLiteEncrypt_nonzero h c key d page s old n) by first [assumption | lia].
    reflexivity.
  - rewrite (load_bytes_Some _ s (ciphered key n page old)).
    + f_equal. unfold ciphered. fold cipher.
      rewrite take_app_length'; [reflexivity | symmetry; exact Hlen].
    + apply lookup_insert_eq.
    + rewrite ciphered_length by assumption. lia.
  - rewrite (callback_decrypt _ b blk (Some d2) nPageNum dec).
    + rewrite Hread. unfold SQLiteDecrypt. fold n.
      rewrite (SQLiteEncrypt_nonzero _ c' key d2 cipher d2 cipher n).
      * cbn [mbind option_bind]. f_equal. f_equal.
        rewrite insert_insert_eq. f_equal. f_equal.
        unfold ciphered. rewrite <- Hlen at 1 2.
        rewrite firstn_all, drop_all, app_nil_r.
        subst cipher. apply arc4_involutive.
      * rewrite !lookup_insert_ne by congruence. assumption.
      * assumption.
      * apply lookup_insert_eq.
      * apply lookup_insert_eq.
      * lia.
      * lia.
    + rewrite !lookup_insert_ne by congruence. assumption.
    + assumption.
Qed.

(** * A page size that outgrows the scratch array *)

(** X24: a page size that outgrows the scratch array.  When the pager
    of a database with a codec changes to a page size larger than the
    scratch array of the block, the size-change callback records the
    new size and leaves the keys, the scratch pointer and the scratch
    array as they are; the next page the callback encrypts for the main
    file (mode 6, write key not all zero) is written past the end of
    the scratch array. *)
Theorem page_size_outgrows_scratch
    (st : State) (i : nat) (pg : Pager) (b c s d : loc)
    (blk : CodecCryptBlock) (key old page : list Z) (newSize nPageNum : Z) :
  aDb st !! i = Some pg → pCodec pg = Some b →
  heap st !! b = Some (CryptBlock blk) →
  writeCtx blk = Some c → heap st !! c = Some (SQLiteCipherContext key) →
  num key ≠ 0 →
  cryptBuffer blk = Some s → heap st !! s = Some (Bytes old) →
  heap st !! d = Some (Bytes page) →
  Z.of_nat (length old) < newSize ≤ Z.of_nat (length page) →
  sqlite3PagerSetPagesize i newSize st =
    Some (mkState (<[b := CryptBlock (set_pageSize newSize blk)]> (heap st))
            (<[i := mkPager newSize (Some b)]> (aDb st)) (malloc_ok st)) ∧
  SQLite3CodecCallback (Some b) (Some d) nPageNum 6
    (<[b := CryptBlock (set_pageSize newSize blk)]> (heap st)) = None.
Proof.
  intros Hpg Hcodec Hb Hw Hc Hnum Hbuf Hs Hd Hsize.
  assert (Hcb : c ≠ b) by (intros ->; congruence).
  assert (Hsb : s ≠ b) by (intros ->; congruence).
  assert (Hdb : d ≠ b) by (intros ->; congruence).
  split.
  - unfold sqlite3PagerSetPagesize. rewrite Hpg. cbn [mbind option_bind].
    rewrite Hcodec.
    rewrite (SQLite3CodecSizeChangedCallback_ok (heap st) b blk newSize 0 Hb).
    reflexivity.
  - rewrite (callback_encrypt _ b (set_pageSize newSize blk) (Some d)
               nPageNum 6) by (first [apply lookup_insert_eq | left; reflexivity]).
    cbn [applicable_key Z.eqb Pos.eqb set_pageSize writeCtx cryptBuffer
         pageSize].
    rewrite Hw, Hbuf. unfold SQLiteEncrypt.
    rewrite (load_ctx_Some _ c key)
      by (rewrite lookup_insert_ne by congruence; assumption).
    cbn [mbind option_bind].
    destruct (num key =? 0) eqn:E; [apply Z.eqb_eq in E; contradiction|].
    rewrite (load_bytes_Some _ d page newSize)
      by (first [rewrite lookup_insert_ne by congruence; assumption | lia]).
    cbn [mbind option_bind]. unfold store_bytes. cbn [mbind option_bind].
    rewrite lookup_insert_ne by congruence. rewrite Hs.
    rewrite mbedtls_arc4_crypt_length, length_take.
    destruct (_ <=? _)%nat eqn:Hle; [|reflexivity].
    apply Nat.leb_le in Hle. lia.
Qed.

(** * Registering a codec, exactly *)

Lemma footprint_of_Some st i pg b blk :
  aDb st !! i = Some pg → pCodec pg = Some b →
  heap st !! b = Some (CryptBlock blk) → footprint_of st i = footprint b blk.
Proof.
  intros Hpg Hc Hb. unfold footprint_of.
  rewrite (codec_of_Some st i pg Hpg), Hc, Hb. reflexivity.
Qed.

Lemma footprint_of_None st i pg :
  aDb st !! i = Some pg → pCodec pg = NULL → footprint_of st i = ∅.
Proof.
  intros Hpg Hc. unfold footprint_of.
  rewrite (codec_of_Some st i pg Hpg), Hc. reflexivity.
Qed.

(** Replacing the codec of a pager frees what the codec registered
    before owned and changes nothing else, when the new block already
    records the pager's page size. *)
Lemma sqlite3PagerSetCodec_exact st i pg p :
  aDb st !! i = Some pg →
  (∀ b0, pCodec pg = Some b0 →
     ∃ blk0, heap st !! b0 = Some (CryptBlock blk0) ∧
             block_ok (heap st) blk0) →
  (∀ b, p = Some b →
     (b ∉ footprint_of st i) ∧
     ∃ blk, heap st !! b = Some (CryptBlock blk) ∧
            pageSize blk = pager_pageSize pg) →
  ∃ h',
    sqlite3PagerSetCodec i p st =
    Some (mkState h' (<[i := mkPager (pager_pageSize pg) p]> (aDb st))
            (malloc_ok st)) ∧
    ∀ l, h' !! l =
         if decide (l ∈ footprint_of st i) then None else heap st !! l.
Proof.
  intros Hpg Hold Hnew. unfold sqlite3PagerSetCodec. rewrite Hpg.
  cbn [mbind option_bind].
  assert (Hfree : ∃ h1,
            match pCodec pg with
            | Some _ => SQLite3CodecFreeCallback (pCodec pg) (heap st)
            | None => Some (heap st)
            end = Some h1 ∧
            ∀ l, h1 !! l =
                 if decide (l ∈ footprint_of st i) then None
                 else heap st !! l).
  { destruct (pCodec pg) as [b0|] eqn:Hc.
    - destruct (Hold b0 eq_refl) as (blk0 & Hb0 & Hok0).
      rewrite (footprint_of_Some st i pg b0 blk0 Hpg Hc Hb0).
      unfold SQLite3CodecFreeCallback.
      apply FreeCodecCryptBlock_exact; assumption.
    - exists (heap st). split; [reflexivity|]. intros l.
      rewrite (footprint_of_None st i pg Hpg Hc).
      rewrite decide_False by set_solver. reflexivity. }
  destruct Hfree as (h1 & -> & Hh1). cbn [mbind option_bind].
  exists h1. split; [|assumption].
  destruct p as [b|]; [|reflexivity].
  destruct (Hnew b eq_refl) as (Hbfp & blk & Hb & Hsize).
  assert (Hb1 : h1 !! b = Some (CryptBlock blk)).
  { rewrite Hh1, decide_False by assumption. assumption. }
  unfold SQLite3CodecSizeChangedCallback. cbn [mbind option_bind].
  rewrite (load_block_Some h1 b blk Hb1). cbn [mbind option_bind].
  rewrite Hsize, Z.eqb_refl. reflexivity.
Qed.

(** * Attach with a key *)

Lemma block_ok_weaken (h h' : gmap loc object) blk :
  h ⊆ h' → block_ok h blk → block_ok h' blk.
Proof.
  intros Hsub (Hr & Hw & Hs). repeat split.
  - intros c Hc. destruct (Hr c Hc) as [key Hkey]. exists key.
    eapply lookup_weaken; eassumption.
  - intros c Hc. destruct (Hw c Hc) as [key Hkey]. exists key.
    eapply lookup_weaken; eassumption.
  - intros s Hsb. destruct (Hs s Hsb) as [data Hdata]. exists data.
    eapply lookup_weaken; eassumption.
Qed.

Lemma malloc_succeeds_tail k st h d :
  malloc_succeeds (S k) st →
  malloc_succeeds k (mkState h d (tail (malloc_ok st))).
Proof. intros Hk. apply (malloc_succeeds_S k st Hk). Qed.

Lemma sqlite3CodecAttach_with_key_exact
    (st : State) (nDb : Z) (bytes : list Z) (n : Z) (pg : Pager) :
  wf st → 0 ≤ nDb → aDb st !! Z.to_nat nDb = Some pg →
  0 < pager_pageSize pg → 0 < n ≤ Z.of_nat (length bytes) →
  malloc_succeeds 3 st →
  ∃ st' c b s,
    sqlite3CodecAttach nDb (Some bytes) n st = Some (st', SQLITE_OK) ∧
    heap st !! c = None ∧ heap st !! b = None ∧ heap st !! s = None ∧
    c ≠ b ∧ c ≠ s ∧ b ≠ s ∧
    aDb st' =
      <[Z.to_nat nDb := mkPager (pager_pageSize pg) (Some b)]> (aDb st) ∧
    heap st' !! b =
      Some (CryptBlock (mkBlock (Z.to_nat nDb) (pager_pageSize pg)
                          (Some c) (Some c) (Some s))) ∧
    heap st' !! c = Some (SQLiteCipherContext (derived_key bytes n)) ∧
    heap st' !! s = Some (Bytes (repeat 0 (Z.to_nat (pager_pageSize pg)))) ∧
    ∀ l, l ≠ b → l ≠ c → l ≠ s →
      heap st' !! l =
      if decide (l ∈ footprint_of st (Z.to_nat nDb)) then None
      else heap st !! l.
Proof.
  intros Hwf HnDb Hpg Hsize Hn Hok.
  destruct Hwf as (Hlen & Howned & Hkeys).
  unfold sqlite3CodecAttach.
  rewrite bool_decide_eq_false_2 by discriminate.
  destruct (n =? 0) eqn:En; [apply Z.eqb_eq in En; lia|]. cbn [orb].
  rewrite (CipherContextNew_Some st bytes n Hn)
    by (apply (malloc_succeeds_S 2 st Hok)).
  cbn [mbind option_bind].
  set (c := fresh (dom (heap st))).
  assert (Hc : heap st !! c = None) by apply fresh_not_live.
  unfold attach_block, pager_index.
  destruct (nDb <? 0) eqn:Eneg; [apply Z.ltb_lt in Eneg; lia|].
  cbn [aDb]. rewrite Hpg. cbn [mbind option_bind].
  set (i := Z.to_nat nDb) in *.
  destruct (CreateCodeCryptBlock_fresh_exact
              (mkState (<[c := SQLiteCipherContext (derived_key bytes n)]>
                          (heap st)) (aDb st) (tail (malloc_ok st)))
              (Some c) i pg Hpg Hsize)
    as (b & s & Hb1 & Hs1 & Hbs & ->).
  { apply malloc_succeeds_tail. assumption. }
  cbn [mbind option_bind]. cbn [heap aDb malloc_ok] in *.
  assert (Hcb : c ≠ b).
  { intros <-. rewrite lookup_insert_eq in Hb1. discriminate. }
  assert (Hcs : c ≠ s).
  { intros <-. rewrite lookup_insert_eq in Hs1. discriminate. }
  rewrite lookup_insert_ne in Hb1, Hs1 by assumption.
  match goal with
  | |- context [sqlite3PagerSetCodec i (Some b) ?X] => set (st2 := X)
  end.
  assert (Hsub : heap st ⊆ heap st2).
  { cbn [heap st2]. apply insert_subseteq_r; [assumption|].
    apply insert_subseteq_r; [assumption|].
    apply insert_subseteq; assumption. }
  assert (Hfp : footprint_of st2 i = footprint_of st i).
  { apply footprint_of_extend; [assumption | reflexivity | assumption]. }
  destruct (sqlite3PagerSetCodec_exact st2 i pg (Some b)) as (h' & -> & Hh').
  - exact Hpg.
  - intros b0 Hb0. destruct Howned as [Hlive _].
    destruct (Hlive i b0) as (blk0 & Hblk0 & Hok0).
    { rewrite (codec_of_Some st i pg Hpg). assumption. }
    exists blk0. split; [eapply lookup_weaken; eassumption|].
    eapply block_ok_weaken; eassumption.
  - intros ? [= <-]. split.
    + rewrite Hfp. intros Hin.
      destruct (footprint_of_live st i b Howned Hin) as [o Ho]. congruence.
    + eexists. split; [apply lookup_insert_eq | reflexivity].
  - cbn [mbind option_bind]. eexists _, c, b, s.
    split; [reflexivity|]. cbn [heap aDb st2].
    assert (Hout : ∀ l, heap st !! l = None → l ∉ footprint_of st i).
    { intros l Hl Hin.
      destruct (footprint_of_live st i l Howned Hin) as [o Ho]. congruence. }
    repeat (split; [assumption|]). split; [reflexivity|].
    rewrite !Hh', Hfp, !decide_False by auto. cbn [heap st2].
    split; [apply lookup_insert_eq|]. split.
    { rewrite !lookup_insert_ne by congruence. apply lookup_insert_eq. }
    split.
    { rewrite lookup_insert_ne by congruence. apply lookup_insert_eq. }
    intros l Hlb Hlc Hls. rewrite Hh', Hfp. case_decide; [reflexivity|].
    cbn [heap st2]. rewrite !lookup_insert_ne by congruence. reflexivity.
Qed.

(** X8: attach with a key.  On a connection at rest, with memory for
    three allocations and a positive page size, sqlite3CodecAttach with
    a passphrase of positive length returns SQLITE_OK and registers a
    new crypto block for the database: its read key and write key are
    one new context holding the first eight bytes of the SHA-1 digest of
    the passphrase, its scratch array is a new byte array of the pager's
    page size, whatever it holds.  What the codec registered before for
    that database owned is freed, nothing else in memory changes, and
    the connection is at rest again. *)
Theorem sqlite3CodecAttach_with_key
    (st : State) (nDb : Z) (bytes : list Z) (n : Z) (pg : Pager) :
  wf st → 0 ≤ nDb → aDb st !! Z.to_nat nDb = Some pg →
  0 < pager_pageSize pg → 0 < n ≤ Z.of_nat (length bytes) →
  malloc_succeeds 3 st →
  ∃ st' c b s data,
    sqlite3CodecAttach nDb (Some bytes) n st = Some (st', SQLITE_OK) ∧
    wf st' ∧
    heap st !! c = None ∧ heap st !! b = None ∧ heap st !! s = None ∧
    c ≠ b ∧ c ≠ s ∧ b ≠ s ∧
    aDb st' =
      <[Z.to_nat nDb := mkPager (pager_pageSize pg) (Some b)]> (aDb st) ∧
    heap st' !! b =
      Some (CryptBlock (mkBlock (Z.to_nat nDb) (pager_pageSize pg)
                          (Some c) (Some c) (Some s))) ∧
    heap st' !! c = Some (SQLiteCipherContext (derived_key bytes n)) ∧
    heap st' !! s = Some (Bytes data) ∧
    Z.of_nat (length data) = pager_pageSize pg ∧
    ∀ l, l ≠ b → l ≠ c → l ≠ s →
      heap st' !! l =
      if decide (l ∈ footprint_of st (Z.to_nat nDb)) then None
      else heap st !! l.
Proof.
  intros Hwf HnDb Hpg Hsize Hn Hok.
  destruct (sqlite3CodecAttach_with_key_exact st nDb bytes n pg
              Hwf HnDb Hpg Hsize Hn Hok)
    as (st' & c & b & s & Hres & Hc & Hb & Hs & Hcb & Hcs & Hbs & Hdb
        & Hb' & Hc' & Hs' & Hrest).
  exists st', c, b, s, (repeat 0 (Z.to_nat (pager_pageSize pg))).
  split; [exact Hres|]. split.
  { destruct (sqlite3CodecAttach_wf st nDb (Some bytes) n Hwf)
      as (st1 & rc1 & Hres1 & Hwf1).
    - apply lookup_lt_Some in Hpg. lia.
    - intros ? [= <-]. lia.
    - rewrite Hres in Hres1. injection Hres1 as <- _. exact Hwf1. }
  repeat (split; [assumption|]).
  split; [rewrite repeat_length; lia | exact Hrest].
Qed.

(** * Attach that fails *)

Lemma sqlite3_malloc_extends n init st st' p :
  sqlite3_malloc n init st = (st', p) →
  aDb st' = aDb st ∧ heap st ⊆ heap st' ∧
  ∀ l, p = Some l →
    heap st !! l = None ∧ heap st' = <[l := init]> (heap st).
Proof.
  destruct st as [h d ok].
  destruct (sqlite3_malloc_cases n init h d ok)
    as [(ok' & -> & _) | (l & Hl & _ & -> & _)]; intros [= <- <-];
    cbn [heap aDb].
  - split; [reflexivity|]. split; [reflexivity | discriminate].
  - split; [reflexivity|]. split; [apply insert_subseteq; assumption|].
    intros ? [= <-]. split; [assumption | reflexivity].
Qed.

Lemma CipherContextNew_extends pKey n st st' p :
  CipherContextNew pKey n st = Some (st', p) →
  aDb st' = aDb st ∧ heap st ⊆ heap st'.
Proof.
  unfold CipherContextNew.
  destruct (bool_decide (pKey = None) || (n <=? 0)).
  { intros [= <- <-]. split; reflexivity. }
  destruct (sqlite3_malloc _ _ st) as [st1 ctx] eqn:Hm.
  apply sqlite3_malloc_extends in Hm. destruct Hm as (Hdb & Hsub & Hnew).
  destruct ctx as [l|].
  2: { intros [= <- <-]. split; assumption. }
  destruct (Hnew l eq_refl) as [Hl Hh1].
  assert (Hins : ∀ o, heap st ⊆ <[l := o]> (heap st1)).
  { intros o. rewrite Hh1, insert_insert_eq.
    apply insert_subseteq. assumption. }
  destruct (negb (bool_decide (pKey = None)) && (0 <? n)).
  - destruct pKey as [bytes|]; [|discriminate]. cbn [mbind option_bind].
    destruct (_ <? n); [discriminate|]. intros [= <- <-].
    split; [assumption | apply Hins].
  - intros [= <- <-]. split; [assumption | apply Hins].
Qed.

Lemma CipherContextClone_extends org st st' p :
  CipherContextClone org st = Some (st', p) →
  aDb st' = aDb st ∧ heap st ⊆ heap st'.
Proof.
  unfold CipherContextClone.
  destruct (sqlite3_malloc _ _ st) as [st1 ctx] eqn:Hm.
  apply sqlite3_malloc_extends in Hm. destruct Hm as (Hdb & Hsub & Hnew).
  destruct ctx as [l|].
  2: { intros [= <- <-]. split; assumption. }
  destruct (Hnew l eq_refl) as [Hl Hh1].
  destruct (load_ctx (heap st1) org) as [key|]; [|discriminate].
  cbn [mbind option_bind]. intros [= <- <-]. split; [assumption|].
  cbn [heap set_heap]. rewrite Hh1, insert_insert_eq.
  apply insert_subseteq. assumption.
Qed.

Lemma attach_block_failure nDb c st st' rc :
  attach_block nDb (Some c) st = Some (st', rc) →
  (rc = SQLITE_OK ∨ rc = SQLITE_NOMEM) ∧
  (rc ≠ SQLITE_OK → aDb st' = aDb st ∧ heap st ⊆ heap st').
Proof.
  unfold attach_block, pager_index.
  destruct (nDb <? 0); [discriminate|].
  destruct (aDb st !! Z.to_nat nDb) as [pg|] eqn:Hpg; [|discriminate].
  cbn [mbind option_bind].
  destruct (CreateCodeCryptBlock_new st (Some c) (Z.to_nat nDb) pg Hpg)
    as (st1 & p & -> & Hdb & Hsub & _).
  cbn [mbind option_bind]. destruct p as [b|].
  - destruct (sqlite3PagerSetCodec _ _ st1) as [st2|]; [|discriminate].
    cbn [mbind option_bind]. intros [= <- <-].
    split; [left; reflexivity | intros Hne; exfalso; apply Hne; reflexivity].
  - intros [= <- <-]. split; [right; reflexivity | intros _; split; assumption].
Qed.

(** X10: sqlite3CodecAttach returns SQLITE_OK or SQLITE_NOMEM, never the
    SQLITE_ERROR its result is initialised with.  When it returns
    SQLITE_NOMEM no pager has changed its codec and whatever was in
    memory is still there, unchanged: the call has freed and
    overwritten nothing. *)
Theorem sqlite3CodecAttach_failure
    (st st' : State) (nDb : Z) (pKey : option (list Z)) (nKeyLen : Z)
    (rc : Z) :
  sqlite3CodecAttach nDb pKey nKeyLen st = Some (st', rc) →
  (rc = SQLITE_OK ∨ rc = SQLITE_NOMEM) ∧
  (rc ≠ SQLITE_OK → aDb st' = aDb st ∧ heap st ⊆ heap st').
Proof.
  assert (Hsame : ∀ r, Some (st, r) = Some (st', rc) →
            r = SQLITE_OK ∨ r = SQLITE_NOMEM →
            (rc = SQLITE_OK ∨ rc = SQLITE_NOMEM) ∧
            (rc ≠ SQLITE_OK → aDb st' = aDb st ∧ heap st ⊆ heap st')).
  { intros r [= <- <-] Hr. split; [assumption | intros _; split; reflexivity]. }
  assert (Hnomem : ∀ st1, aDb st1 = aDb st → heap st ⊆ heap st1 →
            Some (st1, SQLITE_NOMEM) = Some (st', rc) →
            (rc = SQLITE_OK ∨ rc = SQLITE_NOMEM) ∧
            (rc ≠ SQLITE_OK → aDb st' = aDb st ∧ heap st ⊆ heap st')).
  { intros st1 Hdb Hsub [= <- <-].
    split; [right; reflexivity | intros _; split; assumption]. }
  assert (Hblock : ∀ st1 c, aDb st1 = aDb st → heap st ⊆ heap st1 →
            attach_block nDb (Some c) st1 = Some (st', rc) →
            (rc = SQLITE_OK ∨ rc = SQLITE_NOMEM) ∧
            (rc ≠ SQLITE_OK → aDb st' = aDb st ∧ heap st ⊆ heap st')).
  { intros st1 c Hdb Hsub Hres. apply attach_block_failure in Hres.
    destruct Hres as [Hrc Hkeep]. split; [assumption|]. intros Hne.
    destruct (Hkeep Hne) as [Hdb' Hsub']. split; [congruence|].
    etransitivity; eassumption. }
  unfold sqlite3CodecAttach.
  destruct (bool_decide (pKey = None) || (nKeyLen =? 0)).
  - destruct (nDb =? 0); [intros H; apply (Hsame _ H); auto|].
    destruct (aDb st !! 0%nat) as [pg0|]; [|discriminate].
    cbn [mbind option_bind]. unfold sqlite3PagerGetCodec.
    destruct (pCodec pg0) as [b0|]; [|intros H; apply (Hsame _ H); auto].
    destruct (load_block (heap st) (Some b0)) as [blk0|]; [|discriminate].
    cbn [mbind option_bind].
    destruct (readCtx blk0) as [c0|]; [|intros H; apply (Hsame _ H); auto].
    destruct (CipherContextClone (Some c0) st) as [[st1 ctx]|] eqn:Hclone;
      [|discriminate].
    apply CipherContextClone_extends in Hclone. destruct Hclone as [Hdb Hsub].
    cbn [mbind option_bind]. destruct ctx as [c|].
    + apply Hblock; assumption.
    + apply Hnomem; assumption.
  - destruct (CipherContextNew pKey nKeyLen st) as [[st1 ctx]|] eqn:Hnew;
      [|discriminate].
    apply CipherContextNew_extends in Hnew. destruct Hnew as [Hdb Hsub].
    cbn [mbind option_bind]. destruct ctx as [c|].
    + apply Hblock; assumption.
    + apply Hnomem; assumption.
Qed.

(** X9: a key with a negative length.  sqlite3CodecAttach, and with it
    sqlite3_key_v2 and sqlite3_key, given a key pointer that is not NULL
    and a negative length, return SQLITE_NOMEM and change nothing. *)
Theorem sqlite3CodecAttach_negative_length
    (st : State) (nDb : Z) (bytes : list Z) (nKeyLen : Z) :
  nKeyLen < 0 →
  sqlite3CodecAttach nDb (Some bytes) nKeyLen st = Some (st, SQLITE_NOMEM) ∧
  sqlite3_key_v2 (Some bytes) nKeyLen st = Some (st, SQLITE_NOMEM) ∧
  sqlite3_key (Some bytes) nKeyLen st = Some (st, SQLITE_NOMEM).
Proof.
  intros Hneg.
  assert (H : ∀ i, sqlite3CodecAttach i (Some bytes) nKeyLen st
                   = Some (st, SQLITE_NOMEM)).
  { intros i. unfold sqlite3CodecAttach, CipherContextNew.
    rewrite bool_decide_eq_false_2 by discriminate.
    destruct (nKeyLen =? 0) eqn:E0; [apply Z.eqb_eq in E0; lia|].
    destruct (nKeyLen <=? 0) eqn:E1; [|apply Z.leb_gt in E1; lia].
    reflexivity. }
  split; [apply H|]. split; apply H.
Qed.

(** * Rekey, exactly *)

Lemma rekey_rewrite_exact host b st blk :
  heap st !! b = Some (CryptBlock blk) →
  let rc := (rekey_transaction host).1 in
  let freed := if rc =? SQLITE_OK then readCtx blk else writeCtx blk in
  let kept := if rc =? SQLITE_OK then writeCtx blk else readCtx blk in
  (∀ l, freed = Some l → is_Some (heap st !! l)) →
  rekey_rewrite host b st =
  let st1 :=
    set_heap (<[b := CryptBlock (mkBlock (pager blk) (pageSize blk) kept kept
                                   (cryptBuffer blk))]>
                (free_at freed (heap st))) st in
  st2 ← (if bool_decide (kept = NULL) then sqlite3PagerSetCodec 0 NULL st1
         else Some st1);
  Some (st2, rc, (rekey_transaction host).2 ++ [mutex_leave]).
Proof.
  intros Hb. rewrite rekey_rewrite_transaction.
  destruct (rekey_transaction host) as [rc calls]. cbn [fst snd].
  rewrite (load_block_Some _ b blk Hb). cbn [mbind option_bind].
  intros Hlive.
  destruct (rc =? SQLITE_OK); rewrite (sqlite3_free_live _ _ Hlive);
    cbn [mbind option_bind]; unfold store_block, set_readCtx, set_writeCtx.
  - destruct (writeCtx blk) as [w|].
    + rewrite !bool_decide_eq_false_2; [reflexivity | discriminate |].
      intros [H _]. discriminate.
    + rewrite !bool_decide_eq_true_2; [reflexivity | reflexivity |].
      split; reflexivity.
  - destruct (readCtx blk) as [r|].
    + rewrite !bool_decide_eq_false_2; [reflexivity | discriminate |].
      intros [H _]. discriminate.
    + rewrite !bool_decide_eq_true_2; [reflexivity | reflexivity |].
      split; reflexivity.
Qed.

Lemma rekey_rewrite_result host b st st' rc calls :
  rekey_rewrite host b st = Some (st', rc, calls) →
  rc = (rekey_transaction host).1 ∧
  calls = (rekey_transaction host).2 ++ [mutex_leave].
Proof.
  rewrite rekey_rewrite_transaction.
  destruct (rekey_transaction host) as [rc0 calls0]. cbn [fst snd].
  destruct (load_block (heap st) (Some b)) as [blk|]; [|discriminate].
  cbn [mbind option_bind].
  destruct (if rc0 =? SQLITE_OK then _ else _) as [[h blk1]|]; [|discriminate].
  cbn [mbind option_bind].
  destruct (if bool_decide _ then _ else _) as [st2|]; [|discriminate].
  cbn [mbind option_bind]. intros [= <- <- <-]. split; reflexivity.
Qed.

Lemma sqlite3_rekey_v2_result host pKey nKey st st' rc calls :
  sqlite3_rekey_v2 host pKey nKey st = Some (st', rc, calls) →
  (rc = SQLITE_NOMEM ∧ calls = [] ∧ codec_of st 0 = NULL) ∨
  (rc = (rekey_transaction host).1 ∧
   calls = (rekey_transaction host).2 ++ [mutex_leave]).
Proof.
  unfold sqlite3_rekey_v2.
  destruct (aDb st !! 0%nat) as [p|] eqn:Hp; [|discriminate].
  cbn [mbind option_bind].
  destruct (CipherContextNew pKey nKey st) as [[st1 ctx]|]; [|discriminate].
  cbn [mbind option_bind]. unfold sqlite3PagerGetCodec.
  destruct (pCodec p) as [b|] eqn:Hcodec.
  - destruct (load_block (heap st1) (Some b)) as [blk|]; [|discriminate].
    cbn [mbind option_bind]. intros H. right.
    eapply rekey_rewrite_result. eassumption.
  - destruct (CreateCodeCryptBlock ctx 0 (-1) NULL st1) as [[st2 block]|];
      [|discriminate].
    cbn [mbind option_bind]. destruct block as [b|].
    + destruct (load_block (heap st2) (Some b)) as [blk|]; [|discriminate].
      cbn [mbind option_bind].
      destruct (sqlite3PagerSetCodec 0 (Some b) _) as [st3|]; [|discriminate].
      cbn [mbind option_bind]. intros H. right.
      eapply rekey_rewrite_result. eassumption.
    + intros [= <- <- <-]. left. split; [reflexivity|].
      split; [reflexivity|]. rewrite (codec_of_Some st 0 p Hp). assumption.
Qed.

(** X1: the transaction of rekey in closed form.  A rekey that returns
    either gave up before the transaction for lack of memory, on a
    primary database without codec, returning SQLITE_NOMEM, or ran the
    transaction.  If the transaction cannot begin, rekey rolls back and
    returns the status of the begin.  Otherwise it reads every page from
    1 to the page count except the skipped one, in order and whatever
    the earlier pages returned, and marks a page dirty only when its
    read succeeded; it then commits when the last page visited
    succeeded (or none was visited) and returns the status of the
    commit, and rolls back and returns the status of that last page
    otherwise. *)
Theorem sqlite3_rekey_v2_transaction
    (host : Host) (pKey : option (list Z)) (nKey : Z) (st st' : State)
    (rc : Z) (calls : list Call) :
  sqlite3_rekey_v2 host pKey nKey st = Some (st', rc, calls) →
  (rc = SQLITE_NOMEM ∧ calls = [] ∧ codec_of st 0 = NULL) ∨
  (rc, calls) =
  if BtreeBeginTrans host =? SQLITE_OK then
    if loop_status host =? SQLITE_OK then
      (BtreeCommit host,
       [mutex_enter; begin_trans] ++
       flat_map (page_calls host) (visited_pages host) ++
       [btree_commit; mutex_leave])
    else
      (loop_status host,
       [mutex_enter; begin_trans] ++
       flat_map (page_calls host) (visited_pages host) ++
       [btree_rollback; mutex_leave])
  else
    (BtreeBeginTrans host,
     [mutex_enter; begin_trans; btree_rollback; mutex_leave]).
Proof.
  intros Hres. apply sqlite3_rekey_v2_result in Hres.
  destruct Hres as [Hnomem | [-> ->]]; [left; assumption | right].
  rewrite rekey_transaction_closed_form.
  destruct (BtreeBeginTrans host =? SQLITE_OK); [|reflexivity].
  destruct (loop_status host =? SQLITE_OK); cbn [fst snd];
    rewrite <- !app_assoc; reflexivity.
Qed.


Lemma rekey_transaction_commits host :
  BtreeBeginTrans host = SQLITE_OK → loop_status host = SQLITE_OK →
  BtreeCommit host = SQLITE_OK →
  rekey_transaction host =
  (SQLITE_OK,
   [mutex_enter; begin_trans] ++
   flat_map (page_calls host) (visited_pages host) ++ [btree_commit]).
Proof.
  intros Hbegin Hloop Hcommit. rewrite rekey_transaction_closed_form.
  rewrite Hbegin, Hloop, Hcommit. reflexivity.
Qed.

Lemma registered_pager st i b blk :
  registered st i b blk →
  ∃ pg, aDb st !! i = Some pg ∧ pCodec pg = Some b.
Proof.
  intros [Hc _]. unfold codec_of in Hc.
  destruct (aDb st !! i) as [pg|]; [|discriminate]. eauto.
Qed.

(** Changing the key of an encrypted database: what the code of rekey
    itself leaves in memory. *)
Lemma sqlite3_rekey_v2_changes_key_exact
    (host : Host) (st : State) (b c : loc) (blk : CodecCryptBlock)
    (key bytes : list Z) (n : Z) :
  registered st 0 b blk → readCtx blk = Some c →
  heap st !! c = Some (SQLiteCipherContext key) →
  0 < n ≤ Z.of_nat (length bytes) → malloc_succeeds 1 st →
  BtreeBeginTrans host = SQLITE_OK → loop_status host = SQLITE_OK →
  BtreeCommit host = SQLITE_OK →
  ∃ l,
    heap st !! l = None ∧
    sqlite3_rekey_v2 host (Some bytes) n st =
    Some (mkState
            (<[b := CryptBlock (mkBlock (pager blk) (pageSize blk) (Some l)
                                  (Some l) (cryptBuffer blk))]>
               (<[l := SQLiteCipherContext (derived_key bytes n)]>
                  (delete c (heap st))))
            (aDb st) (tail (malloc_ok st)),
          SQLITE_OK,
          [mutex_enter; begin_trans] ++
          flat_map (page_calls host) (visited_pages host) ++
          [btree_commit; mutex_leave]).
Proof.
  intros Hreg Hread Hc Hn Hok Hbegin Hloop Hcommit.
  destruct (registered_pager st 0 b blk Hreg) as (pg & Hpg & Hcodec).
  destruct Hreg as [_ Hb].
  set (l := fresh (dom (heap st))).
  assert (Hl : heap st !! l = None) by apply fresh_not_live.
  assert (Hlb : l ≠ b) by (intros Heq; rewrite Heq in Hl; congruence).
  assert (Hlc : l ≠ c) by (intros Heq; rewrite Heq in Hl; congruence).
  assert (Hcb : c ≠ b) by (intros Heq; rewrite Heq in Hc; congruence).
  exists l. split; [assumption|].
  unfold sqlite3_rekey_v2. rewrite Hpg. cbn [mbind option_bind].
  unfold sqlite3PagerGetCodec. rewrite Hcodec.
  rewrite (CipherContextNew_Some st bytes n Hn Hok). fold l.
  cbn [mbind option_bind heap].
  rewrite (load_block_Some _ b blk)
    by (rewrite lookup_insert_ne by assumption; assumption).
  cbn [mbind option_bind]. unfold store_block, set_heap.
  cbn [heap aDb malloc_ok].
  rewrite (rekey_rewrite_exact host b _ (set_writeCtx (Some l) blk)).
  2: { cbn [heap]. apply lookup_insert_eq. }
  2: { rewrite (rekey_transaction_commits host Hbegin Hloop Hcommit).
       cbn [fst heap set_writeCtx readCtx]. rewrite Hread.
       intros ? [= <-]. rewrite !lookup_insert_ne by congruence. eauto. }
  rewrite (rekey_transaction_commits host Hbegin Hloop Hcommit).
  cbn [fst snd Z.eqb SQLITE_OK set_writeCtx readCtx writeCtx pager pageSize
       cryptBuffer heap aDb malloc_ok set_heap].
  rewrite bool_decide_eq_false_2 by discriminate. cbn [mbind option_bind].
  rewrite Hread. cbn [free_at]. f_equal. f_equal; [f_equal|].
  - f_equal. rewrite !delete_insert_ne by congruence.
    rewrite insert_insert_eq. reflexivity.
  - rewrite <- !app_assoc. reflexivity.
Qed.

(** X11: changing the key of an encrypted database.  When the primary
    database has a codec with a read key, the new key is not empty, its
    context can be allocated and the transaction succeeds, rekey returns
    SQLITE_OK; the old read-key context is freed, and read key and write
    key of the block are one new context holding the first eight bytes
    of the SHA-1 digest of the new passphrase; the block keeps its
    pager, its page size and its scratch array.  Everything else in
    memory is kept up to the content of the byte arrays (the scratch
    array and the pages, which the pager hands to the page callback
    during the transaction). *)
Theorem sqlite3_rekey_v2_changes_key
    (host : Host) (st : State) (b c : loc) (blk : CodecCryptBlock)
    (key bytes : list Z) (n : Z) :
  registered st 0 b blk → readCtx blk = Some c →
  heap st !! c = Some (SQLiteCipherContext key) →
  0 < n ≤ Z.of_nat (length bytes) → malloc_succeeds 1 st →
  BtreeBeginTrans host = SQLITE_OK → loop_status host = SQLITE_OK →
  BtreeCommit host = SQLITE_OK →
  ∃ st' l,
    sqlite3_rekey_v2 host (Some bytes) n st =
    Some (st', SQLITE_OK,
          [mutex_enter; begin_trans] ++
          flat_map (page_calls host) (visited_pages host) ++
          [btree_commit; mutex_leave]) ∧
    heap st !! l = None ∧
    aDb st' = aDb st ∧
    heap st' !! b =
      Some (CryptBlock (mkBlock (pager blk) (pageSize blk) (Some l) (Some l)
                          (cryptBuffer blk))) ∧
    heap st' !! l = Some (SQLiteCipherContext (derived_key bytes n)) ∧
    heap st' !! c = None ∧
    same_up_to_bytes {[b; l; c]} (heap st) (heap st').
Proof.
  intros Hreg Hread Hc Hn Hok Hbegin Hloop Hcommit.
  destruct (sqlite3_rekey_v2_changes_key_exact host st b c blk key bytes n
              Hreg Hread Hc Hn Hok Hbegin Hloop Hcommit) as (l & Hl & Hres).
  destruct Hreg as [_ Hb].
  assert (Hlb : l ≠ b) by (intros Heq; rewrite Heq in Hl; congruence).
  assert (Hlc : l ≠ c) by (intros Heq; rewrite Heq in Hl; congruence).
  assert (Hcb : c ≠ b) by (intros Heq; rewrite Heq in Hc; congruence).
  eexists _, l. split; [exact Hres|]. cbn [heap aDb].
  split; [assumption|]. split; [reflexivity|].
  split; [apply lookup_insert_eq|]. split.
  { rewrite lookup_insert_ne by congruence. apply lookup_insert_eq. }
  split.
  { rewrite !lookup_insert_ne by congruence. apply lookup_delete_eq. }
  apply same_up_to_bytes_lookup. intros k Hk.
  rewrite !lookup_insert_ne by set_solver.
  apply lookup_delete_ne. set_solver.
Qed.

Lemma CipherContextNew_no_key pKey n st :
  pKey = None ∨ n ≤ 0 ∨ (∃ rest, malloc_ok st = false :: rest) →
  ∃ ok, CipherContextNew pKey n st =
        Some (mkState (heap st) (aDb st) ok, NULL).
Proof.
  intros Hno. unfold CipherContextNew.
  destruct (bool_decide (pKey = None) || (n <=? 0)) eqn:E.
  { exists (malloc_ok st). destruct st; reflexivity. }
  apply orb_false_iff in E. destruct E as [E1 E2].
  apply bool_decide_eq_false in E1. apply Z.leb_gt in E2.
  destruct Hno as [Hno|[Hno|[rest Hrest]]]; [contradiction | lia |].
  exists rest. unfold sqlite3_malloc, sizeof_SQLiteCipherContext.
  cbn [Z.leb Z.compare]. rewrite Hrest. reflexivity.
Qed.



Lemma sqlite3PagerSetCodec_first st i pg b blk :
  aDb st !! i = Some pg → pCodec pg = NULL →
  heap st !! b = Some (CryptBlock blk) → pageSize blk = pager_pageSize pg →
  sqlite3PagerSetCodec i (Some b) st =
  Some (mkState (heap st)
          (<[i := mkPager (pager_pageSize pg) (Some b)]> (aDb st))
          (malloc_ok st)).
Proof.
  intros Hpg Hcodec Hb Hsize. unfold sqlite3PagerSetCodec.
  rewrite Hpg. cbn [mbind option_bind]. rewrite Hcodec. unfold NULL.
  cbn [mbind option_bind]. unfold SQLite3CodecSizeChangedCallback.
  cbn [mbind option_bind]. rewrite (load_block_Some _ b blk Hb).
  cbn [mbind option_bind]. rewrite Hsize, Z.eqb_refl. reflexivity.
Qed.

(** Encrypting a plain database: what the code of rekey itself leaves
    in memory. *)
Lemma sqlite3_rekey_v2_encrypts_exact
    (host : Host) (st : State) (pg : Pager) (bytes : list Z) (n : Z) :
  aDb st !! 0%nat = Some pg → pCodec pg = NULL → 0 < pager_pageSize pg →
  0 < n ≤ Z.of_nat (length bytes) → malloc_succeeds 3 st →
  BtreeBeginTrans host = SQLITE_OK → loop_status host = SQLITE_OK →
  BtreeCommit host = SQLITE_OK →
  ∃ c b s,
    heap st !! c = None ∧ heap st !! b = None ∧ heap st !! s = None ∧
    c ≠ b ∧ c ≠ s ∧ b ≠ s ∧
    sqlite3_rekey_v2 host (Some bytes) n st =
    Some (mkState
            (<[b := CryptBlock (mkBlock 0 (pager_pageSize pg) (Some c)
                                  (Some c) (Some s))]>
               (<[s := Bytes (repeat 0 (Z.to_nat (pager_pageSize pg)))]>
                  (<[c := SQLiteCipherContext (derived_key bytes n)]>
                     (heap st))))
            (<[0%nat := mkPager (pager_pageSize pg) (Some b)]> (aDb st))
            (drop 3 (malloc_ok st)),
          SQLITE_OK,
          [mutex_enter; begin_trans] ++
          flat_map (page_calls host) (visited_pages host) ++
          [btree_commit; mutex_leave]).
Proof.
  intros Hpg Hcodec Hsize Hn Hok Hbegin Hloop Hcommit.
  set (c := fresh (dom (heap st))).
  assert (Hc : heap st !! c = None) by apply fresh_not_live.
  destruct (CreateCodeCryptBlock_fresh_exact
              (mkState (<[c := SQLiteCipherContext (derived_key bytes n)]>
                          (heap st)) (aDb st) (tail (malloc_ok st)))
              (Some c) 0 pg Hpg Hsize)
    as (b & s & Hb1 & Hs1 & Hbs & Hcreate).
  { apply malloc_succeeds_tail. assumption. }
  cbn [heap aDb malloc_ok] in *.
  assert (Hcb : c ≠ b).
  { intros <-. rewrite lookup_insert_eq in Hb1. discriminate. }
  assert (Hcs : c ≠ s).
  { intros <-. rewrite lookup_insert_eq in Hs1. discriminate. }
  rewrite lookup_insert_ne in Hb1, Hs1 by assumption.
  exists c, b, s. repeat (split; [assumption|]).
  unfold sqlite3_rekey_v2. rewrite Hpg. cbn [mbind option_bind].
  unfold sqlite3PagerGetCodec. rewrite Hcodec. unfold NULL at 1.
  rewrite (CipherContextNew_Some st bytes n Hn)
    by (apply (malloc_succeeds_S 2 st Hok)).
  fold c. cbn [mbind option_bind]. rewrite Hcreate.
  cbn [mbind option_bind heap].
  rewrite (load_block_Some _ b _ (lookup_insert_eq _ _ _)).
  cbn [mbind option_bind]. unfold store_block, set_heap, set_readCtx.
  cbn [heap aDb malloc_ok pager pageSize readCtx writeCtx cryptBuffer].
  rewrite insert_insert_eq.
  erewrite sqlite3PagerSetCodec_first;
    [|exact Hpg | exact Hcodec | apply lookup_insert_eq | reflexivity].
  cbn [mbind option_bind heap aDb malloc_ok].
  erewrite rekey_rewrite_exact; [|apply lookup_insert_eq|].
  2: { rewrite (rekey_transaction_commits host Hbegin Hloop Hcommit).
       cbn [fst Z.eqb SQLITE_OK readCtx]. intros ? [=]. }
  rewrite (rekey_transaction_commits host Hbegin Hloop Hcommit).
  cbn [fst snd Z.eqb SQLITE_OK readCtx writeCtx pager pageSize
       cryptBuffer heap aDb malloc_ok].
  rewrite bool_decide_eq_false_2 by discriminate. cbn [mbind option_bind].
  unfold set_heap. cbn [heap aDb malloc_ok free_at NULL].
  rewrite insert_insert_eq. f_equal. f_equal; [f_equal|].
  - f_equal. destruct (malloc_ok st) as [|? [|? [|? ?]]]; reflexivity.
  - rewrite <- !app_assoc. reflexivity.
Qed.

(** X14: encrypting a plain database.  When the primary database has no
    codec, the key is not empty, the three allocations succeed, the
    page size is positive and the transaction succeeds, rekey returns
    SQLITE_OK and leaves a new crypto block registered with the primary
    pager: read key and write key are one new context holding the first
    eight bytes of the SHA-1 digest of the passphrase, and the scratch
    array is a new byte array of the page size, whatever it holds.
    Everything else in memory is kept up to the content of the byte
    arrays. *)
Theorem sqlite3_rekey_v2_encrypts
    (host : Host) (st : State) (pg : Pager) (bytes : list Z) (n : Z) :
  aDb st !! 0%nat = Some pg → pCodec pg = NULL → 0 < pager_pageSize pg →
  0 < n ≤ Z.of_nat (length bytes) → malloc_succeeds 3 st →
  BtreeBeginTrans host = SQLITE_OK → loop_status host = SQLITE_OK →
  BtreeCommit host = SQLITE_OK →
  ∃ st' c b s data,
    sqlite3_rekey_v2 host (Some bytes) n st =
    Some (st', SQLITE_OK,
          [mutex_enter; begin_trans] ++
          flat_map (page_calls host) (visited_pages host) ++
          [btree_commit; mutex_leave]) ∧
    heap st !! c = None ∧ heap st !! b = None ∧ heap st !! s = None ∧
    c ≠ b ∧ c ≠ s ∧ b ≠ s ∧
    aDb st' = <[0%nat := mkPager (pager_pageSize pg) (Some b)]> (aDb st) ∧
    heap st' !! b =
      Some (CryptBlock (mkBlock 0 (pager_pageSize pg) (Some c) (Some c)
                          (Some s))) ∧
    heap st' !! c = Some (SQLiteCipherContext (derived_key bytes n)) ∧
    heap st' !! s = Some (Bytes data) ∧
    Z.of_nat (length data) = pager_pageSize pg ∧
    same_up_to_bytes {[b; c; s]} (heap st) (heap st').
Proof.
  intros Hpg Hcodec Hsize Hn Hok Hbegin Hloop Hcommit.
  destruct (sqlite3_rekey_v2_encrypts_exact host st pg bytes n
              Hpg Hcodec Hsize Hn Hok Hbegin Hloop Hcommit)
    as (c & b & s & Hc & Hb & Hs & Hcb & Hcs & Hbs & Hres).
  eexists _, c, b, s, _. split; [exact Hres|]. cbn [heap aDb].
  repeat (split; [first [assumption | reflexivity]|]).
  split; [apply lookup_insert_eq|]. split.
  { rewrite !lookup_insert_ne by congruence. apply lookup_insert_eq. }
  split.
  { rewrite lookup_insert_ne by congruence. apply lookup_insert_eq. }
  split; [rewrite repeat_length; lia|].
  apply same_up_to_bytes_lookup. intros k Hk.
  rewrite !lookup_insert_ne by set_solver. reflexivity.
Qed.

(** * Rekey that fails *)

Lemma sqlite3_malloc_result n init st st' p :
  sqlite3_malloc n init st = (st', p) →
  aDb st' = aDb st ∧
  match p with
  | None => heap st' = heap st
  | Some l => heap st !! l = None ∧ heap st' = <[l := init]> (heap st)
  end.
Proof.
  destruct st as [h d ok].
  destruct (sqlite3_malloc_cases n init h d ok)
    as [(ok' & -> & _) | (l & Hl & _ & -> & _)]; intros [= <- <-];
    cbn [heap aDb]; split; try reflexivity.
  split; [assumption | reflexivity].
Qed.

Lemma CipherContextNew_result pKey n st st1 p :
  CipherContextNew pKey n st = Some (st1, p) →
  aDb st1 = aDb st ∧
  match p with
  | None => heap st1 = heap st
  | Some l =>
      heap st !! l = None ∧
      ∃ key, heap st1 = <[l := SQLiteCipherContext key]> (heap st)
  end.
Proof.
  unfold CipherContextNew.
  destruct (bool_decide (pKey = None) || (n <=? 0)).
  { intros [= <- <-]. split; reflexivity. }
  destruct (sqlite3_malloc _ _ st) as [st0 ctx] eqn:Hm.
  apply sqlite3_malloc_result in Hm. destruct Hm as (Hdb & Hnew).
  destruct ctx as [l|].
  2: { intros [= <- <-]. split; assumption. }
  destruct Hnew as [Hl Hh1].
  assert (Hins : ∀ key, <[l := SQLiteCipherContext key]> (heap st0) =
                        <[l := SQLiteCipherContext key]> (heap st)).
  { intros key. rewrite Hh1. apply insert_insert_eq. }
  destruct (negb (bool_decide (pKey = None)) && (0 <? n)).
  - destruct pKey as [bytes|]; [|discriminate]. cbn [mbind option_bind].
    destruct (_ <? n); [discriminate|]. intros [= <- <-].
    split; [assumption|]. split; [assumption|]. eexists. apply Hins.
  - intros [= <- <-]. split; [assumption|]. split; [assumption|].
    eexists. apply Hins.
Qed.

Lemma block_eta blk r :
  readCtx blk = r → writeCtx blk = r →
  mkBlock (pager blk) (pageSize blk) r r (cryptBuffer blk) = blk.
Proof. destruct blk. cbn. intros -> ->. reflexivity. Qed.

Lemma rekey_failure_encrypted host st st1 ctx pg b st' rc calls :
  wf st → (∀ b blk, registered st 0 b blk → readCtx blk ≠ NULL) →
  aDb st !! 0%nat = Some pg → pCodec pg = Some b →
  aDb st1 = aDb st →
  match ctx with
  | None => heap st1 = heap st
  | Some l =>
      heap st !! l = None ∧
      ∃ key, heap st1 = <[l := SQLiteCipherContext key]> (heap st)
  end →
  (blk ← load_block (heap st1) (Some b);
   rekey_rewrite host b
     (set_heap (store_block (heap st1) b (set_writeCtx ctx blk)) st1))
  = Some (st', rc, calls) →
  rc ≠ SQLITE_OK →
  heap st' = heap st ∧ aDb st' = aDb st.
Proof.
  intros (Hlen & Howned & Hkeys) Hkeyed Hpg Hcodec Hdb Hctx Hres Hrc.
  destruct Howned as [Hlive _].
  assert (Hcodec0 : codec_of st 0 = Some b).
  { rewrite (codec_of_Some st 0 pg Hpg). assumption. }
  destruct (Hlive 0%nat b Hcodec0) as (blk & Hb & Hr & Hw & Hs).
  assert (Hreg : registered st 0 b blk) by (split; assumption).
  assert (Hrw : readCtx blk = writeCtx blk).
  { apply (Hkeys 0%nat b blk Hreg). discriminate. }
  destruct (readCtx blk) as [c|] eqn:Hread.
  2: { exfalso. apply (Hkeyed b blk Hreg). assumption. }
  assert (Hb1 : heap st1 !! b = Some (CryptBlock blk)).
  { destruct ctx as [l|].
    - destruct Hctx as (Hl & key & ->).
      rewrite lookup_insert_ne by (intros ->; congruence). assumption.
    - rewrite Hctx. assumption. }
  rewrite (load_block_Some _ b blk Hb1) in Hres.
  cbn [mbind option_bind] in Hres.
  pose proof Hres as Hres'. apply rekey_rewrite_result in Hres'.
  destruct Hres' as [Hrc' _].
  assert (Erc : ((rekey_transaction host).1 =? SQLITE_OK) = false).
  { apply Z.eqb_neq. congruence. }
  rewrite (rekey_rewrite_exact host b _ (set_writeCtx ctx blk)) in Hres.
  2: { apply lookup_insert_eq. }
  2: { rewrite Erc. cbn [set_writeCtx writeCtx heap set_heap].
       unfold store_block. intros l ->.
       destruct Hctx as (Hl & key & ->).
       rewrite lookup_insert_ne by (intros ->; congruence).
       rewrite lookup_insert_eq. eauto. }
  rewrite Erc in Hres.
  cbn [set_writeCtx readCtx writeCtx pager pageSize cryptBuffer] in Hres.
  rewrite Hread in Hres.
  rewrite bool_decide_eq_false_2 in Hres by discriminate.
  cbn [mbind option_bind] in Hres.
  apply (f_equal (λ o, fst <$> (fst <$> o))) in Hres.
  cbn [fmap option_fmap option_map fst] in Hres.
  injection Hres as <-. unfold set_heap, store_block.
  cbn [heap aDb malloc_ok]. split; [|assumption].
  rewrite (block_eta blk (Some c) Hread (eq_sym Hrw)).
  apply map_eq. intros k.
  destruct (decide (k = b)) as [->|Hkb].
  { rewrite lookup_insert_eq. symmetry. assumption. }
  rewrite lookup_insert_ne by congruence. rewrite lookup_free_at.
  destruct ctx as [l|].
  - destruct Hctx as (Hl & key & ->). case_decide as Hlk.
    + injection Hlk as ->. symmetry. assumption.
    + rewrite !lookup_insert_ne by congruence. reflexivity.
  - rewrite Hctx, decide_False by discriminate.
    apply lookup_insert_ne. congruence.
Qed.

Lemma pager_eta pg : pCodec pg = NULL → mkPager (pager_pageSize pg) NULL = pg.
Proof. destruct pg. cbn. intros ->. reflexivity. Qed.

Lemma rekey_plain_restores host st st1 (ctx : ptr) pg st' rc calls :
  aDb st !! 0%nat = Some pg → pCodec pg = NULL →
  aDb st1 = aDb st →
  match ctx with
  | None => heap st1 = heap st
  | Some l =>
      heap st !! l = None ∧
      ∃ key, heap st1 = <[l := SQLiteCipherContext key]> (heap st)
  end →
  ('(st2, block) ← CreateCodeCryptBlock ctx 0 (-1) NULL st1;
   match block with
   | None => Some (st2, SQLITE_NOMEM, [])
   | Some b =>
       blk ← load_block (heap st2) block;
       let st3 :=
         set_heap (store_block (heap st2) b (set_readCtx NULL blk)) st2 in
       st4 ← sqlite3PagerSetCodec 0 block st3;
       rekey_rewrite host b st4
   end) = Some (st', rc, calls) →
  calls ≠ [] → rc ≠ SQLITE_OK ∨ ctx = NULL →
  heap st' = heap st ∧ aDb st' = aDb st.
Proof.
  intros Hpg Hcodec Hdb Hctx Hres Hcalls Hrc.
  assert (Hpg1 : aDb st1 !! 0%nat = Some pg) by (rewrite Hdb; assumption).
  destruct (CreateCodeCryptBlock_new st1 ctx 0 pg Hpg1)
    as (st2 & p & Hcreate & Hdb2 & Hsub2 & Hnew & _).
  rewrite Hcreate in Hres. cbn [mbind option_bind] in Hres.
  destruct p as [b|].
  2: { injection Hres as _ _ <-. exfalso. apply Hcalls. reflexivity. }
  destruct (Hnew b eq_refl) as (Hb1 & buf & Hb2 & Hbuf & Hsame & _).
  rewrite (load_block_Some _ b _ Hb2) in Hres.
  cbn [mbind option_bind] in Hres.
  unfold store_block, set_heap, set_readCtx in Hres.
  cbn [heap aDb malloc_ok pager pageSize readCtx writeCtx cryptBuffer]
    in Hres.
  set (size := pager_pageSize pg) in *.
  erewrite sqlite3PagerSetCodec_first in Hres;
    [| rewrite <- Hdb2 in Hpg1; exact Hpg1 | exact Hcodec
     | apply lookup_insert_eq | reflexivity].
  cbn [mbind option_bind heap aDb malloc_ok] in Hres. fold size in Hres.
  pose proof Hres as Hres'. apply rekey_rewrite_result in Hres'.
  destruct Hres' as [Hrc' _].
  assert (Hkept : (if (rekey_transaction host).1 =? SQLITE_OK
                   then ctx else NULL) = NULL).
  { destruct (_ =? SQLITE_OK) eqn:Erc; [|reflexivity].
    apply Z.eqb_eq in Erc. destruct Hrc as [Hrc|Hrc]; [congruence|assumption]. }
  assert (Hfreed : ∀ l, (if (rekey_transaction host).1 =? SQLITE_OK
                         then NULL else ctx) = Some l → ctx = Some l).
  { intros l. destruct (_ =? SQLITE_OK); [discriminate | tauto]. }
  assert (Hlb : ∀ l, ctx = Some l → is_Some (heap st1 !! l)).
  { intros l ->. destruct Hctx as (_ & key & ->).
    rewrite lookup_insert_eq. eauto. }
  assert (Hctxb : ctx ≠ Some b).
  { intros Heq. destruct (Hlb b Heq) as [o Ho]. congruence. }
  assert (Hctxbuf : ∀ l, ctx = Some l → buf ≠ Some l).
  { intros l Hl Hbl. destruct (Hbuf l Hbl) as (_ & Hfresh & _).
    destruct (Hlb l Hl) as [o Ho]. congruence. }
  erewrite rekey_rewrite_exact in Hres; [|apply lookup_insert_eq|].
  2: { cbn [readCtx writeCtx heap]. intros l Hl. apply Hfreed in Hl.
       rewrite lookup_insert_ne by congruence.
       rewrite Hsame by (try congruence; apply Hctxbuf; assumption).
       apply Hlb. assumption. }
  cbn [readCtx writeCtx pager pageSize cryptBuffer] in Hres.
  rewrite Hkept in Hres.
  rewrite bool_decide_eq_true_2 in Hres by reflexivity.
  unfold set_heap in Hres. cbn [heap aDb malloc_ok] in Hres.
  set (freed := if (rekey_transaction host).1 =? SQLITE_OK
                then NULL else ctx) in *.
  set (blk5 := mkBlock 0 size NULL NULL buf) in *.
  match type of Hres with
  | context [sqlite3PagerSetCodec 0 NULL (mkState ?X _ _)] => set (h5 := X) in *
  end.
  assert (Hlen : (0 < length (aDb st2))%nat).
  { rewrite Hdb2. apply lookup_lt_Some in Hpg1. assumption. }
  assert (Hh5 : ∀ l, l ≠ b → buf ≠ Some l → h5 !! l = heap st !! l).
  { intros l Hl Hlbuf. subst h5. rewrite lookup_insert_ne by congruence.
    rewrite lookup_free_at. case_decide as Hcl.
    - apply Hfreed in Hcl. rewrite Hcl in Hctx. symmetry. apply Hctx.
    - rewrite lookup_insert_ne by congruence. rewrite Hsame by assumption.
      destruct ctx as [l0|].
      + destruct Hctx as (Hl0 & key & ->).
        destruct (decide (l = l0)) as [->|Hne].
        * exfalso. subst freed. destruct Hrc as [Hrc|Hrc]; [|discriminate].
          apply Hcl. rewrite (proj2 (Z.eqb_neq _ _)); [reflexivity|congruence].
        * apply lookup_insert_ne. congruence.
      + rewrite Hctx. reflexivity. }
  assert (Hbufs : ∀ s, buf = Some s → ∃ data, h5 !! s = Some (Bytes data)).
  { intros s Hsb. destruct (Hbuf s Hsb) as (Hsb' & _ & data & Hdata).
    exists data. subst h5. rewrite lookup_insert_ne by congruence.
    rewrite lookup_free_at, decide_False.
    - rewrite lookup_insert_ne by congruence. assumption.
    - intros Hcs. apply Hfreed in Hcs. apply (Hctxbuf s Hcs). assumption. }
  match type of Hres with
  | context [sqlite3PagerSetCodec 0 NULL ?X] => set (st5 := X) in *
  end.
  assert (Hpg5 : aDb st5 !! 0%nat = Some (mkPager size (Some b))).
  { cbn [aDb st5]. apply list_lookup_insert_eq. assumption. }
  destruct (sqlite3PagerSetCodec_exact st5 0 (mkPager size (Some b)) NULL Hpg5)
    as (h' & Hset & Hh').
  { cbn [pCodec heap st5]. intros ? [= <-]. exists blk5.
    split; [apply lookup_insert_eq|].
    split; [intros ? [=]|]. split; [intros ? [=]|]. exact Hbufs. }
  { intros ? [=]. }
  rewrite Hset in Hres. cbn [mbind option_bind] in Hres.
  apply (f_equal (λ o, fst <$> (fst <$> o))) in Hres.
  cbn [fmap option_fmap option_map fst] in Hres.
  injection Hres as <-. cbn [heap aDb st5 pager_pageSize]. split.
  - apply map_eq. intros k. rewrite Hh'.
    rewrite (footprint_of_Some st5 0 _ b blk5 Hpg5 eq_refl)
      by apply lookup_insert_eq.
    assert (Hfresh : ∀ l, heap st1 !! l = None → heap st !! l = None).
    { intros l Hl. destruct (heap st !! l) as [o|] eqn:Ho; [|reflexivity].
      destruct ctx as [l0|].
      - destruct Hctx as (_ & key & Heq). rewrite Heq in Hl.
        destruct (decide (l = l0)) as [->|Hne].
        + rewrite lookup_insert_eq in Hl. discriminate.
        + rewrite lookup_insert_ne in Hl by congruence. congruence.
      - rewrite Hctx in Hl. congruence. }
    case_decide as Hin.
    + apply elem_of_footprint in Hin. cbn [blk5 readCtx writeCtx cryptBuffer] in Hin.
      symmetry. apply Hfresh.
      destruct Hin as [->|[Hin|[Hin|Hin]]]; try discriminate; [assumption|].
      apply (Hbuf k Hin).
    + rewrite elem_of_footprint in Hin.
      cbn [blk5 readCtx writeCtx cryptBuffer heap st5] in *.
      apply Hh5; intros ?; apply Hin; auto.
  - rewrite list_insert_insert_eq, Hdb2, Hdb.
    apply list_insert_id. rewrite Hpg. f_equal. symmetry.
    apply pager_eta. assumption.
Qed.

(** X12: a rekey that fails restores the keys.  On a connection at rest
    whose registered blocks have a read key, when rekey reaches the
    transaction and returns a status other than SQLITE_OK, the codecs of
    the pagers are as before the call and memory is as before up to the
    content of the byte arrays: the same locations are in use, every
    crypto block and key context is the same and every byte array has
    its length.  The new key context is freed and an encrypted database
    keeps its block with the old key; a database without codec has none
    again, the block and the scratch array made for the attempt being
    freed. *)
Theorem sqlite3_rekey_v2_failure_restores
    (host : Host) (st st' : State) (pKey : option (list Z)) (nKey : Z)
    (rc : Z) (calls : list Call) :
  wf st → (∀ b blk, registered st 0 b blk → readCtx blk ≠ NULL) →
  sqlite3_rekey_v2 host pKey nKey st = Some (st', rc, calls) →
  calls ≠ [] → rc ≠ SQLITE_OK →
  same_up_to_bytes ∅ (heap st) (heap st') ∧ aDb st' = aDb st.
Proof.
  intros Hwf Hkeyed Hres Hcalls Hrc.
  enough (heap st' = heap st ∧ aDb st' = aDb st) as [Hh Hd]
    by (split; [apply same_up_to_bytes_eq|]; assumption).
  unfold sqlite3_rekey_v2 in Hres.
  destruct (aDb st !! 0%nat) as [pg|] eqn:Hpg; [|discriminate].
  cbn [mbind option_bind] in Hres.
  destruct (CipherContextNew pKey nKey st) as [[st1 ctx]|] eqn:Hnew;
    [|discriminate].
  apply CipherContextNew_result in Hnew. destruct Hnew as [Hdb Hctx].
  cbn [mbind option_bind] in Hres. unfold sqlite3PagerGetCodec in Hres.
  destruct (pCodec pg) as [b|] eqn:Hcodec.
  - eapply rekey_failure_encrypted; eassumption.
  - eapply rekey_plain_restores; try eassumption. left. assumption.
Qed.

(** X16: a rekey without a key on a database without codec.  When the
    primary database has no codec and no new key context is made (the
    key pointer is NULL, the length is not positive, or the allocation
    of the context fails), a rekey that reaches the transaction runs
    it, rewriting every page, and returns its status, and afterwards
    memory and the pagers are exactly as before: the block and the
    scratch array made for the call are freed and no codec is
    registered. *)
Theorem sqlite3_rekey_v2_plain_without_key
    (host : Host) (st st' : State) (pg : Pager) (pKey : option (list Z))
    (nKey : Z) (rc : Z) (calls : list Call) :
  aDb st !! 0%nat = Some pg → pCodec pg = NULL →
  pKey = None ∨ nKey ≤ 0 ∨ (∃ rest, malloc_ok st = false :: rest) →
  sqlite3_rekey_v2 host pKey nKey st = Some (st', rc, calls) →
  calls ≠ [] →
  heap st' = heap st ∧ aDb st' = aDb st ∧
  rc = (rekey_transaction host).1 ∧
  calls = (rekey_transaction host).2 ++ [mutex_leave].
Proof.
  intros Hpg Hcodec Hno Hres Hcalls.
  assert (Hshape : rc = (rekey_transaction host).1 ∧
                   calls = (rekey_transaction host).2 ++ [mutex_leave]).
  { destruct (sqlite3_rekey_v2_result _ _ _ _ _ _ _ Hres)
      as [(_ & Hnil & _) | Hshape]; [contradiction | assumption]. }
  assert (Hstate : heap st' = heap st ∧ aDb st' = aDb st).
  { unfold sqlite3_rekey_v2 in Hres. rewrite Hpg in Hres.
    cbn [mbind option_bind] in Hres.
    destruct (CipherContextNew_no_key pKey nKey st Hno) as [ok Hnew].
    rewrite Hnew in Hres. cbn [mbind option_bind] in Hres.
    unfold sqlite3PagerGetCodec in Hres. rewrite Hcodec in Hres.
    unfold NULL at 1 in Hres.
    eapply (rekey_plain_restores host st (mkState (heap st) (aDb st) ok) NULL);
      [exact Hpg | exact Hcodec | reflexivity | reflexivity | exact Hres
      | exact Hcalls | right; reflexivity]. }
  destruct Hstate as [Hheap Hdb]. destruct Hshape as [Hrc Hc].
  repeat split; assumption.
Qed.

(** X23: a rekey that runs out of memory before the transaction.  A
    rekey that returns without having entered the mutex returned
    SQLITE_NOMEM: the primary database had no codec and no crypto block
    could be made.  No pager has changed its codec and everything that
    was in memory is still there unchanged; the call has made no call
    on the host's pager. *)
Theorem sqlite3_rekey_v2_out_of_memory
    (host : Host) (st st' : State) (pKey : option (list Z)) (nKey : Z)
    (rc : Z) (calls : list Call) :
  sqlite3_rekey_v2 host pKey nKey st = Some (st', rc, calls) →
  calls = [] →
  rc = SQLITE_NOMEM ∧ codec_of st 0 = NULL ∧
  aDb st' = aDb st ∧ heap st ⊆ heap st'.
Proof.
  intros Hres Hcalls.
  destruct (sqlite3_rekey_v2_result _ _ _ _ _ _ _ Hres)
    as [(Hrc & _ & Hnone) | [_ Hshape]].
  2: { rewrite Hcalls in Hshape. symmetry in Hshape.
       apply app_eq_nil in Hshape. destruct Hshape as [_ Hleave].
       discriminate. }
  split; [assumption|]. split; [assumption|].
  unfold sqlite3_rekey_v2 in Hres.
  destruct (aDb st !! 0%nat) as [pg|] eqn:Hpg; [|discriminate].
  cbn [mbind option_bind] in Hres.
  destruct (CipherContextNew pKey nKey st) as [[st1 ctx]|] eqn:Hnew;
    [|discriminate].
  apply CipherContextNew_extends in Hnew. destruct Hnew as [Hdb1 Hsub1].
  cbn [mbind option_bind] in Hres. unfold sqlite3PagerGetCodec in Hres.
  rewrite (codec_of_Some st 0 pg Hpg) in Hnone. rewrite Hnone in Hres.
  unfold NULL at 1 in Hres.
  assert (Hpg1 : aDb st1 !! 0%nat = Some pg) by (rewrite Hdb1; assumption).
  destruct (CreateCodeCryptBlock_new st1 ctx 0 pg Hpg1)
    as (st2 & p & Hcreate & Hdb2 & Hsub2 & _).
  rewrite Hcreate in Hres. cbn [mbind option_bind] in Hres.
  destruct p as [b|].
  - exfalso.
    destruct (load_block (heap st2) (Some b)) as [blk|]; [|discriminate].
    cbn [mbind option_bind] in Hres.
    destruct (sqlite3PagerSetCodec 0 (Some b) _) as [st3|]; [|discriminate].
    cbn [mbind option_bind] in Hres.
    apply rekey_rewrite_result in Hres. destruct Hres as [_ Hshape].
    rewrite Hcalls in Hshape. symmetry in Hshape.
    apply app_eq_nil in Hshape. destruct Hshape as [_ Hleave]. discriminate.
  - apply (f_equal (λ o, fst <$> (fst <$> o))) in Hres.
    cbn [fmap option_fmap option_map fst] in Hres. injection Hres as <-.
    split; [congruence | etransitivity; eassumption].
Qed.

(** * From the passphrase to the pages *)

Lemma ciphered_whole key n page old :
  Z.of_nat (length page) = n → Z.of_nat (length old) = n →
  ciphered key n page old = arc4 key page.
Proof.
  intros Hpage Hold. unfold ciphered.
  rewrite take_ge, drop_ge by lia. apply app_nil_r.
Qed.

(** X15: from the passphrase to the pages.  A connection at rest keyed
    with sqlite3_key writes a page of the primary database (mode 6) as
    ARC4 of the page under the first eight bytes of the SHA-1 digest of
    the passphrase, leaving the page itself as it is; any connection at
    rest keyed with the same passphrase, with the same page size, turns
    that cipher text into the page again when it loads it (mode 3).  The
    derived key must not be all zero. *)
Theorem sqlite3_key_pages_round_trip
    (stA stB : State) (bytes : list Z) (n : Z) (pgA pgB : Pager)
    (d d2 : loc) (page junk : list Z) (nPageNum : Z) :
  wf stA → wf stB →
  aDb stA !! 0%nat = Some pgA → aDb stB !! 0%nat = Some pgB →
  pager_pageSize pgB = pager_pageSize pgA → 0 < pager_pageSize pgA →
  0 < n ≤ Z.of_nat (length bytes) →
  malloc_succeeds 3 stA → malloc_succeeds 3 stB →
  num (derived_key bytes n) ≠ 0 →
  heap stA !! d = Some (Bytes page) → d ∉ footprint_of stA 0 →
  Z.of_nat (length page) = pager_pageSize pgA →
  heap stB !! d2 = Some (Bytes junk) →
  ∃ stA' stB' bA bB sA hA,
    sqlite3_key (Some bytes) n stA = Some (stA', SQLITE_OK) ∧
    codec_of stA' 0 = Some bA ∧
    SQLite3CodecCallback (Some bA) (Some d) nPageNum 6 (heap stA')
      = Some (hA, Some sA) ∧
    hA !! sA = Some (Bytes (arc4 (derived_key bytes n) page)) ∧
    hA !! d = Some (Bytes page) ∧
    sqlite3_key (Some bytes) n stB = Some (stB', SQLITE_OK) ∧
    codec_of stB' 0 = Some bB ∧
    SQLite3CodecCallback (Some bB) (Some d2) nPageNum 3
      (<[d2 := Bytes (arc4 (derived_key bytes n) page)]> (heap stB'))
      = Some (<[d2 := Bytes page]> (heap stB'), Some d2).
Proof.
  intros HwfA HwfB HpgA HpgB Hsize Hpos Hn HokA HokB Hnum Hd Hdfp Hlen Hd2.
  set (key := derived_key bytes n) in *.
  set (size := pager_pageSize pgA) in *.
  destruct (sqlite3CodecAttach_with_key_exact stA 0 bytes n pgA)
    as (stA' & cA & bA & sA & HkeyA & HcA0 & HbA0 & HsA0 & HcbA & HcsA & HbsA
        & HdbA & HbA & HcA & HsA & HrestA); try assumption; [lia|].
  destruct (sqlite3CodecAttach_with_key_exact stB 0 bytes n pgB)
    as (stB' & cB & bB & sB & HkeyB & HcB0 & HbB0 & HsB0 & HcbB & HcsB & HbsB
        & HdbB & HbB & HcB & HsB & HrestB); try assumption; [lia | lia |].
  change (Z.to_nat 0) with 0%nat in *. rewrite Hsize in *. fold size in HsA, HbA, HsB, HbB.
  assert (HcodecA : codec_of stA' 0 = Some bA).
  { unfold codec_of. rewrite HdbA, list_lookup_insert_eq; [reflexivity|].
    apply lookup_lt_Some in HpgA. assumption. }
  assert (HcodecB : codec_of stB' 0 = Some bB).
  { unfold codec_of. rewrite HdbB, list_lookup_insert_eq; [reflexivity|].
    apply lookup_lt_Some in HpgB. assumption. }
  assert (HdA : heap stA' !! d = Some (Bytes page)).
  { rewrite HrestA by (intros ->; congruence).
    rewrite decide_False by assumption. assumption. }
  set (cipher := arc4 key page).
  assert (Hclen : Z.of_nat (length cipher) = size).
  { subst cipher. rewrite arc4_length. assumption. }
  exists stA', stB', bA, bB, sA,
    (<[sA := Bytes cipher]> (heap stA')).
  split; [exact HkeyA|]. split; [exact HcodecA|]. split; [|split; [|split]].
  - rewrite (callback_encrypt _ bA _ (Some d) nPageNum 6 HbA)
      by (left; reflexivity).
    cbn [applicable_key Z.eqb Pos.eqb writeCtx cryptBuffer pageSize].
    rewrite (SQLiteEncrypt_nonzero _ cA key d page sA
               (repeat 0 (Z.to_nat size)) size HcA Hnum HdA HsA)
      by (rewrite ?repeat_length; lia).
    cbn [mbind option_bind]. rewrite ciphered_whole;
      [reflexivity | assumption | rewrite repeat_length; lia].
  - apply lookup_insert_eq.
  - rewrite lookup_insert_ne; [assumption|]. intros ->. congruence.
  - split; [exact HkeyB|]. split; [exact HcodecB|].
    assert (Hd2b : d2 ≠ bB) by (intros ->; congruence).
    assert (Hd2c : d2 ≠ cB) by (intros ->; congruence).
    rewrite (callback_decrypt _ bB
               (mkBlock 0 size (Some cB) (Some cB) (Some sB))
               (Some d2) nPageNum 3).
    + cbn [readCtx pageSize]. unfold SQLiteDecrypt.
      rewrite (SQLiteEncrypt_nonzero _ cB key d2 cipher d2 cipher size).
      * cbn [mbind option_bind]. rewrite insert_insert_eq.
        rewrite ciphered_whole by assumption.
        subst cipher. rewrite arc4_involutive. reflexivity.
      * rewrite lookup_insert_ne by congruence. assumption.
      * assumption.
      * apply lookup_insert_eq.
      * apply lookup_insert_eq.
      * lia.
      * lia.
    + rewrite lookup_insert_ne by congruence. assumption.
    + right. right. reflexivity.
Qed.

(** * The command line tool *)

Lemma data_length s : length (data s) = String.length s.
Proof.
  unfold data. rewrite length_map.
  induction s as [|a s IH]; [reflexivity|]. cbn. rewrite IH. reflexivity.
Qed.

Lemma to_int_small n : 0 ≤ n < 2 ^ 31 → to_int n = n.
Proof.
  intros Hn. unfold to_int. rewrite Z.mod_small by lia.
  destruct (n <? 2 ^ 31) eqn:E; [reflexivity|]. apply Z.ltb_ge in E. lia.
Qed.

(** X17: the tool's "enc" ignores the outcome of the rekey.  With at
    least three arguments and the operation "enc", main calls rekey
    with the pass phrase once and exits with code 0 whatever status the
    rekey returned; a failure only shows as a message on std::cerr. *)
Theorem main_enc_exit_code
    (host : Host) (argv : list string) (db db' : State) (code : Z)
    (calls : list Call) (out : list Diagnostic) :
  (4 ≤ length argv)%nat → nth 3 argv ""%string = "enc"%string →
  main host argv db = Some (db', code, calls, out) →
  code = 0 ∧
  ∃ rc,
    sqlite3_rekey host (Some (data (nth 2 argv ""%string)))
      (to_int (Z.of_nat (String.length (nth 2 argv ""%string)))) db
      = Some (db', rc, calls) ∧
    out = if rc =? SQLITE_OK then [] else [error_message].
Proof.
  intros Hargc Hop. unfold main.
  rewrite (proj2 (Nat.ltb_ge _ _) Hargc), Hop. cbn [String.eqb Ascii.eqb].
  unfold SQLiteDatabase.rekey.
  destruct (sqlite3_rekey host _ _ db) as [[[db1 rc] calls1]|];
    [|discriminate].
  cbn [mbind option_bind]. intros [= <- <- <- <-].
  split; [reflexivity|]. exists rc. split; reflexivity.
Qed.

(** X22: the tool's "dec" when the decryption fails.  In the situation
    of the successful run, but with a transaction that does not
    succeed, main exits with code 1 after the messages of rekey and of
    the tool, and the connection is left keyed as sqlite3_key made it:
    the pagers are the same and memory is the same up to the content of
    the byte arrays, the block registered with the context of the
    derived key as read key and write key. *)
Theorem main_dec_failure
    (host : Host) (argv : list string) (db : State) (pg : Pager)
    (pwd : string) :
  wf db → aDb db !! 0%nat = Some pg → pCodec pg = NULL →
  0 < pager_pageSize pg →
  (4 ≤ length argv)%nat → nth 2 argv ""%string = pwd →
  nth 3 argv ""%string = "dec"%string →
  0 < Z.of_nat (String.length pwd) < 2 ^ 31 →
  malloc_succeeds 3 db →
  (rekey_transaction host).1 ≠ SQLITE_OK →
  ∃ db' keyed,
    SQLiteDatabase.key pwd db = Some (keyed, SQLITE_OK, []) ∧
    main host argv db =
    Some (db', 1, (rekey_transaction host).2 ++ [mutex_leave],
          [error_message; failed_to_decrypt]) ∧
    same_up_to_bytes ∅ (heap keyed) (heap db') ∧ aDb db' = aDb keyed ∧
    ∃ b c s,
      registered db' 0 b
        (mkBlock 0 (pager_pageSize pg) (Some c) (Some c) (Some s)) ∧
      heap db' !! c =
        Some (SQLiteCipherContext
                (derived_key (data pwd) (Z.of_nat (String.length pwd)))).
Proof.
  intros Hwf Hpg Hcodec Hsize Hargc Hpwd Hop Hlen Hok Hfail.
  unfold main.
  rewrite (proj2 (Nat.ltb_ge _ _) Hargc), Hop, Hpwd.
  cbn [String.eqb Ascii.eqb Bool.eqb].
  unfold SQLiteDatabase.key, SQLiteDatabase.rekey.
  rewrite (to_int_small (Z.of_nat (String.length pwd))) by lia.
  destruct (sqlite3CodecAttach_with_key_exact db 0 (data pwd)
              (Z.of_nat (String.length pwd)) pg)
    as (st1 & c & b & s & Hkey & Hc0 & Hb0 & Hs0 & Hcb & Hcs & Hbs
        & Hdb1 & Hb1 & Hc1 & Hs1 & Hrest1); try assumption;
    [lia | rewrite data_length; lia |].
  change (Z.to_nat 0) with 0%nat in *.
  assert (Hwf1 : wf st1).
  { destruct (sqlite3CodecAttach_wf db 0 (Some (data pwd))
                (Z.of_nat (String.length pwd)) Hwf)
      as (st1' & rc1 & Hres1 & Hwf1).
    - apply lookup_lt_Some in Hpg. lia.
    - intros ? [= <-]. rewrite data_length. lia.
    - rewrite Hkey in Hres1. injection Hres1 as <- _. exact Hwf1. }
  unfold sqlite3_key, sqlite3_key_v2. rewrite Hkey.
  cbn [mbind option_bind Z.eqb SQLITE_OK negb].
  set (blk1 := mkBlock 0 (pager_pageSize pg) (Some c) (Some c) (Some s)) in *.
  assert (Hcodec1 : codec_of st1 0 = Some b).
  { unfold codec_of. rewrite Hdb1, list_lookup_insert_eq; [reflexivity|].
    apply lookup_lt_Some in Hpg. assumption. }
  assert (Hreg1 : registered st1 0 b blk1) by (split; assumption).
  destruct (sqlite3_rekey_v2_wf host st1 (Some (data ""%string))
              (to_int (Z.of_nat (String.length ""%string))) Hwf1)
    as (st2 & rc & calls & Hrekey & Hwf2).
  { intros ? [= <-]. vm_compute. discriminate. }
  destruct (sqlite3_rekey_v2_result _ _ _ _ _ _ _ Hrekey)
    as [(_ & _ & Hnone) | [Hrc Hcalls]];
    [rewrite Hcodec1 in Hnone; discriminate|].
  assert (Hstate : heap st2 = heap st1 ∧ aDb st2 = aDb st1).
  { pose proof Hrekey as Hres. unfold sqlite3_rekey_v2 in Hres.
    destruct (aDb st1 !! 0%nat) as [pg1|] eqn:Hpg1; [|discriminate].
    cbn [mbind option_bind] in Hres.
    destruct (CipherContextNew _ _ st1) as [[st1' ctx]|] eqn:Hnew;
      [|discriminate].
    apply CipherContextNew_result in Hnew. destruct Hnew as [Hdb Hctx].
    cbn [mbind option_bind] in Hres. unfold sqlite3PagerGetCodec in Hres.
    assert (Hc1' : pCodec pg1 = Some b).
    { unfold codec_of in Hcodec1. rewrite Hpg1 in Hcodec1. exact Hcodec1. }
    rewrite Hc1' in Hres.
    eapply (rekey_failure_encrypted host st1 st1' ctx pg1 b st2 rc calls);
      try eassumption; [|congruence].
    intros b' blk' Hreg'.
    destruct (registered_inj _ _ _ _ _ _ Hreg1 Hreg') as [_ <-].
    discriminate. }
  destruct Hstate as [Hheap2 Hdb2].
  unfold sqlite3_rekey. rewrite Hrekey. cbn [mbind option_bind].
  assert (Erc : (rc =? SQLITE_OK) = false) by (apply Z.eqb_neq; congruence).
  assert (Erc0 : (rc =? 0) = false) by exact Erc.
  rewrite Erc, Erc0. cbn [negb app].
  exists st2, st1. split; [reflexivity|]. split; [rewrite Hcalls; reflexivity|].
  split; [apply same_up_to_bytes_eq; assumption|]. split; [assumption|].
  exists b, c, s. split.
  - split; [|rewrite Hheap2; exact Hb1].
    unfold codec_of. rewrite Hdb2. exact Hcodec1.
  - rewrite Hheap2. exact Hc1.
Qed.

(** * Prepared statements *)

Lemma index_column_names stmt k index :
  SQLiteStatement.index_column stmt index (Z.of_nat k) =
  match column_names stmt !! k with
  | Some (Some name) => <[name := Z.of_nat k]> index
  | _ => index
  end.
Proof.
  unfold SQLiteStatement.index_column, sqlite3_column_name.
  destruct (Z.of_nat k <? 0) eqn:E; [apply Z.ltb_lt in E; lia|].
  rewrite Nat2Z.id. destruct (column_names stmt !! k) as [[name|]|];
    reflexivity.
Qed.

(** After the loop over the first [k] columns a name is mapped to the
    last of these columns that has it. *)
Lemma index_columns stmt (k : nat) name i :
  fold_left (SQLiteStatement.index_column stmt) (map Z.of_nat (seq 0 k)) ∅
    !! name = Some i ↔
  (Z.to_nat i < k)%nat ∧ 0 ≤ i ∧
  column_names stmt !! Z.to_nat i = Some (Some name) ∧
  ∀ j, (Z.to_nat i < j < k)%nat → column_names stmt !! j ≠ Some (Some name).
Proof.
  revert i. induction k as [|k IH]; intros i.
  - cbn. rewrite lookup_empty. split; [discriminate | lia].
  - rewrite seq_S, map_app, fold_left_app. cbn [map fold_left Nat.add].
    rewrite index_column_names.
    set (m := fold_left _ _ ∅) in *.
    assert (Hkeep : column_names stmt !! k ≠ Some (Some name) →
      (m !! name = Some i ↔
       (Z.to_nat i < S k)%nat ∧ 0 ≤ i ∧
       column_names stmt !! Z.to_nat i = Some (Some name) ∧
       ∀ j, (Z.to_nat i < j < S k)%nat →
            column_names stmt !! j ≠ Some (Some name))).
    { intros Hk. rewrite IH. split.
      - intros (Hi & H0 & Hname & Hlast). repeat split; try assumption; [lia|].
        intros j Hj. destruct (decide (j = k)) as [->|Hne]; [assumption|].
        apply Hlast. lia.
      - intros (Hi & H0 & Hname & Hlast).
        assert (Z.to_nat i ≠ k) by (intros Heq; rewrite Heq in Hname; auto).
        repeat split; try assumption; [lia|]. intros j Hj. apply Hlast. lia. }
    destruct (column_names stmt !! k) as [[nm|]|] eqn:Hk;
      [|apply Hkeep; discriminate | apply Hkeep; discriminate].
    destruct (decide (nm = name)) as [->|Hne].
    + rewrite lookup_insert_eq. split.
      * intros [= <-]. rewrite Nat2Z.id.
        repeat split; try assumption; lia.
      * intros (Hi & H0 & Hname & Hlast).
        destruct (decide (Z.to_nat i = k)) as [Heq|Hneq].
        -- f_equal. lia.
        -- exfalso. apply (Hlast k); [lia | assumption].
    + rewrite lookup_insert_ne by assumption. apply Hkeep. congruence.
Qed.

(** X19: what a caller sees after execute returns a row.  On a
    statement whose name index is empty (as after construction or
    reset), when sqlite3_step returns SQLITE_ROW, execute returns true
    and the statement has a row.  A getter by index gives the value of
    the column for an index from 0 to the column count (getString gives
    SQLITE_ERROR and the empty string when the engine has no text), and
    SQLITE_MISUSE for any other index, where getInt leaves the result
    as it was and getString empties it.  A getter by name gives the
    value of the last column that has the name, and SQLITE_NOTFOUND
    when no column has it.  getInt64 returns SQLITE_OK and no value,
    and getColumnType answers TYPE_UNKNOWN for every column while the
    row is there. *)
Theorem execute_row
    (s : SQLiteStatement.t) (row : list Value) (rest : list (Z * list Value)) :
  SQLiteStatement._rowNameIndex s = ∅ →
  steps (SQLiteStatement._stmt s) = (SQLITE_ROW, row) :: rest →
  let names := column_names (SQLiteStatement._stmt s) in
  let stmt' :=
    mk_stmt names rest row (reset_status (SQLiteStatement._stmt s)) in
  ∃ s',
    SQLiteStatement.execute s = (s', true, []) ∧
    SQLiteStatement._stmt s' = stmt' ∧
    SQLiteStatement.hasRow s' = true ∧
    (∀ ret text i, 0 ≤ i < Z.of_nat (length names) →
       SQLiteStatement.getInt s' ret i = (SQLITE_OK, sqlite3_column_int stmt' i) ∧
       SQLiteStatement.getInt64 s' ret i = SQLITE_OK ∧
       SQLiteStatement.getString s' text i =
       match sqlite3_column_text stmt' i with
       | Some t => (SQLITE_OK, t)
       | None => (SQLITE_ERROR, ""%string)
       end) ∧
    (∀ ret text i, ¬ 0 ≤ i < Z.of_nat (length names) →
       SQLiteStatement.getInt s' ret i = (SQLITE_MISUSE, ret) ∧
       SQLiteStatement.getString s' text i = (SQLITE_MISUSE, ""%string)) ∧
    (∀ ret name i,
       names !! i = Some (Some name) →
       (∀ j, (i < j)%nat → names !! j ≠ Some (Some name)) →
       SQLiteStatement.getInt_named s' ret name =
       (SQLITE_OK, sqlite3_column_int stmt' (Z.of_nat i))) ∧
    (∀ ret name,
       (∀ i, names !! i ≠ Some (Some name)) →
       SQLiteStatement.getInt_named s' ret name = (SQLITE_NOTFOUND, ret)) ∧
    (∀ i, SQLiteStatement.getColumnType s' i = TYPE_UNKNOWN).
Proof.
  intros Hempty Hsteps names stmt'.
  unfold SQLiteStatement.execute, sqlite3_step.
  cbn [SQLiteStatement._stmt SQLiteStatement._hasRow
       SQLiteStatement._columnCount SQLiteStatement._rowNameIndex].
  rewrite Hsteps, Hempty. cbn [Z.eqb SQLITE_ROW SQLITE_DONE Pos.eqb].
  fold names. fold stmt'. unfold sqlite3_column_count.
  cbn [column_names stmt']. rewrite Nat2Z.id.
  set (n := length names).
  set (index := fold_left _ _ ∅).
  assert (Hindex : ∀ name i, index !! name = Some i ↔
            (Z.to_nat i < n)%nat ∧ 0 ≤ i ∧
            names !! Z.to_nat i = Some (Some name) ∧
            ∀ j, (Z.to_nat i < j < n)%nat → names !! j ≠ Some (Some name)).
  { intros name i. apply (index_columns stmt' n name i). }
  eexists. split; [reflexivity|]. split; [reflexivity|].
  split; [reflexivity|].
  assert (Hin : ∀ ret i, 0 ≤ i < Z.of_nat n →
            SQLiteStatement.getInt
              (SQLiteStatement.mk stmt' true (Z.of_nat n) index) ret i =
            (SQLITE_OK, sqlite3_column_int stmt' i)).
  { intros ret i Hi. unfold SQLiteStatement.getInt.
    cbn [SQLiteStatement._hasRow SQLiteStatement._columnCount
         SQLiteStatement._stmt negb orb].
    destruct (i <? 0) eqn:E1; [apply Z.ltb_lt in E1; lia|].
    destruct (Z.of_nat n <=? i) eqn:E2; [apply Z.leb_le in E2; lia|].
    reflexivity. }
  split; [|split; [|split; [|split]]].
  - intros ret text i Hi. split; [apply Hin; assumption|].
    unfold SQLiteStatement.getInt64, SQLiteStatement.getString.
    cbn [SQLiteStatement._hasRow SQLiteStatement._columnCount
         SQLiteStatement._stmt negb orb].
    destruct (i <? 0) eqn:E1; [apply Z.ltb_lt in E1; lia|].
    destruct (Z.of_nat n <=? i) eqn:E2; [apply Z.leb_le in E2; lia|].
    split; reflexivity.
  - intros ret text i Hi.
    unfold SQLiteStatement.getInt, SQLiteStatement.getString.
    cbn [SQLiteStatement._hasRow SQLiteStatement._columnCount negb orb].
    destruct (i <? 0) eqn:E1; [split; reflexivity|]. apply Z.ltb_ge in E1.
    destruct (Z.of_nat n <=? i) eqn:E2; [split; reflexivity|].
    apply Z.leb_gt in E2. lia.
  - intros ret name i Hname Hlast. unfold SQLiteStatement.getInt_named.
    cbn [SQLiteStatement._rowNameIndex].
    assert (Hi : (i < n)%nat) by (apply lookup_lt_Some in Hname; assumption).
    rewrite (proj2 (Hindex name (Z.of_nat i))).
    + apply Hin. lia.
    + rewrite Nat2Z.id. repeat split; try assumption; [lia|].
      intros j Hj. apply Hlast. lia.
  - intros ret name Hnone. unfold SQLiteStatement.getInt_named.
    cbn [SQLiteStatement._rowNameIndex].
    destruct (index !! name) as [i|] eqn:Hi; [|reflexivity].
    apply Hindex in Hi. destruct Hi as (_ & _ & Hname & _).
    exfalso. apply (Hnone _ Hname).
  - intros i. reflexivity.
Qed.

Lemma reset_ok s : statement_ok (SQLiteStatement.reset s).1.1.
Proof.
  unfold SQLiteStatement.reset, SQLiteStatement._clearRowData, sqlite3_reset.
  cbn. repeat split; try discriminate; intros name i Hi;
    rewrite lookup_empty in Hi; discriminate.
Qed.

Lemma reset_after s :
  let '(s', _, out) := SQLiteStatement.reset s in statement_ok s'.
Proof.
  pose proof (reset_ok s) as H.
  destruct (SQLiteStatement.reset s) as [[s' rc] out]. exact H.
Qed.

Lemma index_column_bound stmt index i :
  (∀ name j, index !! name = Some j → 0 ≤ j < sqlite3_column_count stmt) →
  0 ≤ i < sqlite3_column_count stmt →
  ∀ name j, SQLiteStatement.index_column stmt index i !! name = Some j →
    0 ≤ j < sqlite3_column_count stmt.
Proof.
  intros Hindex Hi name j. unfold SQLiteStatement.index_column.
  destruct (sqlite3_column_name stmt i) as [nm|]; [|apply Hindex].
  destruct (decide (nm = name)) as [->|Hne].
  - rewrite lookup_insert_eq. intros [= <-]. assumption.
  - rewrite lookup_insert_ne by assumption. apply Hindex.
Qed.

Lemma index_columns_bound stmt (cols : list Z) index :
  (∀ name j, index !! name = Some j → 0 ≤ j < sqlite3_column_count stmt) →
  Forall (λ i, 0 ≤ i < sqlite3_column_count stmt) cols →
  ∀ name j,
    fold_left (SQLiteStatement.index_column stmt) cols index !! name = Some j →
    0 ≤ j < sqlite3_column_count stmt.
Proof.
  revert index. induction cols as [|i cols IH]; intros index Hindex Hcols;
    [exact Hindex|].
  inversion Hcols; subst. cbn [fold_left]. apply IH; [|assumption].
  apply index_column_bound; assumption.
Qed.

Lemma step_ok s s' :
  statement_ok s → SQLiteStatement.step s s' → statement_ok s'.
Proof.
  intros (Hclear & Hcount & Hindex) Hstep.
  destruct Hstep as [s|s|s].
  - apply reset_ok.
  - unfold SQLiteStatement.execute.
    cbn [SQLiteStatement._stmt SQLiteStatement._hasRow
         SQLiteStatement._columnCount SQLiteStatement._rowNameIndex].
    destruct (sqlite3_step (SQLiteStatement._stmt s)) as [rc stmt] eqn:Estep.
    assert (Hnames : sqlite3_column_count stmt =
                     sqlite3_column_count (SQLiteStatement._stmt s)).
    { unfold sqlite3_step in Estep. unfold sqlite3_column_count.
      destruct (steps (SQLiteStatement._stmt s)) as [|[rc0 row] rest];
        injection Estep as _ <-; reflexivity. }
    destruct (rc =? SQLITE_DONE).
    { match goal with
      | |- context [SQLiteStatement.reset ?x] =>
          pose proof (reset_after x) as H;
          destruct (SQLiteStatement.reset x) as [[s1 rc1] out1]
      end. exact H. }
    destruct (rc =? SQLITE_ROW).
    2: { match goal with
         | |- context [SQLiteStatement.reset ?x] =>
             pose proof (reset_after x) as H;
             destruct (SQLiteStatement.reset x) as [[s1 rc1] out1]
         end. exact H. }
    cbn [fst]. unfold statement_ok.
    cbn [SQLiteStatement._stmt SQLiteStatement._hasRow
         SQLiteStatement._columnCount SQLiteStatement._rowNameIndex].
    split; [discriminate|]. split; [reflexivity|].
    apply index_columns_bound.
    + intros name j Hj. rewrite Hnames. eapply Hindex. eassumption.
    + apply Forall_forall. intros i Hi. apply list_elem_of_In, in_map_iff in Hi.
      destruct Hi as (k & <- & Hk). apply in_seq in Hk. lia.
  - unfold SQLiteStatement.next.
    destruct (sqlite3_step (SQLiteStatement._stmt s)) as [rc stmt] eqn:Estep.
    assert (Hnames : sqlite3_column_count stmt =
                     sqlite3_column_count (SQLiteStatement._stmt s)).
    { unfold sqlite3_step in Estep. unfold sqlite3_column_count.
      destruct (steps (SQLiteStatement._stmt s)) as [|[rc0 row] rest];
        injection Estep as _ <-; reflexivity. }
    cbn [SQLiteStatement._stmt SQLiteStatement._hasRow
         SQLiteStatement._columnCount SQLiteStatement._rowNameIndex].
    destruct (rc =? SQLITE_DONE).
    { match goal with
      | |- context [SQLiteStatement.reset ?x] =>
          pose proof (reset_after x) as H;
          destruct (SQLiteStatement.reset x) as [[s1 rc1] out1]
      end. exact H. }
    destruct (rc =? SQLITE_ROW).
    2: { match goal with
         | |- context [SQLiteStatement.reset ?x] =>
             pose proof (reset_after x) as H;
             destruct (SQLiteStatement.reset x) as [[s1 rc1] out1]
         end. exact H. }
    cbn [fst]. unfold statement_ok.
    cbn [SQLiteStatement._stmt SQLiteStatement._hasRow
         SQLiteStatement._columnCount SQLiteStatement._rowNameIndex].
    split; [discriminate|]. split; [reflexivity|].
    intros name j Hj. rewrite Hnames. eapply Hindex. eassumption.
Qed.

Lemma reachable_ok s : SQLiteStatement.reachable s → statement_ok s.
Proof.
  induction 1 as [stmt|s s' _ IH Hstep].
  - unfold statement_ok, SQLiteStatement.new. cbn.
    repeat split; try discriminate.
    all: intros name i Hi; rewrite lookup_empty in Hi; discriminate.
  - eapply step_ok; eassumption.
Qed.

(** X20: the getters by name never report a misuse.  However a
    statement has been used - constructed, then reset, executed and
    stepped in any order, whatever the engine returned - a getter by
    name returns SQLITE_NOTFOUND or the result of the getter by index
    for a column of the statement with a row present, never
    SQLITE_MISUSE; and as long as the statement has no row every getter
    by index returns SQLITE_MISUSE and every getter by name
    SQLITE_NOTFOUND, leaving the result as it was. *)
Theorem reachable_getters (s : SQLiteStatement.t) :
  SQLiteStatement.reachable s →
  (∀ ret name,
     (SQLiteStatement.getInt_named s ret name).1 ≠ SQLITE_MISUSE ∧
     SQLiteStatement.getInt64_named s ret name ≠ SQLITE_MISUSE) ∧
  (∀ ret name,
     (SQLiteStatement.getString_named s ret name).1 ≠ SQLITE_MISUSE) ∧
  (SQLiteStatement.hasRow s = false →
   (∀ ret i, SQLiteStatement.getInt s ret i = (SQLITE_MISUSE, ret) ∧
             SQLiteStatement.getInt64 s ret i = SQLITE_MISUSE) ∧
   (∀ ret name,
      SQLiteStatement.getInt_named s ret name = (SQLITE_NOTFOUND, ret) ∧
      SQLiteStatement.getInt64_named s ret name = SQLITE_NOTFOUND) ∧
   (∀ ret name,
      SQLiteStatement.getString_named s ret name = (SQLITE_NOTFOUND, ret))).
Proof.
  intros Hreach. apply reachable_ok in Hreach.
  destruct Hreach as (Hclear & Hcount & Hindex).
  assert (Hguard : ∀ name i,
            SQLiteStatement._rowNameIndex s !! name = Some i →
            negb (SQLiteStatement._hasRow s) || (i <? 0)
            || (SQLiteStatement._columnCount s <=? i) = false).
  { intros name i Hi. destruct (SQLiteStatement._hasRow s) eqn:Hrow.
    - pose proof (Hindex name i Hi) as Hrange. rewrite <- (Hcount eq_refl) in Hrange.
      destruct (i <? 0) eqn:E1; [apply Z.ltb_lt in E1; lia|].
      destruct (_ <=? i) eqn:E2; [apply Z.leb_le in E2; lia|]. reflexivity.
    - destruct (Hclear eq_refl) as [_ Hempty]. rewrite Hempty in Hi.
      rewrite lookup_empty in Hi. discriminate. }
  split; [|split].
  - intros ret name.
    unfold SQLiteStatement.getInt_named, SQLiteStatement.getInt64_named.
    destruct (SQLiteStatement._rowNameIndex s !! name) as [i|] eqn:Hi;
      [|split; discriminate].
    unfold SQLiteStatement.getInt, SQLiteStatement.getInt64.
    rewrite (Hguard name i Hi). split; discriminate.
  - intros ret name. unfold SQLiteStatement.getString_named.
    destruct (SQLiteStatement._rowNameIndex s !! name) as [i|] eqn:Hi;
      [|discriminate].
    unfold SQLiteStatement.getString. rewrite (Hguard name i Hi).
    destruct (sqlite3_column_text _ i); discriminate.
  - unfold SQLiteStatement.hasRow. intros Hrow.
    destruct (Hclear Hrow) as [_ Hempty].
    split; [|split].
    + intros ret i. unfold SQLiteStatement.getInt, SQLiteStatement.getInt64.
      rewrite Hrow. split; reflexivity.
    + intros ret name.
      unfold SQLiteStatement.getInt_named, SQLiteStatement.getInt64_named.
      rewrite Hempty, lookup_empty. split; reflexivity.
    + intros ret name. unfold SQLiteStatement.getString_named.
      rewrite Hempty, lookup_empty. reflexivity.
Qed.

(** X21: iterating over the rows.  When execute has returned the first
    row of a statement whose name index was empty and sqlite3_step
    returns SQLITE_ROW again, next leaves the statement with a row and
    the getters read the new row, by index and by name, the name of a
    column still standing for the last column that has it.  When
    sqlite3_step returns anything else, the end of the result or an
    error, next leaves the statement in one and the same state without
    a row, the row data cleared. *)
Theorem execute_next
    (s : SQLiteStatement.t) (row1 row2 : list Value) (rc : Z)
    (rest : list (Z * list Value)) :
  SQLiteStatement._rowNameIndex s = ∅ →
  steps (SQLiteStatement._stmt s) = (SQLITE_ROW, row1) :: (rc, row2) :: rest →
  let names := column_names (SQLiteStatement._stmt s) in
  let s1 := (SQLiteStatement.execute s).1.1 in
  let s2 := (SQLiteStatement.next s1).1 in
  (rc = SQLITE_ROW →
   SQLiteStatement._stmt s2 =
     mk_stmt names rest row2 (reset_status (SQLiteStatement._stmt s)) ∧
   SQLiteStatement.hasRow s2 = true ∧
   (∀ ret i, 0 ≤ i < Z.of_nat (length names) →
      SQLiteStatement.getInt s2 ret i =
      (SQLITE_OK, sqlite3_column_int (SQLiteStatement._stmt s2) i)) ∧
   (∀ ret name i,
      names !! i = Some (Some name) →
      (∀ j, (i < j)%nat → names !! j ≠ Some (Some name)) →
      SQLiteStatement.getInt_named s2 ret name =
      (SQLITE_OK,
       sqlite3_column_int (SQLiteStatement._stmt s2) (Z.of_nat i)))) ∧
  (rc ≠ SQLITE_ROW →
   s2 = SQLiteStatement.mk
          (mk_stmt names rest [] (reset_status (SQLiteStatement._stmt s)))
          false 0 ∅).
Proof.
  intros Hempty Hsteps names s1 s2.
  assert (Hs1 : s1 =
    SQLiteStatement.mk
      (mk_stmt names ((rc, row2) :: rest) row1
         (reset_status (SQLiteStatement._stmt s)))
      true (Z.of_nat (length names))
      (fold_left
         (SQLiteStatement.index_column
            (mk_stmt names ((rc, row2) :: rest) row1
               (reset_status (SQLiteStatement._stmt s))))
         (map Z.of_nat (seq 0 (length names))) ∅)).
  { subst s1. unfold SQLiteStatement.execute, sqlite3_step.
    cbn [SQLiteStatement._stmt SQLiteStatement._hasRow
         SQLiteStatement._columnCount SQLiteStatement._rowNameIndex].
    rewrite Hsteps, Hempty. cbn [Z.eqb SQLITE_ROW SQLITE_DONE Pos.eqb fst].
    unfold sqlite3_column_count. cbn [column_names]. rewrite Nat2Z.id.
    reflexivity. }
  set (stmt1 := mk_stmt names ((rc, row2) :: rest) row1
                  (reset_status (SQLiteStatement._stmt s))) in *.
  set (index := fold_left _ _ ∅) in Hs1.
  assert (Hindex : ∀ name i, index !! name = Some i ↔
            (Z.to_nat i < length names)%nat ∧ 0 ≤ i ∧
            names !! Z.to_nat i = Some (Some name) ∧
            ∀ j, (Z.to_nat i < j < length names)%nat →
                 names !! j ≠ Some (Some name)).
  { intros name i. apply (index_columns stmt1 (length names) name i). }
  split.
  - intros ->. subst s2. rewrite Hs1. unfold SQLiteStatement.next, sqlite3_step.
    cbn [SQLiteStatement._stmt SQLiteStatement._hasRow
         SQLiteStatement._columnCount SQLiteStatement._rowNameIndex
         steps stmt1 Z.eqb SQLITE_ROW SQLITE_DONE Pos.eqb fst column_names
         reset_status].
    unfold sqlite3_column_count. cbn [column_names].
    split; [reflexivity|]. split; [reflexivity|].
    assert (Hin : ∀ ret i, 0 ≤ i < Z.of_nat (length names) →
      SQLiteStatement.getInt
        (SQLiteStatement.mk
           (mk_stmt names rest row2 (reset_status (SQLiteStatement._stmt s)))
           true (Z.of_nat (length names)) index) ret i =
      (SQLITE_OK,
       sqlite3_column_int
         (mk_stmt names rest row2 (reset_status (SQLiteStatement._stmt s))) i)).
    { intros ret i Hi. unfold SQLiteStatement.getInt.
      cbn [SQLiteStatement._hasRow SQLiteStatement._columnCount
           SQLiteStatement._stmt negb orb].
      destruct (i <? 0) eqn:E1; [apply Z.ltb_lt in E1; lia|].
      destruct (_ <=? i) eqn:E2; [apply Z.leb_le in E2; lia|].
      reflexivity. }
    split; [exact Hin|].
    intros ret name i Hname Hlast. unfold SQLiteStatement.getInt_named.
    cbn [SQLiteStatement._rowNameIndex SQLiteStatement._stmt].
    assert (Hi : (i < length names)%nat)
      by (apply lookup_lt_Some in Hname; assumption).
    rewrite (proj2 (Hindex name (Z.of_nat i))).
    + apply Hin. lia.
    + rewrite Nat2Z.id. repeat split; try assumption; [lia|].
      intros j Hj. apply Hlast. lia.
  - intros Hrc. subst s2. rewrite Hs1.
    unfold SQLiteStatement.next, sqlite3_step.
    cbn [SQLiteStatement._stmt SQLiteStatement._hasRow
         SQLiteStatement._columnCount SQLiteStatement._rowNameIndex
         steps stmt1 column_names reset_status].
    apply Z.eqb_neq in Hrc. rewrite Hrc.
    destruct (rc =? SQLITE_DONE); reflexivity.
Qed.

(** * The further properties at concrete inputs *)

Lemma keyed_connection_wf : wf keyed_connection.
Proof. apply reachable_wf, keyed_connection_reachable. Qed.

Lemma fresh_connection_wf : wf fresh_connection.
Proof. apply reachable_wf, fresh_connection_reachable. Qed.


Lemma keyed_block_registered : registered keyed_connection 0 block_loc keyed_block.
Proof. split; vm_compute; reflexivity. Qed.

Lemma keyed_block_ok : block_ok (heap keyed_connection) keyed_block.
Proof.
  repeat split; intros c [= <-]; eexists; vm_compute; reflexivity.
Qed.

Lemma sqlite3_rekey_v2_transaction_witness :
  ∃ st' rc calls,
    sqlite3_rekey_v2 page1_unreadable (Some newkey) 6 keyed_connection
      = Some (st', rc, calls) ∧
    ((rc = SQLITE_NOMEM ∧ calls = [] ∧ codec_of keyed_connection 0 = NULL) ∨
     (rc, calls) =
     (SQLITE_OK,
      [mutex_enter; begin_trans; pager_get 1; pager_get 2; pager_write 2;
       pager_unref 2; btree_commit; mutex_leave])).
Proof.
  destruct (sqlite3_rekey_v2 page1_unreadable (Some newkey) 6 keyed_connection)
    as [[[st' rc] calls]|] eqn:E.
  - exists st', rc, calls. split; [reflexivity|].
    exact (sqlite3_rekey_v2_transaction _ _ _ _ _ _ _ E).
  - vm_compute in E. discriminate.
Defined.

Lemma FreeCodecCryptBlock_frees_footprint_witness :
  ∃ h', FreeCodecCryptBlock (Some block_loc) (heap keyed_connection) = Some h' ∧
        ∀ l, h' !! l =
             if decide (l ∈ footprint block_loc keyed_block) then None
             else heap keyed_connection !! l.
Proof.
  apply FreeCodecCryptBlock_frees_footprint;
    [vm_compute; reflexivity | apply keyed_block_ok].
Defined.

Lemma CreateCodeCryptBlock_fresh_witness :
  ∃ st' b s data,
    CreateCodeCryptBlock NULL 1 (-1) NULL fresh_connection
      = Some (st', Some b) ∧
    heap fresh_connection !! b = None ∧ heap fresh_connection !! s = None ∧
    b ≠ s ∧
    aDb st' = aDb fresh_connection ∧
    malloc_ok st' = drop 2 (malloc_ok fresh_connection) ∧
    heap st' !! b = Some (CryptBlock (mkBlock 1 1024 NULL NULL (Some s))) ∧
    heap st' !! s = Some (Bytes data) ∧
    Z.of_nat (length data) = 1024 ∧
    ∀ l, l ≠ b → l ≠ s → heap st' !! l = heap fresh_connection !! l.
Proof.
  apply (CreateCodeCryptBlock_fresh fresh_connection NULL 1 (mkPager 1024 NULL));
    [reflexivity | simpl; lia | vm_compute; constructor].
Defined.

Lemma CreateCodeCryptBlock_out_of_memory_witness :
  ∃ b, heap low_memory_connection !! b = None ∧
    CreateCodeCryptBlock (Some key_loc) 0 (-1) NULL low_memory_connection =
    Some (mkState
            (<[b := CryptBlock (mkBlock 0 1024 (Some key_loc) (Some key_loc)
                                  NULL)]>
               (heap low_memory_connection))
            (aDb low_memory_connection) [],
          NULL).
Proof.
  destruct (CreateCodeCryptBlock_out_of_memory low_memory_connection
              (Some key_loc) 0 (mkPager 1024 NULL) [])
    as [_ Hleak]; [reflexivity | simpl; lia |].
  apply Hleak. reflexivity.
Defined.

Lemma CreateCodeCryptBlock_resizes_witness :
  ∃ st' s' data,
    CreateCodeCryptBlock NULL 0 2048 (Some block_loc) keyed_connection
      = Some (st', Some block_loc) ∧
    delete scratch_loc (heap keyed_connection) !! s' = None ∧ s' ≠ block_loc ∧
    aDb st' = aDb keyed_connection ∧
    malloc_ok st' = tail (malloc_ok keyed_connection) ∧
    heap st' !! block_loc =
      Some (CryptBlock (mkBlock 0 2048 (Some key_loc) (Some key_loc)
                          (Some s'))) ∧
    heap st' !! s' = Some (Bytes data) ∧
    Z.of_nat (length data) = 2048 ∧
    ∀ l, l ≠ block_loc → l ≠ s' →
      heap st' !! l =
      if decide (l = scratch_loc) then None else heap keyed_connection !! l.
Proof.
  apply (CreateCodeCryptBlock_resizes keyed_connection NULL 0 block_loc
           scratch_loc keyed_block scratch_before 2048);
    [vm_compute; reflexivity | reflexivity | vm_compute; reflexivity
    | lia | simpl; lia | vm_compute; constructor].
Defined.

Lemma SQLite3CodecCallback_writes_one_array_witness :
  ∃ h' ret,
    SQLite3CodecCallback (Some block_loc) (Some page_loc) 1 6
      (heap keyed_connection) = Some (h', ret) ∧
    ((h' = heap keyed_connection ∧ ret = Some page_loc) ∨
     ∃ b blk,
       Some block_loc = Some b ∧
       heap keyed_connection !! b = Some (CryptBlock blk) ∧
       (((6 = 0 ∨ 6 = 2 ∨ 6 = 3) ∧ readCtx blk ≠ NULL ∧
         ret = Some page_loc ∧
         rewritten (Some page_loc) (pageSize blk) (heap keyed_connection) h') ∨
        ((6 = 6 ∨ 6 = 7) ∧ applicable_key 6 blk ≠ NULL ∧
         ret = cryptBuffer blk ∧
         rewritten (cryptBuffer blk) (pageSize blk) (heap keyed_connection)
           h'))).
Proof.
  destruct (SQLite3CodecCallback (Some block_loc) (Some page_loc) 1 6
              (heap keyed_connection)) as [[h' ret]|] eqn:E.
  - exists h', ret. split; [reflexivity|].
    exact (SQLite3CodecCallback_writes_one_array _ _ _ _ _ _ _ E).
  - vm_compute in E. discriminate.
Defined.

Lemma page_callback_round_trip_witness :
  ∃ h1 cipher,
    SQLite3CodecCallback (Some block_loc) (Some page_loc) 1 7
      (rekeying_heap (Some newkey_loc)) = Some (h1, Some scratch_loc) ∧
    load_bytes h1 (Some scratch_loc) 1024 = Some cipher ∧
    SQLite3CodecCallback (Some block_loc) (Some page_loc) 1 0
      (<[page_loc := Bytes cipher]> h1) =
    Some (<[page_loc := Bytes (take (Z.to_nat 1024) host_page)]> h1,
          Some page_loc).
Proof.
  apply (page_callback_round_trip (rekeying_heap (Some newkey_loc))
           block_loc key_loc key_loc page_loc scratch_loc page_loc
           (mkBlock 0 1024 (Some key_loc) (Some newkey_loc) (Some scratch_loc))
           (derived_key secret 6) host_page scratch_before host_page 7 0 1);
    [ vm_compute; reflexivity | right; reflexivity | left; reflexivity
    | reflexivity | vm_compute; reflexivity | reflexivity
    | vm_compute; reflexivity | vm_compute; discriminate | reflexivity
    | vm_compute; reflexivity | vm_compute; reflexivity
    | vm_compute; reflexivity
    | unfold host_page; rewrite repeat_length; simpl; lia
    | unfold scratch_before; rewrite repeat_length; simpl; lia ].
Defined.

Lemma sqlite3CodecAttach_with_key_witness :
  ∃ st' c b s data,
    sqlite3CodecAttach 0 (Some newkey) 6 keyed_connection
      = Some (st', SQLITE_OK) ∧
    wf st' ∧
    heap keyed_connection !! c = None ∧ heap keyed_connection !! b = None ∧
    heap keyed_connection !! s = None ∧
    c ≠ b ∧ c ≠ s ∧ b ≠ s ∧
    aDb st' = <[0%nat := mkPager 1024 (Some b)]> (aDb keyed_connection) ∧
    heap st' !! b =
      Some (CryptBlock (mkBlock 0 1024 (Some c) (Some c) (Some s))) ∧
    heap st' !! c = Some (SQLiteCipherContext (derived_key newkey 6)) ∧
    heap st' !! s = Some (Bytes data) ∧
    Z.of_nat (length data) = 1024 ∧
    ∀ l, l ≠ b → l ≠ c → l ≠ s →
      heap st' !! l =
      if decide (l ∈ footprint_of keyed_connection 0) then None
      else heap keyed_connection !! l.
Proof.
  apply (sqlite3CodecAttach_with_key keyed_connection 0 newkey 6
           (mkPager 1024 (Some block_loc)));
    [ apply keyed_connection_wf | lia | vm_compute; reflexivity | simpl; lia
    | simpl; lia | vm_compute; constructor ].
Defined.

Lemma sqlite3CodecAttach_negative_length_witness :
  sqlite3CodecAttach 0 (Some secret) (-1) fresh_connection
    = Some (fresh_connection, SQLITE_NOMEM) ∧
  sqlite3_key_v2 (Some secret) (-1) fresh_connection
    = Some (fresh_connection, SQLITE_NOMEM) ∧
  sqlite3_key (Some secret) (-1) fresh_connection
    = Some (fresh_connection, SQLITE_NOMEM).
Proof.
  apply (sqlite3CodecAttach_negative_length fresh_connection 0 secret (-1)).
  lia.
Defined.

Lemma sqlite3CodecAttach_failure_witness :
  ∃ st',
    sqlite3CodecAttach 0 (Some newkey) 6 exhausted_connection
      = Some (st', SQLITE_NOMEM) ∧
    aDb st' = aDb exhausted_connection ∧
    heap exhausted_connection ⊆ heap st'.
Proof.
  destruct (sqlite3CodecAttach 0 (Some newkey) 6 exhausted_connection)
    as [[st' rc]|] eqn:E; [|vm_compute in E; discriminate].
  assert (Hrc : rc = SQLITE_NOMEM).
  { apply (f_equal (λ o, snd <$> o)) in E. vm_compute in E.
    injection E as <-. reflexivity. }
  subst rc. exists st'. split; [reflexivity|].
  apply (sqlite3CodecAttach_failure _ _ _ _ _ _ E). discriminate.
Defined.

Lemma sqlite3_rekey_v2_changes_key_witness :
  ∃ st' l,
    sqlite3_rekey_v2 willing_host (Some newkey) 6 keyed_connection =
    Some (st', SQLITE_OK,
          [mutex_enter; begin_trans; pager_get 1; pager_write 1; pager_unref 1;
           pager_get 2; pager_write 2; pager_unref 2;
           pager_get 3; pager_write 3; pager_unref 3;
           btree_commit; mutex_leave]) ∧
    heap keyed_connection !! l = None ∧
    aDb st' = aDb keyed_connection ∧
    heap st' !! block_loc =
      Some (CryptBlock (mkBlock 0 1024 (Some l) (Some l) (Some scratch_loc))) ∧
    heap st' !! l = Some (SQLiteCipherContext (derived_key newkey 6)) ∧
    heap st' !! key_loc = None ∧
    same_up_to_bytes {[block_loc; l; key_loc]} (heap keyed_connection)
      (heap st').
Proof.
  apply (sqlite3_rekey_v2_changes_key willing_host keyed_connection block_loc
           key_loc keyed_block (derived_key secret 6) newkey 6);
    [ apply keyed_block_registered | reflexivity | vm_compute; reflexivity
    | simpl; lia | vm_compute; constructor
    | reflexivity | vm_compute; reflexivity | reflexivity ].
Defined.

Lemma sqlite3_rekey_v2_failure_restores_witness :
  ∃ st' calls,
    sqlite3_rekey_v2 commit_fails (Some newkey) 6 keyed_connection
      = Some (st', SQLITE_IOERR, calls) ∧
    same_up_to_bytes ∅ (heap keyed_connection) (heap st') ∧
    aDb st' = aDb keyed_connection.
Proof.
  destruct (sqlite3_rekey_v2 commit_fails (Some newkey) 6 keyed_connection)
    as [[[st' rc] calls]|] eqn:E; [|vm_compute in E; discriminate].
  destruct (sqlite3_rekey_v2_result _ _ _ _ _ _ _ E)
    as [(_ & _ & Hnone) | [Hrc Hcalls]];
    [vm_compute in Hnone; discriminate|].
  vm_compute in Hrc. subst rc. exists st', calls. split; [reflexivity|].
  apply (sqlite3_rekey_v2_failure_restores _ _ _ _ _ _ _
           keyed_connection_wf) in E.
  - exact E.
  - intros b blk [Hc Hb]. vm_compute in Hc. injection Hc as <-.
    vm_compute in Hb. injection Hb as <-. discriminate.
  - rewrite Hcalls. vm_compute. discriminate.
  - discriminate.
Defined.


Lemma sqlite3_rekey_v2_encrypts_witness :
  ∃ st' c b s data,
    sqlite3_rekey_v2 willing_host (Some secret) 6 fresh_connection =
    Some (st', SQLITE_OK,
          [mutex_enter; begin_trans; pager_get 1; pager_write 1; pager_unref 1;
           pager_get 2; pager_write 2; pager_unref 2;
           pager_get 3; pager_write 3; pager_unref 3;
           btree_commit; mutex_leave]) ∧
    heap fresh_connection !! c = None ∧ heap fresh_connection !! b = None ∧
    heap fresh_connection !! s = None ∧ c ≠ b ∧ c ≠ s ∧ b ≠ s ∧
    aDb st' = <[0%nat := mkPager 1024 (Some b)]> (aDb fresh_connection) ∧
    heap st' !! b =
      Some (CryptBlock (mkBlock 0 1024 (Some c) (Some c) (Some s))) ∧
    heap st' !! c = Some (SQLiteCipherContext (derived_key secret 6)) ∧
    heap st' !! s = Some (Bytes data) ∧
    Z.of_nat (length data) = 1024 ∧
    same_up_to_bytes {[b; c; s]} (heap fresh_connection) (heap st').
Proof.
  apply (sqlite3_rekey_v2_encrypts willing_host fresh_connection
           (mkPager 1024 NULL) secret 6);
    [ reflexivity | reflexivity | simpl; lia | simpl; lia
    | vm_compute; constructor
    | reflexivity | vm_compute; reflexivity | reflexivity ].
Defined.

Lemma sqlite3_key_pages_round_trip_witness :
  ∃ stA' stB' bA bB sA hA,
    sqlite3_key (Some secret) 6 fresh_connection = Some (stA', SQLITE_OK) ∧
    codec_of stA' 0 = Some bA ∧
    SQLite3CodecCallback (Some bA) (Some page_loc) 1 6 (heap stA')
      = Some (hA, Some sA) ∧
    hA !! sA = Some (Bytes (arc4 (derived_key secret 6) host_page)) ∧
    hA !! page_loc = Some (Bytes host_page) ∧
    sqlite3_key (Some secret) 6 fresh_connection = Some (stB', SQLITE_OK) ∧
    codec_of stB' 0 = Some bB ∧
    SQLite3CodecCallback (Some bB) (Some page_loc) 1 3
      (<[page_loc := Bytes (arc4 (derived_key secret 6) host_page)]>
         (heap stB'))
      = Some (<[page_loc := Bytes host_page]> (heap stB'), Some page_loc).
Proof.
  apply (sqlite3_key_pages_round_trip fresh_connection fresh_connection
           secret 6 (mkPager 1024 NULL) (mkPager 1024 NULL)
           page_loc page_loc host_page host_page 1);
    [ apply fresh_connection_wf | apply fresh_connection_wf
    | reflexivity | reflexivity | reflexivity | simpl; lia | simpl; lia
    | vm_compute; constructor | vm_compute; constructor
    | vm_compute; discriminate | vm_compute; reflexivity
    | vm_compute; set_solver
    | unfold host_page; rewrite repeat_length; reflexivity
    | vm_compute; reflexivity ].
Defined.

Lemma sqlite3_rekey_v2_plain_without_key_witness :
  ∃ st',
    sqlite3_rekey_v2 willing_host None 0 fresh_connection =
    Some (st', SQLITE_OK,
          [mutex_enter; begin_trans; pager_get 1; pager_write 1; pager_unref 1;
           pager_get 2; pager_write 2; pager_unref 2;
           pager_get 3; pager_write 3; pager_unref 3;
           btree_commit; mutex_leave]) ∧
    heap st' = heap fresh_connection ∧ aDb st' = aDb fresh_connection.
Proof.
  destruct (sqlite3_rekey_v2 willing_host None 0 fresh_connection)
    as [[[st' rc] calls]|] eqn:E; [|vm_compute in E; discriminate].
  assert (Hcalls : calls ≠ []).
  { pose proof E as E2. apply (f_equal (λ o, snd <$> o)) in E2.
    vm_compute in E2. injection E2 as <-. discriminate. }
  destruct (sqlite3_rekey_v2_plain_without_key willing_host fresh_connection
              st' (mkPager 1024 NULL) None 0 rc calls eq_refl eq_refl
              (or_introl eq_refl) E Hcalls) as (Hheap & Hdb & -> & ->).
  exists st'. split; [reflexivity|]. split; assumption.
Defined.

Lemma main_enc_exit_code_witness :
  ∃ db' calls,
    main commit_fails enc_args keyed_connection
      = Some (db', 0, calls, [error_message]) ∧
    sqlite3_rekey commit_fails (Some (data "newkey")) 6 keyed_connection
      = Some (db', SQLITE_IOERR, calls).
Proof.
  destruct (main commit_fails enc_args keyed_connection)
    as [[[[db' code] calls] out]|] eqn:E; [|vm_compute in E; discriminate].
  destruct (main_enc_exit_code commit_fails enc_args keyed_connection db'
              code calls out) as (-> & rc & Hrekey & ->);
    [simpl; lia | reflexivity | exact E |].
  assert (Hrc : rc = SQLITE_IOERR).
  { pose proof Hrekey as H2.
    apply (f_equal (λ o, (λ r, snd (fst r)) <$> o)) in H2.
    vm_compute in H2. injection H2 as <-. reflexivity. }
  subst rc. exists db', calls. split; [reflexivity | exact Hrekey].
Defined.


Lemma execute_row_witness :
  ∃ s',
    SQLiteStatement.execute (SQLiteStatement.new two_ids) = (s', true, []) ∧
    SQLiteStatement.hasRow s' = true ∧
    SQLiteStatement.getInt s' 0 0 = (SQLITE_OK, 7) ∧
    SQLiteStatement.getInt64 s' 0 0 = SQLITE_OK ∧
    SQLiteStatement.getString s' "" 1 = (SQLITE_OK, "seven"%string) ∧
    SQLiteStatement.getInt s' 5 3 = (SQLITE_MISUSE, 5) ∧
    SQLiteStatement.getInt_named s' 0 "id" = (SQLITE_OK, 8) ∧
    SQLiteStatement.getInt_named s' 5 "age" = (SQLITE_NOTFOUND, 5) ∧
    SQLiteStatement.getColumnType s' 0 = TYPE_UNKNOWN.
Proof.
  destruct (execute_row (SQLiteStatement.new two_ids)
              [mkValue 1 7 (Some "7"); mkValue 3 0 (Some "seven");
               mkValue 1 8 (Some "8")]%string
              [(SQLITE_DONE, [])] eq_refl eq_refl)
    as (s' & Hexec & _ & Hrow & Hin & Hout & Hnamed & Hnone & Htype).
  exists s'. split; [exact Hexec|]. split; [exact Hrow|].
  split; [apply (Hin 0 ""%string 0); simpl; lia|].
  split; [apply (Hin 0 ""%string 0); simpl; lia|].
  split; [apply (Hin 0 ""%string 1); simpl; lia|].
  split; [apply (Hout 5 ""%string 3); simpl; lia|].
  split.
  { apply (Hnamed 0 "id"%string 2%nat); [reflexivity|].
    intros [|[|[|j]]] Hj; try lia. discriminate. }
  split; [|apply Htype].
  apply (Hnone 5 "age"%string).
  intros [|[|[|i]]]; discriminate.
Defined.

Lemma stepped_two_ids_reachable : SQLiteStatement.reachable stepped_two_ids.
Proof.
  eapply SQLiteStatement.reachable_step;
    [|apply SQLiteStatement.step_next].
  eapply SQLiteStatement.reachable_step;
    [|apply SQLiteStatement.step_execute].
  apply SQLiteStatement.reachable_new.
Qed.

Lemma reachable_getters_witness :
  SQLiteStatement.hasRow stepped_two_ids = false ∧
  (SQLiteStatement.getInt_named stepped_two_ids 5 "id").1 ≠ SQLITE_MISUSE ∧
  SQLiteStatement.getInt stepped_two_ids 5 0 = (SQLITE_MISUSE, 5) ∧
  SQLiteStatement.getInt_named stepped_two_ids 5 "id" = (SQLITE_NOTFOUND, 5) ∧
  SQLiteStatement.getString_named stepped_two_ids "" "name"
    = (SQLITE_NOTFOUND, ""%string).
Proof.
  destruct (reachable_getters stepped_two_ids stepped_two_ids_reachable)
    as (Hnever & _ & Hnone).
  destruct (Hnone eq_refl) as (Hindex & Hname & Hstring).
  split; [reflexivity|]. split; [apply (Hnever 5 "id"%string)|].
  split; [apply (Hindex 5 0)|]. split; [apply (Hname 5 "id"%string)|].
  apply (Hstring ""%string "name"%string).
Defined.

Lemma execute_next_witness :
  SQLiteStatement.hasRow executed_two_ids = true ∧
  stepped_two_ids =
  SQLiteStatement.mk
    (mk_stmt [Some "id"; Some "name"; Some "id"]%string [] [] SQLITE_OK)
    false 0 ∅.
Proof.
  split; [reflexivity|].
  destruct (execute_next (SQLiteStatement.new two_ids)
              [mkValue 1 7 (Some "7"); mkValue 3 0 (Some "seven");
               mkValue 1 8 (Some "8")]%string
              [] SQLITE_DONE [] eq_refl eq_refl) as [_ Hdone].
  apply Hdone. discriminate.
Defined.

Lemma main_dec_failure_witness :
  ∃ db' keyed,
    SQLiteDatabase.key "secret" fresh_connection = Some (keyed, SQLITE_OK, []) ∧
    main commit_fails dec_args fresh_connection =
    Some (db', 1,
          [mutex_enter; begin_trans; pager_get 1; pager_write 1; pager_unref 1;
           pager_get 2; pager_write 2; pager_unref 2;
           pager_get 3; pager_write 3; pager_unref 3;
           btree_commit; mutex_leave],
          [error_message; failed_to_decrypt]) ∧
    same_up_to_bytes ∅ (heap keyed) (heap db') ∧ aDb db' = aDb keyed ∧
    ∃ b c s,
      registered db' 0 b (mkBlock 0 1024 (Some c) (Some c) (Some s)) ∧
      heap db' !! c = Some (SQLiteCipherContext (derived_key secret 6)).
Proof.
  apply (main_dec_failure commit_fails dec_args fresh_connection
           (mkPager 1024 NULL) "secret");
    [ apply fresh_connection_wf | reflexivity | reflexivity | simpl; lia
    | simpl; lia | reflexivity | reflexivity | simpl; lia
    | vm_compute; constructor | vm_compute; discriminate ].
Defined.

Lemma sqlite3_rekey_v2_out_of_memory_witness :
  ∃ st',
    sqlite3_rekey_v2 willing_host (Some secret) 6 low_memory_connection
      = Some (st', SQLITE_NOMEM, []) ∧
    codec_of low_memory_connection 0 = NULL ∧
    aDb st' = aDb low_memory_connection ∧
    heap low_memory_connection ⊆ heap st'.
Proof.
  destruct (sqlite3_rekey_v2 willing_host (Some secret) 6
              low_memory_connection) as [[[st' rc] calls]|] eqn:E;
    [|vm_compute in E; discriminate].
  assert (Hcalls : calls = []).
  { pose proof E as E2. apply (f_equal (λ o, snd <$> o)) in E2.
    vm_compute in E2. injection E2 as <-. reflexivity. }
  destruct (sqlite3_rekey_v2_out_of_memory _ _ _ _ _ _ _ E Hcalls)
    as (-> & Hnone & Hdb & Hsub).
  subst calls. exists st'. split; [reflexivity|].
  split; [exact Hnone|]. split; assumption.
Defined.

Lemma page_size_outgrows_scratch_witness :
  sqlite3PagerSetPagesize 0 1024 connection_512 =
    Some (mkState
            (<[3%positive :=
                 CryptBlock (mkBlock 0 1024 (Some 2%positive) (Some 2%positive)
                               (Some 4%positive))]> (heap connection_512))
            (<[0%nat := mkPager 1024 (Some 3%positive)]> (aDb connection_512))
            (malloc_ok connection_512)) ∧
  SQLite3CodecCallback (Some 3%positive) (Some 1%positive) 1 6
    (<[3%positive :=
         CryptBlock (mkBlock 0 1024 (Some 2%positive) (Some 2%positive)
                       (Some 4%positive))]> (heap connection_512)) = None.
Proof.
  apply (page_size_outgrows_scratch connection_512 0
           (mkPager 512 (Some 3%positive)) 3%positive 2%positive 4%positive
           1%positive
           (mkBlock 0 512 (Some 2%positive) (Some 2%positive) (Some 4%positive))
           (derived_key secret 6) (repeat 0 512) (repeat 7 1024) 1024 1);
    [ vm_compute; reflexivity | reflexivity | vm_compute; reflexivity
    | reflexivity | vm_compute; reflexivity | vm_compute; discriminate
    | reflexivity | vm_compute; reflexivity | vm_compute; reflexivity
    | rewrite !repeat_length; simpl; lia ].
Defined.
